(** * Verification of the sync engine of connectors-python

    The development embeds three pieces of the repository:

    - [Py]: the fragment of Python values the code manipulates
      (dicts, sets, [==], exceptions) and a small state-and-exception
      monad for the coroutines;
    - [ManagementClient]: [_DeepChainMap] and the mapping merge of
      [ensure_content_index_mappings] (connectors/es/management_client.py);
    - [Byoei]: [ElasticServer._bulk], [get_docs], [get_attachments] and
      [async_bulk] (connectors/byoei.py), with the fake sources of
      connectors/tests/fake_sources.py as concrete feeds.

    Further definitions cover [prepare_index] ([ByoeiMore]), the index
    settings, index listings and document scan of [ESManagementClient]
    ([ManagementClientMore]) and the configuration wrapper of
    connectors/agent/config.py ([AgentConfig]).

    Definitions come first ([Py], [ManagementClient], [Byoei],
    [FakeSources], [Examples], [ByoeiMore], [ManagementClientMore],
    [AgentConfig], [MoreExamples]); the theorems follow ([PyFacts],
    [ManagementClientFacts], [BulkFacts], [PassFacts], [BulkMoreFacts],
    [FeedMoreFacts], [PassMoreFacts], [FailingFeedFacts],
    [ChainMoreFacts], [ClientMoreFacts], [AgentConfigFacts]). *)

From Stdlib Require Import List String Bool Arith PeanoNat Lia.
Import ListNotations.
Open Scope string_scope.
Open Scope list_scope.
Set Warnings "-register-all".

(* ================================================================== *)
(** ** Python values *)
(* ================================================================== *)

Module Py.

(** JSON-like Python objects.  [VDict] is a [dict] with string keys, kept
    in insertion order; a well-formed dict has no repeated key. *)
Inductive value : Type :=
| VNone
| VBool (b : bool)
| VStr (s : string)
| VList (items : list value)
| VDict (items : list (string * value)).

Definition dict := list (string * value).

(** Exceptions raised by the modelled code. *)
Inductive exn : Type :=
| KeyError (key : string)
| TypeError (msg : string)
| Exception (msg : string).

Inductive result (A : Type) : Type :=
| Ok (a : A)
| Raise (e : exn).
Arguments Ok {A} a.
Arguments Raise {A} e.

(** [isinstance(v, Mapping)] *)
Definition is_mapping (v : value) : bool :=
  match v with VDict _ => true | _ => false end.

(** Values accepted as set members and dict keys. *)
Definition hashable (v : value) : bool :=
  match v with
  | VNone | VBool _ | VStr _ => true
  | VList _ | VDict _ => false
  end.

(** [d.get(k)]: [None] stands for a missing key. *)
Fixpoint dict_get (k : string) (d : dict) : option value :=
  match d with
  | [] => None
  | (k', v) :: d' => if String.eqb k k' then Some v else dict_get k d'
  end.

(** [k in d] *)
Definition dict_mem (k : string) (d : dict) : bool :=
  match dict_get k d with Some _ => true | None => false end.

(** [d[k]] *)
Definition dict_getitem (k : string) (d : dict) : result value :=
  match dict_get k d with
  | Some v => Ok v
  | None => Raise (KeyError k)
  end.

(** [d.get(k, default)] *)
Definition dict_get_default (k : string) (default : value) (d : dict) : value :=
  match dict_get k d with Some v => v | None => default end.

(** [d[k] = v]: an existing key keeps its position. *)
Fixpoint dict_set (k : string) (v : value) (d : dict) : dict :=
  match d with
  | [] => [(k, v)]
  | (k', v') :: d' =>
      if String.eqb k k' then (k', v) :: d' else (k', v') :: dict_set k v d'
  end.

Fixpoint dict_remove (k : string) (d : dict) : dict :=
  match d with
  | [] => []
  | (k', v') :: d' =>
      if String.eqb k k' then dict_remove k d' else (k', v') :: dict_remove k d'
  end.

(** [d.pop(k)]: the value and the dict after the removal. *)
Definition dict_pop (k : string) (d : dict) : result (value * dict) :=
  match dict_get k d with
  | Some v => Ok (v, dict_remove k d)
  | None => Raise (KeyError k)
  end.

Definition keys (d : dict) : list string := map fst d.

(** Python's [==] on the modelled values; dicts compare without regard to
    the order of their items. *)
Fixpoint py_eq (a b : value) : bool :=
  match a, b with
  | VNone, VNone => true
  | VBool x, VBool y => Bool.eqb x y
  | VStr x, VStr y => String.eqb x y
  | VList xs, VList ys =>
      (fix go (xs ys : list value) : bool :=
         match xs, ys with
         | [], [] => true
         | x :: xs', y :: ys' => py_eq x y && go xs' ys'
         | _, _ => false
         end) xs ys
  | VDict d1, VDict d2 =>
      Nat.eqb (List.length d1) (List.length d2) &&
      (fix go (d : list (string * value)) : bool :=
         match d with
         | [] => true
         | (k, v) :: d' =>
             match dict_get k d2 with
             | Some w => py_eq v w && go d'
             | None => false
             end
         end) d1
  | _, _ => false
  end.

(** A Python [set] of values: a duplicate-free list, oldest member first. *)
Definition pyset := list value.

(** The invariant of a Python set: hashable members, none twice. *)
Definition is_set (s : pyset) : Prop :=
  NoDup s /\ Forall (fun x => hashable x = true) s.

(** [x in s] *)
Definition set_mem (x : value) (s : pyset) : bool := existsb (py_eq x) s.

(** [s.add(x)] *)
Definition set_add (x : value) (s : pyset) : result pyset :=
  if hashable x then Ok (if set_mem x s then s else s ++ [x])
  else Raise (TypeError "unhashable type").

(** A Python [dict] whose keys are arbitrary hashable values. *)
Definition vdict := list (value * value).

Fixpoint vdict_get (k : value) (d : vdict) : option value :=
  match d with
  | [] => None
  | (k', v) :: d' => if py_eq k k' then Some v else vdict_get k d'
  end.

Definition vdict_get_default (k default : value) (d : vdict) : value :=
  match vdict_get k d with Some v => v | None => default end.

Fixpoint vdict_set_raw (k v : value) (d : vdict) : vdict :=
  match d with
  | [] => [(k, v)]
  | (k', v') :: d' =>
      if py_eq k k' then (k', v) :: d' else (k', v') :: vdict_set_raw k v d'
  end.

(** [d[k] = v] *)
Definition vdict_set (k v : value) (d : vdict) : result vdict :=
  if hashable k then Ok (vdict_set_raw k v d)
  else Raise (TypeError "unhashable type").

(** Sequencing of fallible steps. *)
Definition and_then {A B} (r : result A) (k : A -> result B) : result B :=
  match r with
  | Ok a => k a
  | Raise e => Raise e
  end.

(** *** Coroutines as state-and-exception computations

    A coroutine body is run to completion on a state; an exception keeps
    the state reached when it was raised. *)
Definition task (S A : Type) : Type := S -> result A * S.

Definition ret {S A} (a : A) : task S A := fun s => (Ok a, s).

Definition raise {S A} (e : exn) : task S A := fun s => (Raise e, s).

Definition bind {S A B} (m : task S A) (k : A -> task S B) : task S B :=
  fun s =>
    match m s with
    | (Ok a, s') => k a s'
    | (Raise e, s') => (Raise e, s')
    end.

Definition lift {S A} (r : result A) : task S A := fun s => (r, s).

Definition gets {S A} (f : S -> A) : task S A := fun s => (Ok (f s), s).

Definition modify {S} (f : S -> S) : task S unit := fun s => (Ok tt, f s).

(** [for x in l: body(x)] *)
Fixpoint for_each {S A} (body : A -> task S unit) (l : list A) : task S unit :=
  match l with
  | [] => ret tt
  | x :: l' => bind (body x) (fun _ => for_each body l')
  end.

End Py.

Import Py.

Declare Scope task_scope.
Delimit Scope task_scope with task.
Notation "x <- m ;; k" := (bind m (fun x => k))
  (at level 61, m at next level, right associativity) : task_scope.
Notation "' p <- m ;; k" := (bind m (fun x => match x with p => k end))
  (at level 61, p pattern, m at next level, right associativity) : task_scope.
Notation "m ;;; k" := (bind m (fun _ => k))
  (at level 61, right associativity) : task_scope.

(* ================================================================== *)
(** ** connectors/es/management_client.py: [_DeepChainMap] *)
(* ================================================================== *)

Module ManagementClient.

(** [ChainMap.__getitem__]: the first underlying mapping that has the key
    answers. *)
Fixpoint chain_getitem (maps : list dict) (key : string) : result value :=
  match maps with
  | [] => Raise (KeyError key)
  | m :: rest =>
      match dict_get key m with
      | Some v => Ok v
      | None => chain_getitem rest key
      end
  end.

(** [d.update(dict.fromkeys(mapping))] on the keys collected so far. *)
Fixpoint update_keys (d : list string) (mapping : list string) : list string :=
  match mapping with
  | [] => d
  | k :: ks =>
      update_keys (if existsb (String.eqb k) d then d else d ++ [k]) ks
  end.

(** [ChainMap.__iter__]: the keys of the underlying mappings, each once,
    collected from the last mapping to the first. *)
Definition chain_iter (maps : list dict) : list string :=
  fold_left (fun d m => update_keys d (keys m)) (rev maps) [].

(** What [_DeepChainMap.__getitem__] returns: a plain value, or a new
    [_DeepChainMap] over the collected sub-mappings. *)
Inductive item : Type :=
| Plain (v : value)
| View (maps : list dict).

(** The loop of [__getitem__]: the values found for [key], in the order of
    the underlying mappings, up to the first one that is not a mapping;
    a mapping without the key is skipped. *)
Fixpoint deep_values (maps : list dict) (key : string) : list dict :=
  match maps with
  | [] => []
  | m :: rest =>
      match dict_get key m with
      | None => deep_values rest key
      | Some (VDict v) => v :: deep_values rest key
      | Some _ => []
      end
  end.

(** [_DeepChainMap.__getitem__] *)
Definition deep_getitem (maps : list dict) (key : string) : result item :=
  match chain_getitem maps key with
  | Raise e => Raise e
  | Ok (VDict _) => Ok (View (deep_values maps key))
  | Ok v => Ok (Plain v)
  end.

(** The dict comprehension of [to_dict], one key after the other. *)
Fixpoint comprehension (entry : string -> option (result value))
    (ks : list string) : option (result dict) :=
  match ks with
  | [] => Some (Ok [])
  | k :: ks' =>
      match entry k with
      | None => None
      | Some (Raise e) => Some (Raise e)
      | Some (Ok v) =>
          match comprehension entry ks' with
          | None => None
          | Some (Raise e) => Some (Raise e)
          | Some (Ok d) => Some (Ok ((k, v) :: d))
          end
      end
  end.

(** [_DeepChainMap.to_dict], with the recursion depth bounded by [fuel];
    [None] means the bound was reached. *)
Fixpoint to_dict_fuel (fuel : nat) (maps : list dict) : option (result dict) :=
  match fuel with
  | 0 => None
  | S fuel' =>
      comprehension
        (fun k =>
           match deep_getitem maps k with
           | Raise e => Some (Raise e)
           | Ok (Plain v) => Some (Ok v)
           | Ok (View vs) =>
               match to_dict_fuel fuel' vs with
               | None => None
               | Some (Raise e) => Some (Raise e)
               | Some (Ok d) => Some (Ok (VDict d))
               end
           end)
        (chain_iter maps)
  end.

(** Nesting depth of dicts inside a value. *)
Fixpoint depth (v : value) : nat :=
  match v with
  | VDict d =>
      S ((fix go (d : list (string * value)) : nat :=
            match d with
            | [] => 0
            | (_, w) :: d' => Nat.max (depth w) (go d')
            end) d)
  | _ => 0
  end.

Definition chain_depth (maps : list dict) : nat :=
  fold_right (fun m n => Nat.max (depth (VDict m)) n) 0 maps.

(** [to_dict] of the [_DeepChainMap] built over [maps]; the fuel exceeds
    the nesting depth of the underlying mappings. *)
Definition to_dict (maps : list dict) : option (result dict) :=
  to_dict_fuel (S (chain_depth maps)) maps.

(** Truth value of an object, as tested by [if]. *)
Definition truthy (v : value) : bool :=
  match v with
  | VNone => false
  | VBool b => b
  | VStr s => negb (String.eqb s "")
  | VList l => match l with [] => false | _ => true end
  | VDict d => match d with [] => false | _ => true end
  end.

(** The mappings [ensure_content_index_mappings] decides to put, from
    [response[index]] and the new [mappings]. *)
Definition desired_mappings (index_info mappings : dict)
  : option (result dict) :=
  let existing_mappings := dict_get_default "mappings" (VDict []) index_info in
  if truthy existing_mappings then
    match existing_mappings with
    | VDict existing => to_dict [existing; mappings]
    | _ => Some (Raise (TypeError "mappings is not a mapping"))
    end
  else Some (Ok mappings).

(** Keyword arguments of [indices.put_mapping]. *)
Record put_mapping_args : Type := {
  dynamic : value;
  dynamic_templates : value;
  properties : value
}.

Definition put_mapping_call (desired : dict) : put_mapping_args :=
  {| dynamic := dict_get_default "dynamic" (VBool false) desired;
     dynamic_templates := dict_get_default "dynamic_templates" (VList []) desired;
     properties := dict_get_default "properties" (VDict []) desired |}.

(** Follow a path of keys through nested dicts. *)
Fixpoint get_path (v : value) (path : list string) : option value :=
  match path with
  | [] => Some v
  | k :: path' =>
      match v with
      | VDict d =>
          match dict_get k d with
          | Some w => get_path w path'
          | None => None
          end
      | _ => None
      end
  end.

(** Python dict invariant: no key occurs twice, at any nesting level
    reached through dicts. *)
Fixpoint well_formed (v : value) : Prop :=
  match v with
  | VDict d =>
      NoDup (map fst d) /\
      (fix go (d : list (string * value)) : Prop :=
         match d with
         | [] => True
         | (_, w) :: d' => well_formed w /\ go d'
         end) d
  | _ => True
  end.

End ManagementClient.

(* ================================================================== *)
(** ** connectors/byoei.py: [ElasticServer] *)
(* ================================================================== *)

Module Byoei.

Local Open Scope task_scope.

(** The two end-of-stream markers put on the queue. *)
Definition END_DOCS : value := VStr "END_DOCS".
Definition END_DOWNLOADS : value := VStr "END_DOWNLOADS".

(** A source's [lazy_download] callable: what awaiting
    [lazy_download(doit=..., timestamp=...)] gives, a result ([None] or a
    dict) or an exception.  [timestamp] is [None] when the keyword is not
    passed. *)
Record lazy_download : Type := {
  dl_name : string;
  dl_run : bool -> option value -> result (option dict)
}.

(** One call of a [lazy_download]. *)
Record call : Type := {
  callee : lazy_download;
  doit : bool;
  timestamp : option value
}.

(** An asyncio [Task] wrapping a download coroutine.  [outcome] is the
    object the task holds once it is done: every [await] of the task gives
    this same object, so a mutation of the dict is seen by later awaits. *)
Record download : Type := {
  coro : call;
  outcome : result (option dict)
}.

(** [self.loop.create_task(lazy_download(doit=..., timestamp=...))] *)
Definition create_task (c : call) : download :=
  {| coro := c; outcome := dl_run (callee c) (doit c) (timestamp c) |}.

(** The fields of [ElasticServer] the sync engine touches.  [bulking] is
    [false] until [_bulk] sets the attribute; [bulk_calls] logs the
    [operations] of every [client.bulk] call, oldest first. *)
Record ElasticServer : Type := {
  _downloads : list download;
  chunk_size : nat;
  indexed_pages_count : nat;
  bulking : bool;
  bulk_calls : list (list value)
}.

(** [ElasticServer.__init__] *)
Definition init : ElasticServer :=
  {| _downloads := [];
     chunk_size := 500;
     indexed_pages_count := 0;
     bulking := false;
     bulk_calls := [] |}.

Definition with_downloads (ds : list download) (self : ElasticServer)
  : ElasticServer :=
  {| _downloads := ds;
     chunk_size := chunk_size self;
     indexed_pages_count := indexed_pages_count self;
     bulking := bulking self;
     bulk_calls := bulk_calls self |}.

(** [_add_download] *)
Definition _add_download (coro : download) (self : ElasticServer)
  : ElasticServer :=
  with_downloads (_downloads self ++ [coro]) self.

(** *** [_bulk] *)

(** [v[k]] on an arbitrary object. *)
Definition getitem (v : value) (k : string) : result value :=
  match v with
  | VDict d => dict_getitem k d
  | _ => Raise (TypeError "indices must be integers")
  end.

(** A value used as the key of a dict display.  The dicts of the model are
    keyed by strings, as every bulk action name is. *)
Definition as_key (v : value) : result string :=
  match v with
  | VStr s => Ok s
  | _ => Raise (TypeError "action name is not a string")
  end.

(** Local variables of [_bulk]: [ops] holds the [operations] of each
    dispatched [batch_bulk] task, oldest first. *)
Record bulker : Type := {
  batch : list value;
  ops : list (list value);
  docs_ended : bool;
  downloads_ended : bool
}.

Definition bulker_init : bulker :=
  {| batch := []; ops := []; docs_ended := false; downloads_ended := false |}.

(** How one iteration of [while True] ends. *)
Inductive iteration : Type :=
| Next (b : bulker)
| Break (b : bulker)
| Throw (e : exn).

(** The two [batch.append] of an iteration and the flush that follows. *)
Definition append_action (chunk_size : nat) (b : bulker) (doc : value)
  : result bulker :=
  and_then (getitem doc "_op_type") (fun op =>
  and_then (getitem doc "_index") (fun index =>
  and_then (getitem doc "_id") (fun id =>
  and_then (as_key op) (fun name =>
  let batch1 :=
    batch b ++ [VDict [(name, VDict [("_index", index); ("_id", id)])]] in
  and_then (getitem doc "doc") (fun body =>
  let batch2 :=
    if py_eq op (VStr "update")
    then batch1 ++ [VDict [("doc", body); ("doc_as_upsert", VBool true)]]
    else batch1 ++ [VDict [("doc", body)]] in
  if Nat.leb (chunk_size * 2) (List.length batch2) then
    Ok {| batch := [];
          ops := ops b ++ [batch2];
          docs_ended := docs_ended b;
          downloads_ended := downloads_ended b |}
  else
    Ok {| batch := batch2;
          ops := ops b;
          docs_ended := docs_ended b;
          downloads_ended := downloads_ended b |}))))).

(** One iteration of the [while True] loop, on the item [queue.get()]
    returned. *)
Definition bulk_step (chunk_size : nat) (b : bulker) (doc : value)
  : iteration :=
  let b1 :=
    {| batch := batch b;
       ops := ops b;
       docs_ended := if py_eq doc END_DOCS then true else docs_ended b;
       downloads_ended :=
         if py_eq doc END_DOWNLOADS then true else downloads_ended b |} in
  if docs_ended b1 && downloads_ended b1 then Break b1
  else if py_eq doc END_DOCS || py_eq doc END_DOWNLOADS then Next b1
  else
    match append_action chunk_size b1 doc with
    | Ok b2 => Next b2
    | Raise e => Throw e
    end.

(** How the [while True] loop ends on the items the queue will ever hold:
    [Exited] by [break], with the items left on the queue; [Blocked] in
    [queue.get()] once the queue is exhausted; [Threw] an exception, with
    the items left. *)
Inductive loop_end : Type :=
| Exited (b : bulker) (rest : list value)
| Blocked (b : bulker)
| Threw (e : exn) (b : bulker) (rest : list value).

Fixpoint bulk_loop (chunk_size : nat) (b : bulker) (queue : list value)
  : loop_end :=
  match queue with
  | [] => Blocked b
  | doc :: rest =>
      match bulk_step chunk_size b doc with
      | Next b' => bulk_loop chunk_size b' rest
      | Break b' => Exited b' rest
      | Throw e => Threw e b rest
      end
  end.

(** The items [queue.get()] returned before the loop ended. *)
Definition unread (r : loop_end) : list value :=
  match r with
  | Exited _ rest => rest
  | Blocked _ => []
  | Threw _ _ rest => rest
  end.

Definition observed (queue : list value) (r : loop_end) : list value :=
  firstn (List.length queue - List.length (unread r)) queue.

(** [if len(batch) > 0: ...] after the loop. *)
Definition final_flush (b : bulker) : bulker :=
  match batch b with
  | [] => b
  | _ :: _ =>
      {| batch := [];
         ops := ops b ++ [batch b];
         docs_ended := docs_ended b;
         downloads_ended := downloads_ended b |}
  end.

(** The effect of one [batch_bulk(operations)] task on the server; the
    call to Elasticsearch is taken to succeed, and [bulk_time], a reading
    of the wall clock, is left out. *)
Definition batch_bulk (self : ElasticServer) (operations : list value)
  : ElasticServer :=
  {| _downloads := _downloads self;
     chunk_size := chunk_size self;
     indexed_pages_count :=
       indexed_pages_count self + List.length operations / 2;
     bulking := bulking self;
     bulk_calls := bulk_calls self ++ [operations] |}.

(** How a coroutine of the pass ends. *)
Inductive ending : Type :=
| Done
| Raised (e : exn)
| Pending.

Definition start_bulking (self : ElasticServer) : ElasticServer :=
  {| _downloads := _downloads self;
     chunk_size := chunk_size self;
     indexed_pages_count := indexed_pages_count self;
     bulking := true;
     bulk_calls := bulk_calls self |}.

(** [_bulk(queue)]: every dispatched [batch_bulk] task runs; the final
    flush and [asyncio.gather] are reached only when the loop breaks. *)
Definition _bulk (self : ElasticServer) (queue : list value)
  : ending * ElasticServer :=
  let self := start_bulking self in
  match bulk_loop (chunk_size self) bulker_init queue with
  | Exited b _ =>
      (Done, fold_left batch_bulk (ops (final_flush b)) self)
  | Blocked b => (Pending, fold_left batch_bulk (ops b) self)
  | Threw e b _ => (Raised e, fold_left batch_bulk (ops b) self)
  end.

(** *** [async_bulk] and its two producer coroutines *)

(** What the producers of one pass read and write: the server, the items
    put on [stream] (oldest first), [seen_ids], the calls
    [lazy_download(doit=False)] awaited so far, and the number of clock
    readings taken. *)
Record pass : Type := {
  self : ElasticServer;
  stream : list value;
  seen_ids : pyset;
  awaited : list call;
  clock : nat
}.

Definition pass_init (server : ElasticServer) : pass :=
  {| self := server; stream := []; seen_ids := []; awaited := []; clock := 0 |}.

(** [await stream.put(item)]; the queue is unbounded. *)
Definition put (item : value) : task pass unit :=
  modify (fun s =>
    {| self := self s;
       stream := stream s ++ [item];
       seen_ids := seen_ids s;
       awaited := awaited s;
       clock := clock s |}).

(** [seen_ids.add(doc_id)] *)
Definition see (doc_id : value) : task pass unit :=
  fun s =>
    match set_add doc_id (seen_ids s) with
    | Raise e => (Raise e, s)
    | Ok seen =>
        (Ok tt,
         {| self := self s;
            stream := stream s;
            seen_ids := seen;
            awaited := awaited s;
            clock := clock s |})
    end.

(** [await lazy_download(doit=False)] *)
Definition await_call (c : call) : task pass unit :=
  fun s =>
    let s' :=
      {| self := self s;
         stream := stream s;
         seen_ids := seen_ids s;
         awaited := awaited s ++ [c];
         clock := clock s |} in
    match dl_run (callee c) (doit c) (timestamp c) with
    | Raise e => (Raise e, s')
    | Ok _ => (Ok tt, s')
    end.

Definition on_server (f : ElasticServer -> ElasticServer) : task pass unit :=
  modify (fun s =>
    {| self := f (self s);
       stream := stream s;
       seen_ids := seen_ids s;
       awaited := awaited s;
       clock := clock s |}).

(** The feed: what [async for doc in generator] receives, the pairs
    yielded and then, for a generator that fails, the exception it raises
    in place of the next pair. *)
Record generator : Type := {
  yields : list (dict * option lazy_download);
  raises : option exn
}.

Definition update_intent (index doc_id : value) (doc : dict) : value :=
  VDict [("_op_type", VStr "update");
         ("_index", index);
         ("_id", doc_id);
         ("doc", VDict doc);
         ("doc_as_upsert", VBool true)].

Definition delete_intent (index doc_id : value) : value :=
  VDict [("_op_type", VStr "delete"); ("_index", index); ("_id", doc_id)].

Section WithClock.

(** [iso_utc()]: the reading of the clock at its n-th call. *)
Variable iso_utc : nat -> string.

Definition now : task pass value :=
  fun s =>
    (Ok (VStr (iso_utc (clock s))),
     {| self := self s;
        stream := stream s;
        seen_ids := seen_ids s;
        awaited := awaited s;
        clock := S (clock s) |}).

(** Lines 169-185 of [get_docs]: schedule the download, put the update. *)
Definition upsert (index doc_id : value) (doc : dict)
    (lazy_download : option lazy_download) : task pass unit :=
  match lazy_download with
  | Some f =>
      on_server
        (_add_download
           (create_task
              {| callee := f;
                 doit := true;
                 timestamp := Some (dict_get_default "timestamp" VNone doc) |}))
  | None => ret tt
  end ;;;
  put (update_intent index doc_id doc).

(** The body of [async for doc in generator]. *)
Definition classify (index : value) (existing_timestamps : vdict)
    (item : dict * option lazy_download) : task pass unit :=
  let '(doc, lazy_download) := item in
  '(doc_id, doc) <- lift (dict_pop "_id" doc) ;;
  let doc := dict_set "id" doc_id doc in
  see doc_id ;;;
  match dict_get "timestamp" doc with
  | Some ts =>
      if py_eq (vdict_get_default doc_id (VStr "") existing_timestamps) ts
      then
        match lazy_download with
        | Some f =>
            await_call {| callee := f; doit := false; timestamp := None |}
        | None => raise (TypeError "'NoneType' object is not callable")
        end
      else upsert index doc_id doc lazy_download
  | None =>
      ts <- now ;;
      upsert index doc_id (dict_set "timestamp" ts doc) lazy_download
  end.

(** The body of [for doc_id in existing_ids]. *)
Definition sweep (index : value) (doc_id : value) : task pass unit :=
  seen <- gets seen_ids ;;
  if set_mem doc_id seen then ret tt
  else put (delete_intent index doc_id).

(** [get_docs], the first producer. *)
Definition get_docs (index : value) (existing_ids : pyset)
    (existing_timestamps : vdict) (gen : generator) : task pass unit :=
  for_each (classify index existing_timestamps) (yields gen) ;;;
  match raises gen with
  | Some e => raise e
  | None => ret tt
  end ;;;
  for_each (sweep index) existing_ids ;;;
  put END_DOCS.

(** [data.pop("_id")] mutates the dict held by the task at [position] of
    [self._downloads]. *)
Fixpoint set_outcome (position : nat) (data : dict) (ds : list download)
  : list download :=
  match ds, position with
  | [], _ => []
  | d :: ds', 0 => {| coro := coro d; outcome := Ok (Some data) |} :: ds'
  | d :: ds', S n => d :: set_outcome n data ds'
  end.

(** The loop [for download in self._downloads], from [position] on. *)
Fixpoint drain (index : value) (position : nat) (pending : list download)
  : task pass unit :=
  match pending with
  | [] => ret tt
  | download :: pending' =>
      data <- lift (outcome download) ;;
      match data with
      | None => drain index (S position) pending'
      | Some data =>
          '(doc_id, data) <- lift (dict_pop "_id" data) ;;
          on_server (fun server =>
            with_downloads
              (set_outcome position data (_downloads server)) server) ;;;
          put (update_intent index doc_id data) ;;;
          drain index (S position) pending'
      end
  end.

(** [get_attachments], the second producer. *)
Definition get_attachments (index : value) : task pass unit :=
  downloads <- gets (fun s => _downloads (self s)) ;;
  drain index 0 downloads ;;;
  put END_DOWNLOADS.

(** The loop over [get_existing_ids(index)] at the start of [async_bulk];
    [es_docs] are the [_source] dicts the scan yields. *)
Fixpoint read_existing (es_docs : list dict) (existing_ids : pyset)
    (existing_timestamps : vdict) : result (pyset * vdict) :=
  match es_docs with
  | [] => Ok (existing_ids, existing_timestamps)
  | es_doc :: rest =>
      and_then (dict_getitem "id" es_doc) (fun id =>
      and_then (set_add id existing_ids) (fun ids =>
      and_then (dict_getitem "timestamp" es_doc) (fun ts =>
      and_then (dict_getitem "id" es_doc) (fun id' =>
      and_then (vdict_set id' ts existing_timestamps) (fun tss =>
      read_existing rest ids tss)))))
  end.

(** What the event loop decides during a pass: how many of the downloads
    scheduled by this pass are in [self._downloads] before the drain
    reaches the end of the list, in which order the puts of the two
    producers reach the queue ([true]: the next put of [get_docs]), and
    in which order the tasks of [ops] end ([finish]: positions in [ops],
    the earliest first; the tasks it leaves out end after those, in the
    order of [ops]). *)
Record schedule : Type := {
  drain_sees : nat;
  order : list bool;
  finish : list nat
}.

Fixpoint interleave (order : list bool) (xs ys : list value) : list value :=
  match order with
  | [] => xs ++ ys
  | true :: order' =>
      match xs with
      | x :: xs' => x :: interleave order' xs' ys
      | [] => ys
      end
  | false :: order' =>
      match ys with
      | y :: ys' => y :: interleave order' xs ys'
      | [] => xs
      end
  end.

Definition ending_of (r : result unit) : ending :=
  match r with
  | Ok _ => Done
  | Raise e => Raised e
  end.

(** The exception of the first task, among those at [positions], that
    raised. *)
Fixpoint first_raised (positions : list nat) (tasks : list ending)
  : option exn :=
  match positions with
  | [] => None
  | p :: rest =>
      match nth_error tasks p with
      | Some (Raised e) => Some e
      | _ => first_raised rest tasks
      end
  end.

Definition is_done (task : ending) : bool :=
  match task with
  | Done => true
  | _ => false
  end.

(** [await asyncio.gather] over the tasks of [ops], which end in the
    order [finish]: the exception of the task that fails first is raised
    to the caller; when no task fails, the caller waits for every
    task. *)
Definition gather (finish : list nat) (tasks : list ending) : ending :=
  match first_raised (finish ++ seq 0 (List.length tasks)) tasks with
  | Some e => Raised e
  | None => if forallb is_done tasks then Done else Pending
  end.

(** How a call of [async_bulk] ends. *)
Inductive pass_end : Type :=
| Returns (res : dict)
| Raises (e : exn)
| NeverReturns.

(** [async_bulk(index, generator)] under a schedule. *)
Definition async_bulk (server : ElasticServer) (index : value)
    (gen : generator) (es_docs : list dict) (sched : schedule)
  : pass_end * ElasticServer :=
  match read_existing es_docs [] [] with
  | Raise e => (Raises e, server)
  | Ok (existing_ids, existing_timestamps) =>
      let '(r1, s1) :=
        get_docs index existing_ids existing_timestamps gen
          (pass_init server) in
      let all := _downloads (self s1) in
      let visible := List.length (_downloads server) + drain_sees sched in
      let '(r2, s2) :=
        get_attachments index
          (pass_init (with_downloads (firstn visible all) (self s1))) in
      let server2 :=
        with_downloads (_downloads (self s2) ++ skipn visible all) (self s2) in
      let queue := interleave (order sched) (stream s1) (stream s2) in
      let '(r3, server3) := _bulk server2 queue in
      match gather (finish sched) [ending_of r1; ending_of r2; r3] with
      | Raised e => (Raises e, server3)
      | Pending => (NeverReturns, server3)
      | Done =>
          let res : dict := [] in
          (Returns res, server3)
      end
  end.

End WithClock.

(** *** Vocabulary of the statements *)

(** The ids read from the existing index: the snapshot set S. *)
Definition snapshot_ids (es_docs : list dict) : list value :=
  flat_map
    (fun es_doc =>
       match dict_get "id" es_doc with Some id => [id] | None => [] end)
    es_docs.

(** The ids of the documents the generator yields: the feed set F. *)
Definition feed_ids (gen : generator) : list value :=
  flat_map
    (fun item : dict * option lazy_download =>
       match dict_get "_id" (fst item) with Some id => [id] | None => [] end)
    (yields gen).

Definition is_marker (item : value) : bool :=
  py_eq item END_DOCS || py_eq item END_DOWNLOADS.

(** The write-intents among queue items. *)
Definition intents (items : list value) : list value :=
  filter (fun item => negb (is_marker item)) items.

(** The two batch entries of an update action. *)
Definition update_header (index doc_id : value) : value :=
  VDict [("update", VDict [("_index", index); ("_id", doc_id)])].

Definition update_body (doc : dict) : value :=
  VDict [("doc", VDict doc); ("doc_as_upsert", VBool true)].

(** Queue items the producers of a pass put, deletes apart. *)
Definition update_or_marker (item : value) : Prop :=
  is_marker item = true \/
  exists index doc_id doc, item = update_intent index doc_id doc.

(** What the drain puts for one download that does not fail. *)
Definition drained_intent (index : value) (d : download) : list value :=
  match outcome d with
  | Ok (Some data) =>
      match dict_get "_id" data with
      | Some doc_id => [update_intent index doc_id (dict_remove "_id" data)]
      | None => []
      end
  | _ => []
  end.

(** The task of a download after the drain popped ["_id"] from its
    result. *)
Definition popped (d : download) : download :=
  {| coro := coro d;
     outcome :=
       match outcome d with
       | Ok (Some data) => Ok (Some (dict_remove "_id" data))
       | o => o
       end |}.

(** An update intent for [index]. *)
Definition is_update (index : value) (item : value) : Prop :=
  exists doc_id doc, item = update_intent index doc_id doc.

(** What a step of a producer may change: it only adds to the queue and
    to the downloads, and leaves the rest of the server alone. *)
Record grows (index : value) (s s' : pass) : Prop := {
  grows_stream :
    exists items, stream s' = stream s ++ items /\ Forall (is_update index) items;
  grows_downloads :
    exists tasks, _downloads (self s') = _downloads (self s) ++ tasks;
  grows_chunk_size : chunk_size (self s') = chunk_size (self s);
  grows_calls : bulk_calls (self s') = bulk_calls (self s);
  grows_count : indexed_pages_count (self s') = indexed_pages_count (self s)
}.

(** A feed item [get_docs] classifies without an exception: a hashable
    ["_id"] and a [lazy_download] whose [doit=False] call returns. *)
Definition classifiable (item : dict * option lazy_download) : Prop :=
  exists doc_id f,
    dict_get "_id" (fst item) = Some doc_id /\
    hashable doc_id = true /\
    snd item = Some f /\
    exists r, dl_run f false None = Ok r.

(** A download the drain gets past: an empty result, or a dict with its
    ["_id"]. *)
Definition drainable (d : download) : Prop :=
  outcome d = Ok None \/
  exists data doc_id,
    outcome d = Ok (Some data) /\ dict_get "_id" data = Some doc_id.

(** A download the drain stops at, with the exception it stops with: the
    exception the task raises when awaited, or [KeyError("_id")] for a
    result dict without ["_id"]. *)
Definition stops_drain (d : download) (e : exn) : Prop :=
  outcome d = Raise e \/
  exists data,
    outcome d = Ok (Some data) /\
    dict_get "_id" data = None /\
    e = KeyError "_id".

End Byoei.

(* ================================================================== *)
(** ** connectors/tests/fake_sources.py *)
(* ================================================================== *)

Module FakeSources.

Import Byoei.

(** [partial(self._dl, doc_id)] *)
Definition _dl (doc_id : string) : lazy_download :=
  {| dl_name := doc_id;
     dl_run := fun doit timestamp =>
       if negb doit then Ok None
       else Ok (Some [("_id", VStr doc_id);
                      ("_timestamp",
                       match timestamp with Some t => t | None => VNone end);
                      ("text", VStr "xx")]) |}.

(** [FakeSource.get_docs], by the [fail] flag of the source. *)
Definition FakeSource (fail : bool) : generator :=
  if fail then
    {| yields := []; raises := Some (Exception "I fail while syncing") |}
  else
    {| yields := [([("_id", VStr "1")], Some (_dl "1"))]; raises := None |}.

End FakeSources.


(* ================================================================== *)
(** ** Concrete inputs *)
(* ================================================================== *)

Module Examples.

Import Byoei FakeSources.

(** Mappings of an index that already has some. *)
Definition existing_mappings : dict :=
  [("dynamic", VBool true);
   ("properties",
    VDict [("title", VDict [("type", VStr "text")]);
           ("body", VStr "x");
           ("meta", VDict [])])].

(** Mappings a connector asks for. *)
Definition new_mappings : dict :=
  [("dynamic", VBool false);
   ("dynamic_templates", VList []);
   ("properties",
    VDict [("title", VDict [("type", VStr "keyword"); ("index", VBool true)]);
           ("body", VDict [("type", VStr "text")]);
           ("meta", VDict [("a", VDict [("b", VStr "c")])]);
           ("id", VDict [("type", VStr "keyword")])])].

(** A server flushing every two actions. *)
Definition small_server : ElasticServer :=
  {| _downloads := [];
     chunk_size := 2;
     indexed_pages_count := 0;
     bulking := false;
     bulk_calls := [] |}.

Definition new_doc (n : string) : value :=
  update_intent (VStr "search-idx") (VStr n) [("id", VStr n)].

(** Five updates, then the two markers. *)
Definition five_updates : list value :=
  [new_doc "1"; new_doc "2"; new_doc "3"; END_DOWNLOADS;
   new_doc "4"; new_doc "5"; END_DOCS].

(** A clock that always reads the same instant. *)
Definition clock_reading (n : nat) : string := "2022-10-31T09:04:35".

Definition index : value := VStr "search-idx".

(** The snapshot of the spec's scenario: id1 and id2, both at "t0". *)
Definition snapshot : list dict :=
  [[("id", VStr "id1"); ("timestamp", VStr "t0")];
   [("id", VStr "id2"); ("timestamp", VStr "t0")]].

(** Its feed: id1 unchanged, id3 new. *)
Definition feed : generator :=
  {| yields :=
       [([("_id", VStr "id1"); ("timestamp", VStr "t0")], Some (_dl "id1"));
        ([("_id", VStr "id3"); ("timestamp", VStr "t1")], Some (_dl "id3"))];
     raises := None |}.

(** A feed that yields one document and then fails. *)
Definition failing_feed : generator :=
  {| yields := [([("_id", VStr "1")], Some (_dl "1"))];
     raises := Some (Exception "I fail while syncing") |}.

(** A download that fails when it is run. *)
Definition broken : lazy_download :=
  {| dl_name := "broken";
     dl_run := fun doit _ =>
       if doit then Raise (Exception "download failed") else Ok None |}.

(** A download with nothing to add. *)
Definition empty : lazy_download :=
  {| dl_name := "empty"; dl_run := fun _ _ => Ok None |}.

Definition scheduled (f : lazy_download) : download :=
  create_task {| callee := f; doit := true; timestamp := Some (VStr "t1") |}.

(** A server with four scheduled downloads, the third one failing. *)
Definition server_with_broken_download : ElasticServer :=
  with_downloads
    [scheduled (_dl "1"); scheduled empty; scheduled broken;
     scheduled (_dl "4")]
    init.

(** The drain sees the download of the pass; the puts of [get_docs] come
    first, and the tasks end in the order of [ops]. *)
Definition plain_schedule : schedule :=
  {| drain_sees := 1; order := []; finish := [] |}.

(** A pass of [FakeSource] on a fresh server and an empty index. *)
Definition fake_pass : pass_end * ElasticServer :=
  async_bulk clock_reading init index (FakeSource false) [] plain_schedule.

(** A second pass on the server the first one leaves. *)
Definition second_fake_pass : pass_end * ElasticServer :=
  async_bulk clock_reading (snd fake_pass) index (FakeSource false) []
    plain_schedule.

(** The drain on a server with one scheduled download, and on the server
    that drain leaves. *)
Definition first_drain : result unit * pass :=
  get_attachments index (pass_init (with_downloads [scheduled (_dl "1")] init)).

Definition second_drain : result unit * pass :=
  get_attachments index (pass_init (self (snd first_drain))).

(** [get_docs] on the failing feed, and the drain on the server with the
    broken download. *)
Definition failing_get_docs : result unit * pass :=
  get_docs clock_reading index [] [] failing_feed (pass_init init).

Definition failing_drain : result unit * pass :=
  get_attachments index (pass_init server_with_broken_download).

End Examples.

(* ================================================================== *)
(** ** connectors/byoei.py: the rest of [ElasticServer] *)
(* ================================================================== *)

Module ByoeiMore.

Import Byoei.

(** The two entries [_bulk] appends to [batch] for a queue item (lines
    112-118): the action metadata, then the body. *)
Definition action_entries (doc : value) : result (list value) :=
  and_then (getitem doc "_op_type") (fun op =>
  and_then (getitem doc "_index") (fun index =>
  and_then (getitem doc "_id") (fun id =>
  and_then (as_key op) (fun name =>
  and_then (getitem doc "doc") (fun body =>
  Ok [VDict [(name, VDict [("_index", index); ("_id", id)])];
      if py_eq op (VStr "update")
      then VDict [("doc", body); ("doc_as_upsert", VBool true)]
      else VDict [("doc", body)]]))))).

Definition entries_of (doc : value) : list value :=
  match action_entries doc with
  | Ok entries => entries
  | Raise _ => []
  end.

(** Number of actions [batch_bulk] counts for its calls. *)
Definition pages (calls : list (list value)) : nat :=
  fold_right (fun c n => List.length c / 2 + n) 0 calls.

(** A document as it must reach the index: its id under "id", no "_id"
    left, and a "timestamp". *)
Definition indexable (doc_id : value) (doc : dict) : Prop :=
  dict_get "id" doc = Some doc_id /\
  dict_get "_id" doc = None /\
  dict_get "timestamp" doc <> None.

(** An update intent carrying such a document. *)
Definition proper_update (index item : value) : Prop :=
  exists doc_id doc,
    item = update_intent index doc_id doc /\ indexable doc_id doc.

(** A feed item whose timestamp is the one the snapshot holds for its id,
    and whose [lazy_download(doit=False)] returns. *)
Definition unchanged (existing_timestamps : vdict)
    (item : dict * option lazy_download) : Prop :=
  exists doc_id ts ts' f r,
    dict_get "_id" (fst item) = Some doc_id /\
    hashable doc_id = true /\
    dict_get "timestamp" (fst item) = Some ts /\
    vdict_get doc_id existing_timestamps = Some ts' /\
    py_eq ts' ts = true /\
    snd item = Some f /\
    dl_run f false None = Ok r.

(** A feed item [get_docs] classifies without an exception and whose
    download, once scheduled, gives the drain a result it gets past. *)
Definition well_behaved (item : dict * option lazy_download) : Prop :=
  classifiable item /\
  forall f ts,
    snd item = Some f ->
    drainable
      (create_task {| callee := f; doit := true; timestamp := Some ts |}).

(** The timestamp of the last scanned record whose id is [doc_id]. *)
Fixpoint last_timestamp (doc_id : value) (es_docs : list dict) : option value :=
  match es_docs with
  | [] => None
  | es_doc :: rest =>
      match last_timestamp doc_id rest with
      | Some ts => Some ts
      | None =>
          match dict_get "id" es_doc with
          | Some id =>
              if py_eq doc_id id then dict_get "timestamp" es_doc else None
          | None => None
          end
      end
  end.

(** *** [prepare_index] *)

(** The calls [prepare_index] makes on the Elasticsearch client. *)
Inductive client_call : Type :=
| indices_exists (index : string)
| indices_delete (index : string)
| indices_create (index : string)
| index_document (index : string) (id : nat) (document : value).

(** The loop [for doc in docs] with its counter [doc_id]. *)
Fixpoint index_docs (index : string) (doc_id : nat) (docs : list value)
  : list client_call :=
  match docs with
  | [] => []
  | doc :: rest =>
      index_document index doc_id doc :: index_docs index (S doc_id) rest
  end.

(** [prepare_index(index, docs, mapping, delete_first)], as the calls it
    makes when [indices.exists] answers [exists_]; [docs] is [None] when
    the argument is left out.  The [mapping] argument is never read. *)
Definition prepare_index (exists_ : bool) (index : string)
    (docs : option (list value)) (mapping : option value)
    (delete_first : bool) : list client_call :=
  indices_exists index ::
  if exists_ && negb delete_first then []
  else
    (if exists_ then [indices_delete index] else []) ++
    indices_create index ::
    match docs with
    | None => []
    | Some docs => index_docs index 1 docs
    end.

(** The [index_document] calls of a trace. *)
Definition indexed (calls : list client_call) : list (nat * value) :=
  flat_map
    (fun c =>
       match c with
       | index_document _ id document => [(id, document)]
       | _ => []
       end)
    calls.

End ByoeiMore.

(* ================================================================== *)
(** ** connectors/es/management_client.py: [ESManagementClient] *)
(* ================================================================== *)

Module ManagementClientMore.

Import ManagementClient Byoei.

(** Errors of the calls to Elasticsearch, as far as the [except] clauses
    of the module tell them apart; in the client library
    [NotFoundError] is an [ApiError].  A call made through
    [execute_with_retry] ends with the answer or the error the retrier
    ends with. *)
Inductive es_error : Type :=
| NotFoundError
| OtherApiError (status : nat)
| OtherError (msg : string).

(** [isinstance(e, ApiError)] *)
Definition is_api_error (e : es_error) : bool :=
  match e with
  | NotFoundError | OtherApiError _ => true
  | OtherError _ => false
  end.

(** What a method of the client can raise. *)
Inductive error : Type :=
| PyError (e : exn)
| AttributeError (msg : string)
| EsError (e : es_error).

Inductive outcome (A : Type) : Type :=
| Gives (a : A)
| Throws (e : error).
Arguments Gives {A} a.
Arguments Throws {A} e.

Definition then_ {A B} (r : outcome A) (k : A -> outcome B) : outcome B :=
  match r with
  | Gives a => k a
  | Throws e => Throws e
  end.

(** [v[k]] *)
Definition lookup (v : value) (k : string) : outcome value :=
  match getitem v k with
  | Ok w => Gives w
  | Raise e => Throws (PyError e)
  end.

(** [v.get(k, default)] *)
Definition mapping_get (v : value) (k : string) (default : value)
  : outcome value :=
  match v with
  | VDict d => Gives (dict_get_default k default d)
  | _ => Throws (AttributeError "object has no attribute 'get'")
  end.

(** [v.items()] *)
Definition items (v : value) : outcome (list (string * value)) :=
  match v with
  | VDict d => Gives d
  | _ => Throws (AttributeError "object has no attribute 'items'")
  end.

(** [k in s] for strings: [k] occurs in [s]. *)
Fixpoint occurs_in (k s : string) : bool :=
  String.prefix k s ||
  match s with
  | EmptyString => false
  | String _ s' => occurs_in k s'
  end.

(** [k in v] *)
Definition contains (k : string) (v : value) : outcome bool :=
  match v with
  | VDict d => Gives (dict_mem k d)
  | VList l => Gives (existsb (py_eq (VStr k)) l)
  | VStr s => Gives (occurs_in k s)
  | VNone | VBool _ => Throws (PyError (TypeError "argument is not iterable"))
  end.

(** *** [ensure_content_index_settings] *)

(** The requests the method sends. *)
Inductive request : Type :=
| indices_close (index : string)
| indices_put_settings (index : string) (body : value)
| indices_open (index : string)
| perform_request (method path : string) (body : value)
    (headers : list (string * string)).

(** Requests sent one after the other inside a [try]: the first one that
    fails is the last one sent. *)
Fixpoint send (fails : request -> bool) (requests : list request)
  : list request :=
  match requests with
  | [] => []
  | r :: rest => r :: if fails r then [] else send fails rest
  end.

Definition json_headers : list (string * string) :=
  [("accept", "application/json"); ("content-type", "application/json")].

(** ["analysis" not in existing_settings.get("index", {})], negated. *)
Definition has_analysis (index : value) : outcome bool :=
  then_ (mapping_get index "settings" (VDict [])) (fun existing_settings =>
  then_ (mapping_get existing_settings "index" (VDict [])) (fun index_settings =>
  contains "analysis" index_settings)).

(** [ensure_content_index_settings(index_name, index, language_code)], as
    the requests it sends; [settings] is the hash of
    [Settings(language_code, analysis_icu=False)], from a module that is
    not modelled, and [fails] tells which requests raise.  Every
    exception of a request is caught and logged. *)
Definition ensure_content_index_settings (serverless : bool)
    (settings : value) (fails : request -> bool)
    (index_name : string) (index : value) : outcome (list request) :=
  then_ (has_analysis index) (fun present =>
  if negb present then
    Gives
      (send fails
         (if serverless then
            [perform_request "PUT"
               ("/" ++ index_name ++ "/_settings?reopen=true")
               settings json_headers]
          else
            [indices_close index_name;
             indices_put_settings index_name settings;
             indices_open index_name]))
  else Gives []).

(** *** [list_indices] and [list_indices_serverless] *)

(** The loop of [list_indices] over [response["indices"].items()]. *)
Fixpoint collect_counts (entries : list (string * value)) (indices : dict)
  : outcome dict :=
  match entries with
  | [] => Gives indices
  | (name, stats) :: rest =>
      then_ (lookup stats "primaries") (fun primaries =>
      then_ (lookup primaries "docs") (fun docs =>
      then_ (lookup docs "count") (fun count =>
      collect_counts rest
        (dict_set name (VDict [("docs_count", count)]) indices))))
  end.

(** [list_indices], from the answer of [indices.stats]. *)
Definition list_indices (response : outcome value) : outcome dict :=
  then_ response (fun response =>
  then_ (lookup response "indices") (fun indices =>
  then_ (items indices) (fun entries =>
  collect_counts entries []))).

(** The loop of [list_indices_serverless] over [response.items()]. *)
Definition collect_names (entries : list (string * value)) : dict :=
  fold_left (fun indices entry => dict_set (fst entry) (VDict []) indices)
    entries [].

(** [list_indices_serverless], from the answer of [indices.get]: an
    [ApiError] is logged and the dict built so far, empty, is returned. *)
Definition list_indices_serverless (response : outcome value) : outcome dict :=
  match response with
  | Gives response =>
      then_ (items response) (fun entries => Gives (collect_names entries))
  | Throws (EsError e) =>
      if is_api_error e then Gives [] else Throws (EsError e)
  | Throws e => Throws e
  end.

(** *** [yield_existing_documents_metadata] *)

Section WithTimestampField.

(** [TIMESTAMP_FIELD], a constant of connectors/es/settings.py. *)
Variable TIMESTAMP_FIELD : string.

(** One hit of the scan: the pair the generator yields for it. *)
Definition metadata (doc : value) : outcome (value * value) :=
  then_ (lookup doc "_source") (fun source =>
  match source with
  | VDict _ =>
      then_ (lookup doc "_id") (fun hit_id =>
      then_ (mapping_get source "id" hit_id) (fun doc_id =>
      then_ (mapping_get source TIMESTAMP_FIELD VNone) (fun timestamp =>
      Gives (doc_id, timestamp))))
  | _ => Throws (AttributeError "object has no attribute 'get'")
  end).

(** The pairs yielded for the hits, and the error that ends the
    generator if one does. *)
Fixpoint scan (hits : list value) : list (value * value) * option error :=
  match hits with
  | [] => ([], None)
  | doc :: rest =>
      match metadata doc with
      | Throws e => ([], Some e)
      | Gives yielded =>
          let '(pairs, e) := scan rest in (yielded :: pairs, e)
      end
  end.

(** [yield_existing_documents_metadata(index)], from the answer of
    [index_exists] and the hits of the scan. *)
Definition yield_existing_documents_metadata (index_exists : bool)
    (hits : list value) : list (value * value) * option error :=
  if negb index_exists then ([], None) else scan hits.

End WithTimestampField.

(** A hit as the scan answers it: a dict with its "_id" and a "_source"
    dict. *)
Definition is_hit (doc : value) (source : dict) (hit_id : value) : Prop :=
  exists h,
    doc = VDict h /\
    dict_get "_source" h = Some (VDict source) /\
    dict_get "_id" h = Some hit_id.

(** The keys [list_indices] reads in the statistics of an index. *)
Definition docs_count_path : list string := ["primaries"; "docs"; "count"].

(** An index description without analysis settings: no "settings", no
    "index" in them, or no "analysis" in these. *)
Definition lacks_analysis (index : dict) : Prop :=
  dict_get "settings" index = None \/
  (exists settings,
     dict_get "settings" index = Some (VDict settings) /\
     (dict_get "index" settings = None \/
      exists index_settings,
        dict_get "index" settings = Some (VDict index_settings) /\
        dict_get "analysis" index_settings = None)).

End ManagementClientMore.

(* ================================================================== *)
(** ** connectors/agent/config.py: [ConnectorsAgentConfigurationWrapper] *)
(* ================================================================== *)

Module AgentConfig.

Import ManagementClient.

(** [d.update(other)]: the items of [other] are stored one by one. *)
Definition dict_update (d other : dict) : dict :=
  fold_left (fun d entry => dict_set (fst entry) (snd entry) d) other d.

(** A dict display [{k1: v1, k2: v2, ...}]: the items are stored from
    left to right, so a key written twice keeps its first position and
    its last value. *)
Definition dict_display (entries : list (string * value)) : dict :=
  dict_update [] entries.

Record ConnectorsAgentConfigurationWrapper : Type := {
  _default_config : dict;
  specific_config : dict
}.

Definition native_service_types : list string :=
  ["azure_blob_storage"; "box"; "confluence"; "dropbox"; "github"; "gmail";
   "google_cloud_storage"; "google_drive"; "jira"; "mongodb"; "mssql";
   "mysql"; "notion"; "onedrive"; "oracle"; "outlook"; "network_drive";
   "postgresql"; "s3"; "salesforce"; "servicenow"; "sharepoint_online";
   "slack"; "microsoft_teams"; "zoom"].

(** [__init__]: the display of [_default_config] writes the key
    "service" twice. *)
Definition init : ConnectorsAgentConfigurationWrapper :=
  {| _default_config :=
       dict_display
         [("service", VDict [("log_level", VStr "INFO")]);
          ("_force_allow_native", VBool true);
          ("service", VDict [("_use_native_connector_api_keys", VBool false)]);
          ("native_service_types", VList (map VStr native_service_types))];
     specific_config := [] |}.

Section WithUtils.

(** [nested_get_from_dict] of connectors/utils.py, which is not part of
    the modelled sources. *)
Variable nested_get_from_dict : dict -> list string -> result value.

(** [config_changed(new_config)] *)
Definition config_changed (self : ConnectorsAgentConfigurationWrapper)
    (new_config : dict) : result bool :=
  let current_config :=
    dict_update (_default_config self) (specific_config self) in
  and_then (dict_getitem "service" current_config) (fun service =>
  and_then (Byoei.getitem service "log_level") (fun log_level =>
  and_then (nested_get_from_dict new_config ["service"; "log_level"])
    (fun new_log_level =>
  if negb (py_eq log_level new_log_level) then Ok true
  else
    and_then (dict_getitem "elasticsearch" current_config) (fun elasticsearch =>
    if negb
         (py_eq elasticsearch (dict_get_default "elasticsearch" VNone new_config))
    then Ok true
    else Ok false)))).

(** Lines 86-112 of [try_update]: the configuration assumed from a
    check-in, given [unit.log_level] and the credentials read from the
    unit, if it has hosts and credentials. *)
Definition assumed_configuration (log_level : value) (es_creds : option dict)
  : dict :=
  let assumed := dict_set "service" (VDict []) [] in
  let assumed := dict_set "service" (VDict [("log_level", log_level)]) assumed in
  match es_creds with
  | Some creds => dict_set "elasticsearch" (VDict creds) assumed
  | None => assumed
  end.

(** [try_update(unit)], from what it reads in the unit: the answer and
    the wrapper after the call. *)
Definition try_update (self : ConnectorsAgentConfigurationWrapper)
    (log_level : value) (es_creds : option dict)
  : result bool * ConnectorsAgentConfigurationWrapper :=
  let assumed := assumed_configuration log_level es_creds in
  match config_changed self assumed with
  | Raise e => (Raise e, self)
  | Ok true =>
      (Ok true,
       {| _default_config := _default_config self;
          specific_config := dict_update (specific_config self) assumed |})
  | Ok false => (Ok false, self)
  end.

End WithUtils.

(** A stand-in for [nested_get_from_dict] in the examples: the value at
    the path, [None] when the path leads nowhere. *)
Definition example_nested_get (d : dict) (path : list string) : result value :=
  match get_path (VDict d) path with
  | Some v => Ok v
  | None => Ok VNone
  end.

(** A wrapper that holds a log level and credentials. *)
Definition configured : ConnectorsAgentConfigurationWrapper :=
  {| _default_config := _default_config init;
     specific_config :=
       [("service", VDict [("log_level", VStr "INFO")]);
        ("elasticsearch",
         VDict [("host", VStr "http://localhost:9200");
                ("api_key", VStr "secret")])] |}.

End AgentConfig.

(* ================================================================== *)
(** ** More concrete inputs *)
(* ================================================================== *)

Module MoreExamples.

Import Byoei ByoeiMore FakeSources.

(** The timestamps of the snapshot of [Examples.snapshot]. *)
Definition snapshot_ids : pyset := [VStr "id1"; VStr "id2"].

Definition snapshot_timestamps : vdict :=
  [(VStr "id1", VStr "t0"); (VStr "id2", VStr "t0")].

(** A feed that yields id1 and id2 as the snapshot has them. *)
Definition same_feed : generator :=
  {| yields :=
       [([("_id", VStr "id1"); ("timestamp", VStr "t0")], Some (_dl "id1"));
        ([("_id", VStr "id2"); ("timestamp", VStr "t0")], Some (_dl "id2"))];
     raises := None |}.

(** A new document with an empty timestamp. *)
Definition blank_document : dict :=
  [("_id", VStr "id9"); ("timestamp", VStr ""); ("title", VStr "new")].

(** A feed whose second document has no "_id". *)
Definition nameless_feed : generator :=
  {| yields :=
       [([("_id", VStr "1")], Some (_dl "1"));
        ([("title", VStr "no id")], None);
        ([("_id", VStr "3")], Some (_dl "3"))];
     raises := None |}.

(** A snapshot scan in which id1 comes twice, and one whose second record
    has no timestamp. *)
Definition rescanned : list dict :=
  [[("id", VStr "id1"); ("timestamp", VStr "t0")];
   [("id", VStr "id2"); ("timestamp", VStr "t0")];
   [("id", VStr "id1"); ("timestamp", VStr "t1")]].

Definition unstamped_scan : list dict :=
  [[("id", VStr "id1"); ("timestamp", VStr "t0")];
   [("id", VStr "id2")]].

(** An answer of [indices.stats] for two indices. *)
Definition stats_indices : dict :=
  [("search-a",
    VDict [("primaries", VDict [("docs", VDict [("count", VStr "12")])])]);
   ("search-b",
    VDict [("primaries", VDict [("docs", VDict [("count", VStr "0")])])])].

Definition stats_answer : dict := [("indices", VDict stats_indices)].

(** Two hits of a scan: the source of the second has neither "id" nor
    timestamp. *)
Definition hits : list value :=
  [VDict [("_id", VStr "a");
          ("_source", VDict [("id", VStr "1"); ("_timestamp", VStr "t0")])];
   VDict [("_id", VStr "b"); ("_source", VDict [])]].

End MoreExamples.

(* ================================================================== *)
(** ** Facts about the Python fragment *)
(* ================================================================== *)

Module PyFacts.

Lemma py_eq_hashable (a b : value) :
  hashable a = true -> py_eq a b = true -> a = b.
Proof.
  destruct a as [ | x | x | xs | d ]; simpl; try discriminate; intros _;
    destruct b as [ | y | y | ys | d' ]; simpl; try discriminate.
  - reflexivity.
  - intros H. apply Bool.eqb_prop in H. now subst.
  - intros H. apply String.eqb_eq in H. now subst.
Qed.

Lemma py_eq_refl_hashable (a : value) :
  hashable a = true -> py_eq a a = true.
Proof.
  destruct a as [ | x | x | xs | d ]; simpl; try discriminate; intros _.
  - reflexivity.
  - apply Bool.eqb_reflx.
  - apply String.eqb_refl.
Qed.

(** Comparing with a string literal. *)
Lemma py_eq_str (v : value) (s : string) :
  py_eq v (VStr s) = true <-> v = VStr s.
Proof.
  destruct v as [ | x | x | xs | d ]; simpl; split; try discriminate.
  - intros H. apply String.eqb_eq in H. now subst.
  - intros H. inversion H. apply String.eqb_refl.
Qed.

Lemma py_eq_dict_str (d : dict) (s : string) : py_eq (VDict d) (VStr s) = false.
Proof. reflexivity. Qed.

Lemma set_mem_In (x : value) (s : pyset) :
  hashable x = true -> (set_mem x s = true <-> In x s).
Proof.
  intros Hx. unfold set_mem. rewrite existsb_exists. split.
  - intros (y & Hy & Heq). apply py_eq_hashable in Heq; congruence.
  - intros Hin. exists x. split; [assumption | now apply py_eq_refl_hashable].
Qed.

Lemma is_set_nil : is_set [].
Proof. split; constructor. Qed.

Lemma set_add_spec (x : value) (s s' : pyset) :
  is_set s -> set_add x s = Ok s' ->
  is_set s' /\ hashable x = true /\ forall y, In y s' <-> In y s \/ y = x.
Proof.
  intros [Hnd Hh]. unfold set_add.
  destruct (hashable x) eqn:Hx; [ | discriminate ].
  destruct (set_mem x s) eqn:Hm; intros [= <-].
  - apply set_mem_In in Hm; [ | assumption ].
    repeat split; try assumption.
    + tauto.
    + intros [H | ->]; assumption.
  - assert (~ In x s) as Hnin.
    { intros Hin. apply (set_mem_In x s Hx) in Hin. congruence. }
    repeat split.
    + apply NoDup_app; [assumption | repeat constructor; simpl; tauto | ].
      intros y Hy [<- | []]. contradiction.
    + apply Forall_app. split; [assumption | repeat constructor; assumption].
    + intros Hy. apply in_app_or in Hy. simpl in Hy. intuition congruence.
    + intros [Hy | ->]; apply in_or_app; simpl; auto.
Qed.

Lemma dict_get_remove_eq (k : string) (d : dict) :
  dict_get k (dict_remove k d) = None.
Proof.
  induction d as [ | [k' v] d IH ]; simpl; [reflexivity | ].
  destruct (String.eqb k k') eqn:E; [assumption | ].
  simpl. now rewrite E.
Qed.

Lemma dict_get_remove_ne (k k' : string) (d : dict) :
  k <> k' -> dict_get k (dict_remove k' d) = dict_get k d.
Proof.
  intros Hne. induction d as [ | [k0 v] d IH ]; simpl; [reflexivity | ].
  destruct (String.eqb k' k0) eqn:E.
  - apply String.eqb_eq in E. subst k0.
    destruct (String.eqb k k') eqn:E'; [ | assumption ].
    apply String.eqb_eq in E'. contradiction.
  - simpl. now rewrite IH.
Qed.

Lemma dict_get_set_eq (k : string) (v : value) (d : dict) :
  dict_get k (dict_set k v d) = Some v.
Proof.
  induction d as [ | [k' v'] d IH ]; simpl.
  - now rewrite String.eqb_refl.
  - destruct (String.eqb k k') eqn:E; simpl; now rewrite E.
Qed.

Lemma dict_get_set_ne (k k' : string) (v : value) (d : dict) :
  k <> k' -> dict_get k (dict_set k' v d) = dict_get k d.
Proof.
  intros Hne. induction d as [ | [k0 v0] d IH ]; simpl.
  - destruct (String.eqb k k') eqn:E; [ | reflexivity ].
    apply String.eqb_eq in E. contradiction.
  - destruct (String.eqb k' k0) eqn:E; simpl.
    + apply String.eqb_eq in E. subst k0.
      apply String.eqb_neq in Hne. now rewrite Hne.
    + now rewrite IH.
Qed.

End PyFacts.

(* ================================================================== *)
(** ** The mapping merge of [ensure_content_index_mappings] *)
(* ================================================================== *)

Module ManagementClientFacts.

Import ManagementClient.

Lemma dict_get_In_keys (k : string) (d : dict) (v : value) :
  dict_get k d = Some v -> In k (keys d).
Proof.
  induction d as [ | [k' w] d IH ]; simpl; [discriminate | ].
  destruct (String.eqb k k') eqn:E.
  - apply String.eqb_eq in E. auto.
  - auto.
Qed.

Lemma In_keys_dict_get (k : string) (d : dict) :
  In k (keys d) -> exists v, dict_get k d = Some v.
Proof.
  induction d as [ | [k' w] d IH ]; simpl; [tauto | ].
  intros [-> | Hin].
  - rewrite String.eqb_refl. eauto.
  - destruct (String.eqb k k'); eauto.
Qed.

Lemma dict_get_None_keys (k : string) (d : dict) :
  dict_get k d = None -> ~ In k (keys d).
Proof.
  intros Hnone Hin. apply In_keys_dict_get in Hin as [v Hv]. congruence.
Qed.

Lemma dict_get_NoDup (k : string) (v : value) (d : dict) :
  NoDup (keys d) -> In (k, v) d -> dict_get k d = Some v.
Proof.
  induction d as [ | [k' w] d IH ]; simpl; [tauto | ].
  intros Hnd [Heq | Hin].
  - inversion Heq; subst. now rewrite String.eqb_refl.
  - inversion Hnd as [ | ? ? Hnin Hnd' ]; subst.
    destruct (String.eqb k k') eqn:E.
    + apply String.eqb_eq in E. subst k'.
      exfalso. apply Hnin. change k with (fst (k, v)). now apply in_map.
    + auto.
Qed.

(** *** Keys of a chain *)

Lemma existsb_eqb_In (k : string) (d : list string) :
  existsb (String.eqb k) d = true <-> In k d.
Proof.
  rewrite existsb_exists. split.
  - intros (x & Hx & E). apply String.eqb_eq in E. now subst.
  - intros Hin. exists k. split; [assumption | apply String.eqb_refl].
Qed.

Lemma update_keys_In (ks d : list string) (k : string) :
  In k (update_keys d ks) <-> In k d \/ In k ks.
Proof.
  revert d. induction ks as [ | k0 ks IH ]; intros d; simpl; [tauto | ].
  rewrite IH. destruct (existsb (String.eqb k0) d) eqn:E.
  - apply existsb_eqb_In in E. intuition (subst; auto).
  - rewrite in_app_iff. simpl. intuition (subst; auto).
Qed.

Lemma update_keys_fresh (ks d : list string) :
  NoDup (d ++ ks) -> update_keys d ks = d ++ ks.
Proof.
  revert d. induction ks as [ | k0 ks IH ]; intros d Hnd; simpl.
  - now rewrite app_nil_r.
  - destruct (existsb (String.eqb k0) d) eqn:E.
    + apply existsb_eqb_In in E. apply NoDup_remove_2 in Hnd.
      exfalso. apply Hnd. apply in_or_app. auto.
    + rewrite IH; rewrite <- app_assoc; simpl; [reflexivity | assumption].
Qed.

Lemma chain_iter_In (maps : list dict) (k : string) :
  In k (chain_iter maps) <-> exists m, In m maps /\ In k (keys m).
Proof.
  unfold chain_iter.
  assert (forall l d, In k (fold_left (fun d m => update_keys d (keys m)) l d)
                      <-> In k d \/ exists m, In m l /\ In k (keys m)) as H.
  { induction l as [ | m l IH ]; intros d; simpl.
    - split; [auto | intros [H | (m & [] & _)]; assumption].
    - rewrite IH, update_keys_In. split.
      + intros [[H | H] | (m' & H1 & H2)]; eauto.
      + intros [H | (m' & [<- | H1] & H2)]; eauto. }
  rewrite H. simpl. split.
  - intros [[] | (m & Hm & Hk)]. exists m. split; [ | assumption ].
    now apply in_rev.
  - intros (m & Hm & Hk). right. exists m. split; [ | assumption ].
    now apply in_rev in Hm.
Qed.

Lemma chain_iter_single (m : dict) :
  NoDup (keys m) -> chain_iter [m] = keys m.
Proof.
  intros Hnd. unfold chain_iter. simpl. now apply update_keys_fresh.
Qed.

(** *** The comprehension *)

Lemma comprehension_get entry ks d :
  comprehension entry ks = Some (Ok d) ->
  forall k, In k ks ->
    exists v, entry k = Some (Ok v) /\ dict_get k d = Some v.
Proof.
  revert d. induction ks as [ | k0 ks IH ]; intros d; simpl; [tauto | ].
  destruct (entry k0) as [ [v0 | e] | ] eqn:E0; try discriminate.
  destruct (comprehension entry ks) as [ [d0 | e] | ]; try discriminate.
  intros [= <-] k [<- | Hin].
  - exists v0. simpl. now rewrite String.eqb_refl.
  - simpl. destruct (String.eqb k k0) eqn:E.
    + apply String.eqb_eq in E. subst k0. eauto.
    + eauto.
Qed.

Lemma comprehension_keys entry ks d :
  comprehension entry ks = Some (Ok d) -> keys d = ks.
Proof.
  revert d. induction ks as [ | k0 ks IH ]; intros d; simpl.
  - now intros [= <-].
  - destruct (entry k0) as [ [v0 | e] | ]; try discriminate.
    destruct (comprehension entry ks) as [ [d0 | e] | ]; try discriminate.
    intros [= <-]. simpl. f_equal. now apply IH.
Qed.

Lemma comprehension_total entry ks :
  (forall k, In k ks -> exists v, entry k = Some (Ok v)) ->
  exists d, comprehension entry ks = Some (Ok d).
Proof.
  induction ks as [ | k0 ks IH ]; intros H; simpl; [eauto | ].
  destruct (H k0) as [v0 ->]; [now left | ].
  destruct IH as [d ->]; [intros; apply H; now right | ].
  eauto.
Qed.

Lemma comprehension_copy entry (d d' : dict) :
  comprehension entry (keys d) = Some (Ok d') ->
  (forall k v v', In (k, v) d -> entry k = Some (Ok v') -> v' = v) ->
  d' = d.
Proof.
  revert d'. induction d as [ | [k v] d IH ]; intros d'; simpl.
  - now intros [= <-].
  - destruct (entry k) as [ [v0 | e] | ] eqn:E0; try discriminate.
    destruct (comprehension entry (keys d)) as [ [d0 | e] | ] eqn:E1;
      try discriminate.
    intros [= <-] H. f_equal.
    + f_equal. apply (H k v v0); auto.
    + apply IH; [reflexivity | ]. intros; eapply H; eauto.
Qed.

(** *** Lookups through the chain *)

Lemma chain_getitem_first (m : dict) (ms : list dict) (k : string) (v : value) :
  dict_get k m = Some v -> chain_getitem (m :: ms) k = Ok v.
Proof. intros H. simpl. now rewrite H. Qed.

Lemma chain_getitem_total (maps : list dict) (k : string) :
  In k (chain_iter maps) -> exists v, chain_getitem maps k = Ok v.
Proof.
  rewrite chain_iter_In. intros (m & Hm & Hk).
  induction maps as [ | m0 maps IH ]; simpl in *; [contradiction | ].
  destruct (dict_get k m0) as [v | ] eqn:E; [eauto | ].
  destruct Hm as [-> | Hm]; [ | auto ].
  apply In_keys_dict_get in Hk as [v Hv]. congruence.
Qed.

Lemma to_dict_fuel_S (fuel : nat) (maps : list dict) :
  to_dict_fuel (S fuel) maps =
  comprehension
    (fun k =>
       match deep_getitem maps k with
       | Raise e => Some (Raise e)
       | Ok (Plain v) => Some (Ok v)
       | Ok (View vs) =>
           match to_dict_fuel fuel vs with
           | None => None
           | Some (Raise e) => Some (Raise e)
           | Some (Ok d) => Some (Ok (VDict d))
           end
       end)
    (chain_iter maps).
Proof. reflexivity. Qed.

(** Case analysis on the recursive call an entry hypothesis mentions. *)
Ltac case_to_dict H :=
  match type of H with
  | context [to_dict_fuel ?f ?l] =>
      let d := fresh "d'" in
      let e := fresh "e" in
      let E := fresh "Hrec" in
      destruct (to_dict_fuel f l) as [ [d | e] | ] eqn:E; try discriminate H
  end.

(** What the merged dict holds under a key of the first mapping. *)
Lemma to_dict_first (fuel : nat) (m : dict) (ms : list dict) (desired : dict)
    (k : string) (w : value) :
  to_dict_fuel (S fuel) (m :: ms) = Some (Ok desired) ->
  dict_get k m = Some w ->
  match w with
  | VDict dw =>
      exists d', to_dict_fuel fuel (dw :: deep_values ms k) = Some (Ok d') /\
                 dict_get k desired = Some (VDict d')
  | _ => dict_get k desired = Some w
  end.
Proof.
  rewrite to_dict_fuel_S. intros Hc Hk.
  assert (In k (chain_iter (m :: ms))) as Hin.
  { apply chain_iter_In. exists m. split; [now left | ].
    eapply dict_get_In_keys; eassumption. }
  destruct (comprehension_get _ _ _ Hc k Hin) as (x & Hx & Hget).
  unfold deep_getitem in Hx. rewrite (chain_getitem_first _ _ _ _ Hk) in Hx.
  destruct w as [ | b | s | l | dw ]; try (inversion Hx; subst; assumption).
  simpl in Hx. rewrite Hk in Hx.
  case_to_dict Hx. inversion Hx; subst. eauto.
Qed.

(** What the merged dict of two mappings holds under a key that only the
    second has. *)
Lemma to_dict_second (fuel : nat) (m n desired : dict) (k : string) (w : value) :
  to_dict_fuel (S fuel) [m; n] = Some (Ok desired) ->
  dict_get k m = None ->
  dict_get k n = Some w ->
  match w with
  | VDict dw =>
      exists d', to_dict_fuel fuel [dw] = Some (Ok d') /\
                 dict_get k desired = Some (VDict d')
  | _ => dict_get k desired = Some w
  end.
Proof.
  rewrite to_dict_fuel_S. intros Hc Hm Hn.
  assert (In k (chain_iter [m; n])) as Hin.
  { apply chain_iter_In. exists n. split; [simpl; auto | ].
    eapply dict_get_In_keys; eassumption. }
  destruct (comprehension_get _ _ _ Hc k Hin) as (x & Hx & Hget).
  unfold deep_getitem in Hx. simpl in Hx. rewrite Hm, Hn in Hx.
  destruct w as [ | b | s | l | dw ]; try (inversion Hx; subst; assumption).
  case_to_dict Hx. inversion Hx; subst. eauto.
Qed.

(** *** Well-formed dicts and nesting depth *)

Lemma well_formed_dict (d : dict) :
  well_formed (VDict d) <->
  NoDup (keys d) /\ Forall (fun kv => well_formed (snd kv)) d.
Proof.
  simpl. apply and_iff_compat_l.
  induction d as [ | [k v] d IH ]; simpl.
  - split; [constructor | trivial].
  - rewrite IH. split.
    + intros [Hv Hd]. now constructor.
    + intros H. inversion H; subst. auto.
Qed.

Lemma well_formed_get (k : string) (d : dict) (v : value) :
  well_formed (VDict d) -> dict_get k d = Some v -> well_formed v.
Proof.
  rewrite well_formed_dict. intros [_ Hall].
  induction d as [ | [k' w] d IH ]; simpl; [discriminate | ].
  inversion Hall; subst.
  destruct (String.eqb k k'); [intros [= <-]; assumption | auto].
Qed.

Lemma depth_dict (d : dict) :
  depth (VDict d) = S (fold_right (fun kv n => Nat.max (depth (snd kv)) n) 0 d).
Proof.
  simpl. f_equal. induction d as [ | [k v] d IH ]; simpl; congruence.
Qed.

Lemma depth_get (k : string) (d : dict) (v : value) :
  dict_get k d = Some v -> depth v < depth (VDict d).
Proof.
  rewrite depth_dict.
  induction d as [ | [k' w] d IH ]; simpl; [discriminate | ].
  destruct (String.eqb k k').
  - intros [= <-]. lia.
  - intros H. specialize (IH H). lia.
Qed.

Lemma chain_depth_cons (m : dict) (ms : list dict) :
  chain_depth (m :: ms) = Nat.max (depth (VDict m)) (chain_depth ms).
Proof. reflexivity. Qed.

Lemma deep_values_depth (maps : list dict) (k : string) :
  maps <> [] -> chain_depth (deep_values maps k) < chain_depth maps.
Proof.
  induction maps as [ | m maps IH ]; [congruence | intros _ ].
  rewrite chain_depth_cons.
  assert (0 < depth (VDict m)) as Hpos by (rewrite depth_dict; lia).
  assert (chain_depth (deep_values maps k) = 0 /\ chain_depth maps = 0 \/
          chain_depth (deep_values maps k) < chain_depth maps) as Hrest.
  { destruct maps as [ | m' maps' ]; [left; split; reflexivity | ].
    right. apply IH. discriminate. }
  simpl deep_values.
  destruct (dict_get k m) as [ [ | b | s | l | dv ] | ] eqn:E;
    try (simpl chain_depth; lia).
  rewrite chain_depth_cons. apply depth_get in E. lia.
Qed.

(** *** [to_dict] returns: the fuel it is given is enough *)

Lemma to_dict_fuel_total (fuel : nat) (maps : list dict) :
  chain_depth maps < fuel -> exists d, to_dict_fuel fuel maps = Some (Ok d).
Proof.
  revert maps. induction fuel as [ | fuel IH ]; intros maps Hlt; [lia | ].
  rewrite to_dict_fuel_S. apply comprehension_total. intros k Hin.
  destruct (chain_getitem_total _ _ Hin) as [v Hv].
  unfold deep_getitem. rewrite Hv.
  destruct v as [ | b | s | l | dv ]; eauto.
  destruct (IH (deep_values maps k)) as [d Hd].
  - assert (maps <> []) as Hne by (destruct maps; [simpl in Hin; tauto | discriminate]).
    pose proof (deep_values_depth maps k Hne). lia.
  - rewrite Hd. eauto.
Qed.

Lemma to_dict_total (maps : list dict) :
  exists d, to_dict maps = Some (Ok d).
Proof. apply to_dict_fuel_total. lia. Qed.

(** *** A chain over a single well-formed dict gives the dict back *)

Lemma to_dict_copy (fuel : nat) (d d' : dict) :
  well_formed (VDict d) ->
  to_dict_fuel fuel [d] = Some (Ok d') -> d' = d.
Proof.
  revert d d'. induction fuel as [ | fuel IH ]; intros d d' Hwf; [discriminate | ].
  rewrite to_dict_fuel_S.
  pose proof Hwf as Hwf'. apply well_formed_dict in Hwf' as [Hnd Hall].
  rewrite (chain_iter_single _ Hnd). intros Hc.
  apply (comprehension_copy _ _ _ Hc). intros k v v' Hin Hentry.
  pose proof (dict_get_NoDup _ _ _ Hnd Hin) as Hget.
  unfold deep_getitem in Hentry. simpl in Hentry. rewrite Hget in Hentry.
  destruct v as [ | b | s | l | dv ]; try (now inversion Hentry).
  case_to_dict Hentry. inversion Hentry; subst. f_equal.
  eapply IH; [ | eassumption ].
  eapply well_formed_get; eassumption.
Qed.

(** *** Existing fields are kept *)

Lemma get_path_leaf (v w : value) (path : list string) :
  is_mapping v = false -> get_path v path = Some w -> path = [] /\ w = v.
Proof.
  destruct path as [ | k path ]; simpl.
  - intros _ [= <-]. auto.
  - destruct v; discriminate.
Qed.

Lemma first_map_kept (fuel : nat) :
  forall (m : dict) (ms : list dict) (desired : dict) (path : list string)
         (v : value),
    to_dict_fuel fuel (m :: ms) = Some (Ok desired) ->
    path <> [] ->
    get_path (VDict m) path = Some v ->
    match v with
    | VDict _ => exists d', get_path (VDict desired) path = Some (VDict d')
    | _ => get_path (VDict desired) path = Some v
    end.
Proof.
  induction fuel as [ | fuel IH ]; intros m ms desired path v Hd Hne Hp;
    [discriminate | ].
  destruct path as [ | k path ]; [congruence | ]. simpl in Hp.
  destruct (dict_get k m) as [w | ] eqn:Hk; [ | discriminate ].
  pose proof (to_dict_first _ _ _ _ _ _ Hd Hk) as Hfirst.
  destruct w as [ | b | s | l | dw ];
    try (apply get_path_leaf in Hp as [-> ->]; [ | reflexivity ];
         simpl; now rewrite Hfirst).
  destruct Hfirst as (d' & Hrec & Hget). simpl. rewrite Hget.
  destruct path as [ | k' path' ].
  - simpl in Hp. inversion Hp; subst. simpl. eauto.
  - apply (IH dw (deep_values ms k) d' (k' :: path') v Hrec); [discriminate | ].
    exact Hp.
Qed.

(** *** Fields only the new mappings have are added *)

Lemma second_map_added (path : list string) :
  forall (fuel : nat) (m n desired de : dict) (k : string) (v : value),
    to_dict_fuel fuel [m; n] = Some (Ok desired) ->
    well_formed (VDict n) ->
    get_path (VDict m) path = Some (VDict de) ->
    dict_get k de = None ->
    get_path (VDict n) (path ++ [k]) = Some v ->
    get_path (VDict desired) (path ++ [k]) = Some v.
Proof.
  induction path as [ | k0 path IH ];
    intros fuel m n desired de k v Hd Hwf Hm Hk Hn;
    (destruct fuel as [ | fuel ]; [discriminate | ]).
  - simpl in Hm. inversion Hm; subst de. simpl in Hn |- *.
    destruct (dict_get k n) as [w | ] eqn:Hw; [ | discriminate ].
    inversion Hn; subst w.
    pose proof (to_dict_second _ _ _ _ _ _ Hd Hk Hw) as Hsecond.
    destruct v as [ | b | s | l | dv ]; try (now rewrite Hsecond).
    destruct Hsecond as (d' & Hrec & Hget). rewrite Hget.
    apply to_dict_copy in Hrec; [now subst | ].
    eapply well_formed_get; eassumption.
  - simpl in Hm, Hn |- *.
    destruct (dict_get k0 m) as [wm | ] eqn:Hwm; [ | discriminate ].
    destruct (dict_get k0 n) as [wn | ] eqn:Hwn; [ | discriminate ].
    assert (exists dm, wm = VDict dm) as [dm ->].
    { destruct wm; try (destruct path; discriminate). eauto. }
    assert (exists dn, wn = VDict dn) as [dn ->].
    { destruct wn; try (destruct path; discriminate). eauto. }
    destruct (to_dict_first _ _ _ _ _ _ Hd Hwm) as (d' & Hrec & Hget).
    rewrite Hget. simpl in Hrec. rewrite Hwn in Hrec.
    eapply IH; try eassumption.
    eapply well_formed_get; eassumption.
Qed.

(** *** No field is invented *)

Lemma to_dict_keys (fuel : nat) (maps : list dict) (desired : dict) (k : string) :
  to_dict_fuel fuel maps = Some (Ok desired) ->
  (In k (keys desired) <-> exists m, In m maps /\ In k (keys m)).
Proof.
  destruct fuel as [ | fuel ]; [discriminate | ].
  rewrite to_dict_fuel_S. intros Hc.
  rewrite (comprehension_keys _ _ _ Hc). apply chain_iter_In.
Qed.

(** C9.  For an index that already has mappings,
    [ensure_content_index_mappings] computes the desired mappings as an
    additive merge: [to_dict] returns; every field of the existing
    mappings, at any nesting depth, keeps its value when it is not a dict
    and stays a dict when it is one (the new mappings never overwrite it);
    a field that an existing dict lacks and the new mappings have at the
    same place is added with the new value; and the merged dict has no
    other top-level field. *)
Theorem ensure_mappings_additive_merge
    (index_info existing mappings : dict) :
  dict_get "mappings" index_info = Some (VDict existing) ->
  existing <> [] ->
  well_formed (VDict mappings) ->
  exists desired,
    desired_mappings index_info mappings = Some (Ok desired) /\
    (forall path v,
        path <> [] ->
        get_path (VDict existing) path = Some v ->
        match v with
        | VDict _ => exists d', get_path (VDict desired) path = Some (VDict d')
        | _ => get_path (VDict desired) path = Some v
        end) /\
    (forall path de k v,
        get_path (VDict existing) path = Some (VDict de) ->
        dict_get k de = None ->
        get_path (VDict mappings) (path ++ [k]) = Some v ->
        get_path (VDict desired) (path ++ [k]) = Some v) /\
    (forall k,
        In k (keys desired) <-> In k (keys existing) \/ In k (keys mappings)).
Proof.
  intros Hinfo Hne Hwf.
  destruct (to_dict_total [existing; mappings]) as [desired Hd].
  exists desired.
  assert (desired_mappings index_info mappings = Some (Ok desired)) as Hdm.
  { unfold desired_mappings, dict_get_default. rewrite Hinfo.
    destruct existing; [congruence | exact Hd]. }
  split; [exact Hdm | ]. unfold to_dict in Hd.
  split; [ | split ].
  - intros path v Hp Hget. eapply first_map_kept; eassumption.
  - intros path de k v Hm Hk Hn. eapply second_map_added; eassumption.
  - intros k. rewrite (to_dict_keys _ _ _ k Hd). simpl. split.
    + intros (m & [<- | [<- | []]] & Hk); auto.
    + intros [Hk | Hk]; eauto.
Qed.

Lemma ensure_mappings_additive_merge_witness :
  exists desired,
    desired_mappings [("mappings", VDict Examples.existing_mappings)]
      Examples.new_mappings = Some (Ok desired) /\
    (forall path v,
        path <> [] ->
        get_path (VDict Examples.existing_mappings) path = Some v ->
        match v with
        | VDict _ => exists d', get_path (VDict desired) path = Some (VDict d')
        | _ => get_path (VDict desired) path = Some v
        end) /\
    (forall path de k v,
        get_path (VDict Examples.existing_mappings) path = Some (VDict de) ->
        dict_get k de = None ->
        get_path (VDict Examples.new_mappings) (path ++ [k]) = Some v ->
        get_path (VDict desired) (path ++ [k]) = Some v) /\
    (forall k,
        In k (keys desired) <->
        In k (keys Examples.existing_mappings) \/
        In k (keys Examples.new_mappings)).
Proof.
  apply (ensure_mappings_additive_merge
           [("mappings", VDict Examples.existing_mappings)]
           Examples.existing_mappings Examples.new_mappings).
  - reflexivity.
  - discriminate.
  - simpl. repeat split; repeat constructor; simpl; intuition discriminate.
Defined.

(** The merge on the concrete mappings: "type" of "title" stays "text",
    "body" stays a string, "index" and "id" are added. *)
Example desired_mappings_example :
  desired_mappings [("mappings", VDict Examples.existing_mappings)]
    Examples.new_mappings =
  Some (Ok [("dynamic", VBool true);
            ("dynamic_templates", VList []);
            ("properties",
             VDict [("title",
                     VDict [("type", VStr "text"); ("index", VBool true)]);
                    ("body", VStr "x");
                    ("meta", VDict [("a", VDict [("b", VStr "c")])]);
                    ("id", VDict [("type", VStr "keyword")])])]).
Proof. reflexivity. Qed.

(** Without existing mappings the new ones are put as they are. *)
Lemma desired_mappings_fresh (index_info mappings : dict) :
  dict_get "mappings" index_info = None ->
  desired_mappings index_info mappings = Some (Ok mappings).
Proof.
  intros H. unfold desired_mappings, dict_get_default. now rewrite H.
Qed.

End ManagementClientFacts.

(* ================================================================== *)
(** ** The bulk writer *)
(* ================================================================== *)

Module BulkFacts.

Import Byoei PyFacts.

Lemma py_eq_END_DOCS (doc : value) :
  py_eq doc END_DOCS = true <-> doc = END_DOCS.
Proof. apply py_eq_str. Qed.

Lemma py_eq_END_DOWNLOADS (doc : value) :
  py_eq doc END_DOWNLOADS = true <-> doc = END_DOWNLOADS.
Proof. apply py_eq_str. Qed.

Lemma not_py_eq_END_DOCS (doc : value) :
  py_eq doc END_DOCS = false -> doc <> END_DOCS.
Proof. intros H E. apply py_eq_END_DOCS in E. congruence. Qed.

Lemma not_py_eq_END_DOWNLOADS (doc : value) :
  py_eq doc END_DOWNLOADS = false -> doc <> END_DOWNLOADS.
Proof. intros H E. apply py_eq_END_DOWNLOADS in E. congruence. Qed.

(** An action that is appended leaves the flags alone, and adds two
    entries to the batch, which is flushed when it holds [chunk_size]
    actions. *)
Lemma append_action_spec (T : nat) (b b' : bulker) (doc : value) :
  append_action T b doc = Ok b' ->
  docs_ended b' = docs_ended b /\
  downloads_ended b' = downloads_ended b /\
  exists header body,
    let batch2 := batch b ++ [header; body] in
    if Nat.leb (T * 2) (List.length batch2)
    then batch b' = [] /\ ops b' = ops b ++ [batch2]
    else batch b' = batch2 /\ ops b' = ops b.
Proof.
  unfold append_action, and_then.
  destruct (getitem doc "_op_type") as [op | ]; [ | discriminate ].
  destruct (getitem doc "_index") as [index | ]; [ | discriminate ].
  destruct (getitem doc "_id") as [id | ]; [ | discriminate ].
  destruct (as_key op) as [name | ]; [ | discriminate ].
  destruct (getitem doc "doc") as [body | ]; [ | discriminate ].
  set (header := VDict [(name, VDict [("_index", index); ("_id", id)])]).
  intros H.
  destruct (py_eq op (VStr "update")).
  - rewrite <- app_assoc in H. simpl in H.
    destruct (Nat.leb _ _) eqn:E; inversion H; subst; simpl;
      (split; [reflexivity | split; [reflexivity | ]]);
      exists header, (VDict [("doc", body); ("doc_as_upsert", VBool true)]);
      simpl; rewrite E; auto.
  - rewrite <- app_assoc in H. simpl in H.
    destruct (Nat.leb _ _) eqn:E; inversion H; subst; simpl;
      (split; [reflexivity | split; [reflexivity | ]]);
      exists header, (VDict [("doc", body)]);
      simpl; rewrite E; auto.
Qed.

(** The three ways an iteration can go. *)
Lemma bulk_step_cases (T : nat) (b : bulker) (doc : value) :
  docs_ended b && downloads_ended b = false ->
  (is_marker doc = true /\
   exists b1,
     docs_ended b1 = (py_eq doc END_DOCS || docs_ended b) /\
     downloads_ended b1 = (py_eq doc END_DOWNLOADS || downloads_ended b) /\
     batch b1 = batch b /\ ops b1 = ops b /\
     ((docs_ended b1 && downloads_ended b1 = true /\
       bulk_step T b doc = Break b1) \/
      (docs_ended b1 && downloads_ended b1 = false /\
       bulk_step T b doc = Next b1))) \/
  (is_marker doc = false /\
   ((exists b2, append_action T b doc = Ok b2 /\ bulk_step T b doc = Next b2) \/
    (exists e, append_action T b doc = Raise e /\ bulk_step T b doc = Throw e))).
Proof.
  intros Hflags. unfold is_marker, bulk_step. simpl.
  destruct (py_eq doc END_DOCS) eqn:E1; destruct (py_eq doc END_DOWNLOADS) eqn:E2;
    simpl.
  - apply py_eq_END_DOCS in E1. apply py_eq_END_DOWNLOADS in E2.
    subst doc. discriminate.
  - left. split; [reflexivity | ].
    destruct (downloads_ended b) eqn:Ew; simpl;
      (eexists {| batch := batch b; ops := ops b;
                  docs_ended := true; downloads_ended := _ |});
      simpl; repeat (split; [reflexivity | ]); [left | right];
      split; reflexivity.
  - left. split; [reflexivity | ]. rewrite Bool.andb_true_r.
    destruct (docs_ended b) eqn:Ed; simpl;
      (eexists {| batch := batch b; ops := ops b;
                  docs_ended := _; downloads_ended := true |});
      simpl; repeat (split; [reflexivity | ]); [left | right];
      split; reflexivity.
  - right. split; [reflexivity | ]. rewrite Hflags.
    assert (forall b0 : bulker,
               {| batch := batch b0; ops := ops b0;
                  docs_ended := docs_ended b0;
                  downloads_ended := downloads_ended b0 |} = b0) as Heta
        by (intros []; reflexivity).
    rewrite Heta.
    destruct (append_action T b doc) as [b2 | e]; eauto.
Qed.

(** The loop splits the queue into what it read and what it left; it
    breaks exactly when both markers are recorded or read. *)
Lemma bulk_loop_exit (T : nat) (queue : list value) :
  forall b : bulker,
    docs_ended b && downloads_ended b = false ->
    exists pre,
      queue = pre ++ unread (bulk_loop T b queue) /\
      ((exists b' rest, bulk_loop T b queue = Exited b' rest) <->
       (docs_ended b = true \/ In END_DOCS pre) /\
       (downloads_ended b = true \/ In END_DOWNLOADS pre)).
Proof.
  induction queue as [ | doc rest IH ]; intros b Hflags.
  - exists []. split; [reflexivity | ]. simpl. split.
    + intros (b' & r & H). discriminate.
    + intros [[H1 | []] [H2 | []]]. rewrite H1, H2 in Hflags. discriminate.
  - simpl bulk_loop.
    destruct (bulk_step_cases T b doc Hflags)
      as [(Hm & b1 & Hd & Hw & _ & _ & [[Hboth Hstep] | [Hnot Hstep]])
         | (Hm & [(b2 & Happ & Hstep) | (e & Happ & Hstep)])];
      rewrite Hstep.
    + exists [doc]. split; [reflexivity | ]. split; [ | eauto ].
      intros _. apply Bool.andb_true_iff in Hboth as [H1 H2].
      rewrite Hd in H1. rewrite Hw in H2.
      apply Bool.orb_true_iff in H1, H2. simpl.
      rewrite py_eq_END_DOCS in H1. rewrite py_eq_END_DOWNLOADS in H2.
      intuition.
    + destruct (IH b1 Hnot) as (pre & Hq & Hiff).
      exists (doc :: pre). split; [simpl; congruence | ].
      rewrite Hiff, Hd, Hw. simpl.
      rewrite !Bool.orb_true_iff, py_eq_END_DOCS, py_eq_END_DOWNLOADS.
      intuition.
    + apply append_action_spec in Happ as (Hd & Hw & _).
      assert (docs_ended b2 && downloads_ended b2 = false) as Hflags2
          by (rewrite Hd, Hw; assumption).
      destruct (IH b2 Hflags2) as (pre & Hq & Hiff).
      exists (doc :: pre). split; [simpl; congruence | ].
      rewrite Hiff, Hd, Hw. simpl.
      unfold is_marker in Hm. apply Bool.orb_false_iff in Hm as [H1 H2].
      apply not_py_eq_END_DOCS in H1. apply not_py_eq_END_DOWNLOADS in H2.
      intuition congruence.
    + exists [doc]. split; [reflexivity | ]. split.
      * intros (b' & r & H). discriminate.
      * unfold is_marker in Hm. apply Bool.orb_false_iff in Hm as [H1 H2].
        apply not_py_eq_END_DOCS in H1. apply not_py_eq_END_DOWNLOADS in H2.
        simpl. intros [[Hd | [Hd | []]] [Hw | [Hw | []]]]; try congruence.
        rewrite Hd, Hw in Hflags. discriminate.
Qed.

Lemma observed_prefix (pre queue : list value) (r : loop_end) :
  queue = pre ++ unread r -> observed queue r = pre.
Proof.
  intros ->. unfold observed. rewrite length_app.
  replace (List.length pre + List.length (unread r) - List.length (unread r))
    with (List.length pre + 0) by lia.
  rewrite firstn_app_2. simpl. apply app_nil_r.
Qed.

Lemma fold_batch_bulk_calls (calls : list (list value)) (self : ElasticServer) :
  bulk_calls (fold_left batch_bulk calls self) = bulk_calls self ++ calls.
Proof.
  revert self. induction calls as [ | c calls IH ]; intros self; simpl.
  - now rewrite app_nil_r.
  - rewrite IH. simpl. now rewrite <- app_assoc.
Qed.

Lemma fold_batch_bulk_downloads (calls : list (list value)) (self : ElasticServer) :
  _downloads (fold_left batch_bulk calls self) = _downloads self.
Proof.
  revert self. induction calls as [ | c calls IH ]; intros self; simpl.
  - reflexivity.
  - now rewrite IH.
Qed.

Lemma final_flush_ops (b : bulker) :
  ops (final_flush b) =
  ops b ++ match batch b with [] => [] | _ :: _ => [batch b] end.
Proof.
  unfold final_flush. destruct (batch b); simpl; [now rewrite app_nil_r | reflexivity].
Qed.

Lemma _bulk_Done (server : ElasticServer) (queue : list value) :
  fst (_bulk server queue) = Done <->
  exists b rest, bulk_loop (chunk_size server) bulker_init queue = Exited b rest.
Proof.
  unfold _bulk. simpl.
  destruct (bulk_loop (chunk_size server) bulker_init queue); simpl; split;
    try discriminate; eauto; intros (b' & r & H); discriminate.
Qed.

Lemma done_reads_both_markers (server : ElasticServer) (queue : list value) :
  fst (_bulk server queue) = Done ->
  In END_DOCS queue /\ In END_DOWNLOADS queue.
Proof.
  rewrite _bulk_Done. intros Hexit.
  destruct (bulk_loop_exit (chunk_size server) queue bulker_init eq_refl)
    as (pre & Hq & Hiff).
  apply Hiff in Hexit. destruct Hexit as [[H1 | H1] [H2 | H2]];
    try discriminate.
  rewrite Hq. split; apply in_or_app; auto.
Qed.

(** C3.  The bulk writer reaches its final flush and returns if and only
    if both END_DOCS and END_DOWNLOADS are among the items it read from
    the queue; when it does, the remaining partial batch is flushed and
    every dispatched bulk call has run. *)
Theorem writer_done_iff_both_markers
    (server : ElasticServer) (queue : list value) :
  let r := bulk_loop (chunk_size server) bulker_init queue in
  (fst (_bulk server queue) = Done <->
   In END_DOCS (observed queue r) /\ In END_DOWNLOADS (observed queue r)) /\
  (fst (_bulk server queue) = Done ->
   exists b rest,
     r = Exited b rest /\
     bulk_calls (snd (_bulk server queue)) =
     bulk_calls server ++ ops b ++
       match batch b with [] => [] | _ :: _ => [batch b] end).
Proof.
  intros r.
  destruct (bulk_loop_exit (chunk_size server) queue bulker_init eq_refl)
    as (pre & Hq & Hiff).
  fold r in Hq, Hiff. rewrite (observed_prefix pre queue r Hq).
  split.
  - rewrite _bulk_Done. fold r. rewrite Hiff. simpl.
    intuition discriminate.
  - rewrite _bulk_Done. fold r. intros (b & rest & Hr).
    exists b, rest. split; [assumption | ].
    unfold _bulk. simpl. fold r. rewrite Hr. simpl.
    rewrite fold_batch_bulk_calls, final_flush_ops. reflexivity.
Qed.

Lemma writer_done_iff_both_markers_witness :
  fst (_bulk Examples.small_server Examples.five_updates) = Done /\
  In END_DOCS Examples.five_updates /\ In END_DOWNLOADS Examples.five_updates.
Proof.
  split; [reflexivity | ].
  apply (proj1 (proj1 (writer_done_iff_both_markers
                         Examples.small_server Examples.five_updates))).
  reflexivity.
Defined.

(** One marker is not enough: the writer stays blocked in [queue.get()]. *)
Example writer_waits_for_second_marker :
  fst (_bulk Examples.small_server [Examples.new_doc "1"; END_DOCS]) = Pending /\
  fst (_bulk Examples.small_server [END_DOWNLOADS; Examples.new_doc "1"]) = Pending.
Proof. split; reflexivity. Qed.

(** *** Batching *)

Lemma intents_marker (doc : value) (items : list value) :
  is_marker doc = true -> intents (doc :: items) = intents items.
Proof. intros H. unfold intents. simpl. now rewrite H. Qed.

Lemma intents_intent (doc : value) (items : list value) :
  is_marker doc = false -> intents (doc :: items) = doc :: intents items.
Proof. intros H. unfold intents. simpl. now rewrite H. Qed.

Lemma bulk_loop_counts (T : nat) (queue : list value) :
  0 < T ->
  forall (b : bulker) (k : nat),
    docs_ended b && downloads_ended b = false ->
    List.length (batch b) = 2 * k ->
    k < T ->
    forall b' rest,
      bulk_loop T b queue = Exited b' rest ->
      exists pre flushed,
        queue = pre ++ rest /\
        ops b' = ops b ++ flushed /\
        List.length flushed = (k + List.length (intents pre)) / T /\
        Forall (fun c => List.length c = 2 * T) flushed /\
        List.length (batch b') = 2 * ((k + List.length (intents pre)) mod T).
Proof.
  intros HT. induction queue as [ | doc q IH ];
    intros b k Hflags Hlen Hk b' rest Hloop; [discriminate | ].
  simpl in Hloop.
  destruct (bulk_step_cases T b doc Hflags)
    as [(Hm & b1 & Hd & Hw & Hb & Ho & [[Hboth Hstep] | [Hnot Hstep]])
       | (Hm & [(b2 & Happ & Hstep) | (e & Happ & Hstep)])];
    rewrite Hstep in Hloop.
  - inversion Hloop; subst b' rest. exists [doc], [].
    rewrite (intents_marker _ _ Hm). simpl. rewrite Nat.add_0_r.
    rewrite Nat.div_small, Nat.mod_small by assumption.
    rewrite app_nil_r, Hb, Ho. auto.
  - assert (List.length (batch b1) = 2 * k) as Hlen1 by congruence.
    destruct (IH b1 k Hnot Hlen1 Hk b' rest Hloop)
      as (pre & flushed & Hq & Hops & Hn & Hall & Hbatch).
    exists (doc :: pre), flushed. rewrite (intents_marker _ _ Hm).
    rewrite <- Ho. simpl. split; [congruence | auto].
  - pose proof (append_action_spec _ _ _ _ Happ)
      as (Hd & Hw & header & body & Hflush).
    assert (docs_ended b2 && downloads_ended b2 = false) as Hflags2
        by (rewrite Hd, Hw; assumption).
    cbv zeta in Hflush. rewrite length_app, Hlen in Hflush. simpl in Hflush.
    destruct (Nat.leb (T * 2) (k + (k + 0) + 2)) eqn:E;
      destruct Hflush as [Hb2 Ho2].
    + apply Nat.leb_le in E. assert (S k = T) as HkT by lia.
      assert (List.length (batch b2) = 2 * 0) as Hlen2 by (rewrite Hb2; reflexivity).
      destruct (IH b2 0 Hflags2 Hlen2 HT b' rest Hloop)
        as (pre & flushed & Hq & Hops & Hn & Hall & Hbatch).
      exists (doc :: pre), ((batch b ++ [header; body]) :: flushed).
      rewrite (intents_intent _ _ Hm). simpl List.length.
      replace (k + S (List.length (intents pre)))
        with (1 * T + List.length (intents pre)) by lia.
      rewrite Nat.div_add_l by lia.
      replace (1 * T + List.length (intents pre))
        with (List.length (intents pre) + 1 * T) by lia.
      rewrite Nat.Div0.mod_add.
      split; [simpl; congruence | ].
      split; [rewrite Hops, Ho2, <- app_assoc; reflexivity | ].
      split; [simpl in Hn; lia | ].
      split; [ | exact Hbatch ].
      constructor; [ | assumption ].
      rewrite length_app, Hlen. simpl. lia.
    + apply Nat.leb_gt in E.
      assert (List.length (batch b2) = 2 * S k) as Hlen2.
      { rewrite Hb2, length_app, Hlen. simpl. lia. }
      assert (S k < T) as Hk2 by lia.
      destruct (IH b2 (S k) Hflags2 Hlen2 Hk2 b' rest Hloop)
        as (pre & flushed & Hq & Hops & Hn & Hall & Hbatch).
      exists (doc :: pre), flushed.
      rewrite (intents_intent _ _ Hm). simpl List.length.
      replace (k + S (List.length (intents pre)))
        with (S k + List.length (intents pre)) by lia.
      split; [simpl; congruence | ].
      split; [rewrite Hops, Ho2; reflexivity | auto].
  - discriminate.
Qed.

(** The number of flushes is the ceiling of M / T. *)
Lemma ceiling_split (M T : nat) :
  0 < T ->
  (M + T - 1) / T = M / T + (if Nat.eqb (M mod T) 0 then 0 else 1).
Proof.
  intros HT. pose proof (Nat.div_mod_eq M T) as Hdm.
  pose proof (Nat.mod_upper_bound M T ltac:(lia)) as Hlt.
  destruct (Nat.eqb (M mod T) 0) eqn:E.
  - apply Nat.eqb_eq in E. symmetry.
    apply (Nat.div_unique _ _ _ (T - 1)); nia.
  - apply Nat.eqb_neq in E. symmetry.
    apply (Nat.div_unique _ _ _ (M mod T - 1)); nia.
Qed.

(** C4.  A run of the bulk writer that reads M write-intents with flush
    threshold T > 0 dispatches exactly ceil(M / T) bulk calls: M / T of
    them carry T actions each (2 T entries), and one more carries the
    M mod T actions left, only when that remainder is not zero. *)
Theorem bulk_calls_ceiling
    (server server' : ElasticServer) (queue : list value) :
  0 < chunk_size server ->
  _bulk server queue = (Done, server') ->
  let T := chunk_size server in
  let M := List.length
             (intents (observed queue (bulk_loop T bulker_init queue))) in
  exists full partial,
    bulk_calls server' = bulk_calls server ++ full ++ partial /\
    List.length full = M / T /\
    Forall (fun c => List.length c = 2 * T) full /\
    (M mod T = 0 -> partial = []) /\
    (M mod T <> 0 ->
     exists c, partial = [c] /\ List.length c = 2 * (M mod T)) /\
    List.length (full ++ partial) = (M + T - 1) / T.
Proof.
  intros HT Hrun T M.
  assert (fst (_bulk server queue) = Done) as Hdone by (now rewrite Hrun).
  apply _bulk_Done in Hdone as (b & rest & Hloop). fold T in Hloop.
  destruct (bulk_loop_counts T queue HT bulker_init 0 eq_refl eq_refl HT
              b rest Hloop)
    as (pre & flushed & Hq & Hops & Hn & Hall & Hbatch).
  assert (observed queue (bulk_loop T bulker_init queue) = pre) as Hobs.
  { apply observed_prefix. rewrite Hloop. exact Hq. }
  subst M. rewrite Hobs. simpl in Hn, Hbatch, Hops.
  set (M := List.length (intents pre)) in *.
  assert (bulk_calls server' =
          bulk_calls server ++ flushed ++
            match batch b with [] => [] | _ :: _ => [batch b] end) as Hcalls.
  { unfold _bulk in Hrun. simpl in Hrun. fold T in Hrun. rewrite Hloop in Hrun.
    inversion Hrun. rewrite fold_batch_bulk_calls, final_flush_ops, Hops.
    reflexivity. }
  exists flushed, (match batch b with [] => [] | _ :: _ => [batch b] end).
  split; [exact Hcalls | ].
  split; [exact Hn | ].
  split; [exact Hall | ].
  assert (M mod T = 0 -> batch b = []) as Hzero.
  { intros Hz. rewrite Hz in Hbatch. destruct (batch b); [reflexivity | discriminate]. }
  assert (M mod T <> 0 -> batch b <> []) as Hnonzero.
  { intros Hnz Hb. rewrite Hb in Hbatch. simpl in Hbatch. lia. }
  split; [intros Hz; now rewrite (Hzero Hz) | ].
  split.
  - intros Hnz. specialize (Hnonzero Hnz).
    destruct (batch b) as [ | x l ] eqn:Eb; [congruence | ].
    exists (x :: l). split; [reflexivity | exact Hbatch].
  - rewrite length_app, Hn, (ceiling_split M T HT). f_equal.
    destruct (Nat.eqb (M mod T) 0) eqn:E.
    + apply Nat.eqb_eq in E. now rewrite (Hzero E).
    + apply Nat.eqb_neq in E. specialize (Hnonzero E).
      destruct (batch b); [congruence | reflexivity].
Qed.

Lemma bulk_calls_ceiling_witness :
  exists full partial,
    bulk_calls (snd (_bulk Examples.small_server Examples.five_updates)) =
      [] ++ full ++ partial /\
    List.length full = 5 / 2 /\
    Forall (fun c => List.length c = 2 * 2) full /\
    (5 mod 2 = 0 -> partial = []) /\
    (5 mod 2 <> 0 -> exists c, partial = [c] /\ List.length c = 2 * (5 mod 2)) /\
    List.length (full ++ partial) = (5 + 2 - 1) / 2.
Proof.
  apply (bulk_calls_ceiling Examples.small_server
           (snd (_bulk Examples.small_server Examples.five_updates))
           Examples.five_updates).
  - simpl. lia.
  - reflexivity.
Defined.

(** Threshold 2 and five documents: three bulk calls, of 2, 2 and 1
    actions; the configured threshold is 500. *)
Example five_documents_three_calls :
  map (fun c => List.length c / 2)
      (bulk_calls (snd (_bulk Examples.small_server Examples.five_updates)))
  = [2; 2; 1] /\
  chunk_size init = 500.
Proof. split; reflexivity. Qed.

(** *** Bulk actions *)

Lemma append_update (T : nat) (b : bulker) (index doc_id : value) (doc : dict) :
  append_action T b (update_intent index doc_id doc) =
  let batch2 := (batch b ++ [update_header index doc_id]) ++ [update_body doc] in
  if Nat.leb (T * 2) (List.length batch2) then
    Ok {| batch := [];
          ops := ops b ++ [batch2];
          docs_ended := docs_ended b;
          downloads_ended := downloads_ended b |}
  else
    Ok {| batch := batch2;
          ops := ops b;
          docs_ended := docs_ended b;
          downloads_ended := downloads_ended b |}.
Proof. reflexivity. Qed.

Lemma append_delete (T : nat) (b : bulker) (index doc_id : value) :
  append_action T b (delete_intent index doc_id) = Raise (KeyError "doc").
Proof. reflexivity. Qed.

(** C8.  A Delete write-intent, as [get_docs] builds it, makes the bulk
    writer fail: the lookup of its "doc" entry raises KeyError, so no
    action is dispatched for it and [_bulk] ends with that exception.
    An update intent is appended as its action metadata followed by a
    body holding the full document and the doc_as_upsert flag. *)
Theorem delete_intent_body_lookup_fails :
  (forall T b index doc_id,
      append_action T b (delete_intent index doc_id) = Raise (KeyError "doc")) /\
  (forall server index doc_id rest,
      fst (_bulk server (delete_intent index doc_id :: rest)) =
      Raised (KeyError "doc") /\
      bulk_calls (snd (_bulk server (delete_intent index doc_id :: rest))) =
      bulk_calls server) /\
  (forall T b index doc_id doc,
      exists b',
        append_action T b (update_intent index doc_id doc) = Ok b' /\
        let appended :=
          batch b ++ [update_header index doc_id; update_body doc] in
        (batch b' = appended /\ ops b' = ops b \/
         batch b' = [] /\ ops b' = ops b ++ [appended])).
Proof.
  split; [ | split ].
  - intros. apply append_delete.
  - intros server index doc_id rest. unfold _bulk. simpl.
    split; reflexivity.
  - intros T b index doc_id doc. rewrite append_update. cbv zeta.
    rewrite <- app_assoc. simpl.
    destruct (Nat.leb _ _); eexists; (split; [reflexivity | ]); simpl; auto.
Qed.

(** The queue of the spec's scenario: an update for id3, the delete for
    id2, both markers.  The writer dies on the delete. *)
Example scenario_delete_kills_writer :
  _bulk init
    [update_intent (VStr "idx") (VStr "id3") [("id", VStr "id3")];
     delete_intent (VStr "idx") (VStr "id2");
     END_DOCS; END_DOWNLOADS]
  = (Raised (KeyError "doc"), start_bulking init).
Proof. reflexivity. Qed.

(** *** The writer completes on well-formed queues *)

Lemma bulk_loop_no_throw (T : nat) (queue : list value) :
  Forall update_or_marker queue ->
  forall b e b' rest, bulk_loop T b queue <> Threw e b' rest.
Proof.
  induction 1 as [ | doc q Hdoc Hq IH ]; intros b e b' rest; simpl;
    [discriminate | ].
  unfold bulk_step.
  destruct (_ && _); [discriminate | ].
  destruct Hdoc as [Hm | (index & doc_id & d & ->)].
  - unfold is_marker in Hm. rewrite Hm. apply IH.
  - cbn [py_eq END_DOCS END_DOWNLOADS update_intent orb].
    rewrite append_update. cbv zeta.
    destruct (Nat.leb _ _); apply IH.
Qed.

Lemma _bulk_completes (server : ElasticServer) (queue : list value) :
  Forall update_or_marker queue ->
  In END_DOCS queue -> In END_DOWNLOADS queue ->
  fst (_bulk server queue) = Done.
Proof.
  intros Hall H1 H2. apply _bulk_Done.
  destruct (bulk_loop_exit (chunk_size server) queue bulker_init eq_refl)
    as (pre & Hq & Hiff).
  destruct (bulk_loop (chunk_size server) bulker_init queue) as [b r | b | e b r] eqn:E.
  - eauto.
  - simpl in Hq. rewrite app_nil_r in Hq. subst pre.
    apply Hiff. auto.
  - exfalso. eapply bulk_loop_no_throw; eassumption.
Qed.

End BulkFacts.

(* ================================================================== *)
(** ** The producers: [get_docs] and [get_attachments] *)
(* ================================================================== *)

Module PassFacts.

Import Byoei PyFacts BulkFacts.

Local Open Scope task_scope.

Lemma bind_inv {S A B} (m : task S A) (k : A -> task S B) s r s' :
  bind m k s = (r, s') ->
  (exists e, m s = (Raise e, s') /\ r = Raise e) \/
  (exists a s1, m s = (Ok a, s1) /\ k a s1 = (r, s')).
Proof.
  unfold bind. destruct (m s) as [[a | e] s1]; intros H.
  - right. eauto.
  - left. inversion H; subst. eauto.
Qed.

Lemma bind_ok {S A B} (m : task S A) (k : A -> task S B) s a s1 :
  m s = (Ok a, s1) -> bind m k s = k a s1.
Proof. unfold bind. now intros ->. Qed.

Lemma bind_raise {S A B} (m : task S A) (k : A -> task S B) s e s1 :
  m s = (Raise e, s1) -> bind m k s = (Raise e, s1).
Proof. unfold bind. now intros ->. Qed.

Lemma for_each_app {S A} (body : A -> task S unit) (l1 l2 : list A) s :
  for_each body (l1 ++ l2) s =
  bind (for_each body l1) (fun _ => for_each body l2) s.
Proof.
  revert s. induction l1 as [ | x l1 IH ]; intros s; simpl.
  - reflexivity.
  - unfold bind in *. destruct (body x s) as [[[] | e] s1]; [ | reflexivity ].
    apply IH.
Qed.

Lemma grows_refl index s : grows index s s.
Proof.
  split; try reflexivity.
  - exists []. split; [now rewrite app_nil_r | constructor].
  - exists []. now rewrite app_nil_r.
Qed.

Lemma grows_trans index s1 s2 s3 :
  grows index s1 s2 -> grows index s2 s3 -> grows index s1 s3.
Proof.
  intros [(i1 & H1 & F1) (t1 & D1) C1 B1 N1] [(i2 & H2 & F2) (t2 & D2) C2 B2 N2].
  split; try congruence.
  - exists (i1 ++ i2). split.
    + rewrite H2, H1. now rewrite app_assoc.
    + apply Forall_app. auto.
  - exists (t1 ++ t2). rewrite D2, D1. now rewrite app_assoc.
Qed.

Lemma is_update_not_END_DOCS index item :
  is_update index item -> item <> END_DOCS.
Proof. intros (doc_id & doc & ->). discriminate. Qed.

Lemma is_update_not_delete index item index' doc_id :
  is_update index item -> item <> delete_intent index' doc_id.
Proof. intros (id & doc & ->). discriminate. Qed.

Lemma interleave_In order xs ys item :
  In item (interleave order xs ys) -> In item xs \/ In item ys.
Proof.
  revert xs ys. induction order as [ | [ | ] order IH ]; intros xs ys; simpl.
  - apply in_app_or.
  - destruct xs as [ | x xs ]; [auto | ].
    simpl. intros [-> | H]; [auto | ]. apply IH in H. tauto.
  - destruct ys as [ | y ys ]; [auto | ].
    simpl. intros [-> | H]; [auto | ]. apply IH in H. tauto.
Qed.

Lemma observed_In queue r item :
  In item (observed queue r) -> In item queue.
Proof.
  unfold observed. generalize (List.length queue - List.length (unread r)).
  intros n. revert queue. induction n as [ | n IH ]; intros [ | x q ]; simpl;
    try tauto.
  intros [-> | H]; auto.
Qed.

(** *** The exception [gather] raises *)

Lemma first_raised_In (positions : list nat) (tasks : list ending) (e : exn) :
  first_raised positions tasks = Some e -> In (Raised e) tasks.
Proof.
  induction positions as [ | p rest IH ]; cbn [first_raised]; [discriminate | ].
  destruct (nth_error tasks p) as [ [ | e0 | ] | ] eqn:Hp; auto.
  intros [= <-]. eapply nth_error_In; eassumption.
Qed.

Lemma first_raised_some (positions : list nat) (tasks : list ending)
    (p : nat) (e : exn) :
  In p positions ->
  nth_error tasks p = Some (Raised e) ->
  exists e', first_raised positions tasks = Some e'.
Proof.
  induction positions as [ | q rest IH ]; cbn [first_raised In]; [tauto | ].
  intros [-> | Hin] Hp.
  - rewrite Hp. eauto.
  - destruct (nth_error tasks q) as [ [ | e0 | ] | ]; eauto.
Qed.

Lemma gather_Raised_In (finish : list nat) (tasks : list ending) (e : exn) :
  gather finish tasks = Raised e -> In (Raised e) tasks.
Proof.
  unfold gather.
  destruct (first_raised _ tasks) as [e' | ] eqn:H.
  - intros [= <-]. eapply first_raised_In; eassumption.
  - destruct (forallb is_done tasks); discriminate.
Qed.

Lemma gather_raises (finish : list nat) (tasks : list ending) (e : exn) :
  In (Raised e) tasks ->
  exists e', gather finish tasks = Raised e' /\ In (Raised e') tasks.
Proof.
  intros Hin. apply In_nth_error in Hin as [p Hp].
  assert (Hlt : p < List.length tasks).
  { apply nth_error_Some. rewrite Hp. discriminate. }
  destruct (first_raised_some (finish ++ seq 0 (List.length tasks)) tasks p e)
    as [e' He']; [ | exact Hp | ].
  { apply in_or_app. right. apply in_seq. lia. }
  exists e'. unfold gather. rewrite He'. split; [reflexivity | ].
  eapply first_raised_In; eassumption.
Qed.

Lemma gather_Done (finish : list nat) r1 r2 r3 :
  gather finish [r1; r2; r3] = Done -> r1 = Done /\ r2 = Done /\ r3 = Done.
Proof.
  unfold gather. destruct (first_raised _ _); [discriminate | ].
  destruct r1, r2, r3; cbn; intros H; try discriminate; auto.
Qed.

Lemma gather_all_Done (finish : list nat) :
  gather finish [Done; Done; Done] = Done.
Proof.
  destruct (gather finish [Done; Done; Done]) as [ | e | ] eqn:H;
    [reflexivity | | ].
  - apply gather_Raised_In in H. cbn in H. intuition discriminate.
  - unfold gather in H. destruct (first_raised _ _); discriminate.
Qed.

Section WithClock.

Variable iso_utc : nat -> string.

Lemma upsert_spec index doc_id doc lazy_download s :
  exists s',
    upsert index doc_id doc lazy_download s = (Ok tt, s') /\
    stream s' = stream s ++ [update_intent index doc_id doc] /\
    seen_ids s' = seen_ids s /\
    awaited s' = awaited s /\
    grows index s s'.
Proof.
  unfold upsert. destruct lazy_download as [f | ]; eexists;
    (split; [reflexivity | ]); simpl; repeat split; try reflexivity.
  - exists [update_intent index doc_id doc]. split; [reflexivity | ].
    repeat constructor. unfold is_update. eauto.
  - eexists. reflexivity.
  - exists [update_intent index doc_id doc]. split; [reflexivity | ].
    repeat constructor. unfold is_update. eauto.
  - exists []. now rewrite app_nil_r.
Qed.

(** One feed item: what [classify] does to the state, however it ends. *)
Lemma classify_spec index tss item s r s' :
  classify iso_utc index tss item s = (r, s') ->
  grows index s s' /\
  (forall e, r = Raise e -> stream s' = stream s) /\
  (r = Ok tt ->
   exists doc_id,
     dict_get "_id" (fst item) = Some doc_id /\
     set_add doc_id (seen_ids s) = Ok (seen_ids s')).
Proof.
  destruct item as [doc lazy_download]. unfold classify. simpl fst.
  unfold lift at 1. unfold dict_pop.
  destruct (dict_get "_id" doc) as [doc_id | ] eqn:Hid.
  2:{ unfold bind. intros [= <- <-].
      split; [apply grows_refl | ]. split; [reflexivity | discriminate]. }
  unfold bind at 1.
  unfold see, bind at 1.
  destruct (set_add doc_id (seen_ids s)) as [seen | e0] eqn:Hadd.
  2:{ intros [= <- <-].
      split; [apply grows_refl | ]. split; [reflexivity | discriminate]. }
  set (doc1 := dict_set "id" doc_id (dict_remove "_id" doc)).
  set (s1 := {| self := self s; stream := stream s; seen_ids := seen;
                awaited := awaited s; clock := clock s |}).
  assert (grows index s s1) as Hg1 by (split; simpl; try reflexivity;
    [exists []; split; [now rewrite app_nil_r | constructor]
    | exists []; now rewrite app_nil_r]).
  destruct (dict_get "timestamp" doc1) as [ts | ] eqn:Hts.
  - destruct (py_eq (vdict_get_default doc_id (VStr "") tss) ts) eqn:Heq.
    + destruct lazy_download as [f | ].
      * unfold await_call. simpl.
        destruct (dl_run f false None) as [res | e1]; intros [= <- <-];
          (split; [ | split ]); simpl; eauto;
          split; simpl; try reflexivity;
          try (exists []; split; [now rewrite app_nil_r | constructor]);
          exists []; now rewrite app_nil_r.
      * unfold raise. intros [= <- <-].
        split; [exact Hg1 | ]. split; [reflexivity | discriminate].
    + destruct (upsert_spec index doc_id doc1 lazy_download s1)
        as (s2 & Hup & Hst & Hseen & _ & Hg2).
      rewrite Hup. intros [= <- <-].
      split; [eapply grows_trans; eassumption | ].
      split; [discriminate | ]. intros _. exists doc_id. rewrite Hseen. auto.
  - unfold now, bind at 1.
    set (s1' := {| self := self s1; stream := stream s1;
                   seen_ids := seen_ids s1; awaited := awaited s1;
                   clock := S (clock s1) |}).
    destruct (upsert_spec index doc_id
                (dict_set "timestamp" (VStr (iso_utc (clock s1))) doc1)
                lazy_download s1')
      as (s2 & Hup & Hst & Hseen & _ & Hg2).
    rewrite Hup. intros [= <- <-].
    split.
    + eapply grows_trans; [exact Hg1 | ].
      destruct Hg2 as [G1 G2 G3 G4 G5]. split; assumption.
    + split; [discriminate | ]. intros _. exists doc_id. rewrite Hseen. auto.
Qed.

(** The loop over the feed. *)
Lemma feed_loop_spec index tss items :
  forall s r s',
    for_each (classify iso_utc index tss) items s = (r, s') ->
    grows index s s' /\
    (r = Ok tt ->
     is_set (seen_ids s) ->
     is_set (seen_ids s') /\
     forall y,
       In y (seen_ids s') <->
       In y (seen_ids s) \/
       In y (flat_map
               (fun item : dict * option lazy_download =>
                  match dict_get "_id" (fst item) with
                  | Some id => [id]
                  | None => []
                  end) items)).
Proof.
  induction items as [ | item items IH ]; intros s r s' H.
  - simpl in H. inversion H; subst. split; [apply grows_refl | ].
    intros _ Hset. split; [assumption | ]. simpl. tauto.
  - simpl in H. apply bind_inv in H as [(e & H1 & ->) | ([] & s1 & H1 & H2)].
    + apply classify_spec in H1 as (Hg & _). split; [assumption | discriminate].
    + apply classify_spec in H1 as (Hg1 & _ & Hseen).
      destruct (Hseen eq_refl) as (doc_id & Hid & Hadd).
      apply IH in H2 as (Hg2 & Hok).
      split; [eapply grows_trans; eassumption | ].
      intros -> Hset.
      destruct (set_add_spec _ _ _ Hset Hadd) as (Hset1 & _ & Hin1).
      destruct (Hok eq_refl Hset1) as (Hset' & Hin').
      split; [assumption | ].
      intros y. rewrite Hin', Hin1. simpl. rewrite Hid. simpl.
      intuition.
Qed.

(** The deletion sweep never fails: it puts one delete per id of
    [existing_ids] that is not in [seen_ids]. *)
Lemma sweep_loop_spec index ids :
  forall s,
    exists s',
      for_each (sweep index) ids s = (Ok tt, s') /\
      stream s' =
        stream s ++
        map (delete_intent index)
            (filter (fun id => negb (set_mem id (seen_ids s))) ids) /\
      seen_ids s' = seen_ids s /\
      self s' = self s.
Proof.
  induction ids as [ | id ids IH ]; intros s; simpl.
  - exists s. repeat split. now rewrite app_nil_r.
  - unfold sweep at 1, gets, bind at 1 2.
    destruct (set_mem id (seen_ids s)) eqn:Hm; simpl.
    + apply IH.
    + destruct (IH {| self := self s;
                      stream := stream s ++ [delete_intent index id];
                      seen_ids := seen_ids s;
                      awaited := awaited s;
                      clock := clock s |})
        as (s' & Hrun & Hst & Hseen & Hself).
      exists s'. split; [exact Hrun | ].
      simpl in Hst, Hseen, Hself. rewrite Hst, <- app_assoc. auto.
Qed.

(** The snapshot loop builds the set of the ids it reads. *)
Lemma read_existing_spec es_docs :
  forall ids tss ids' tss',
    read_existing es_docs ids tss = Ok (ids', tss') ->
    is_set ids ->
    is_set ids' /\
    forall y, In y ids' <-> In y ids \/ In y (snapshot_ids es_docs).
Proof.
  induction es_docs as [ | es_doc rest IH ]; intros ids tss ids' tss' H Hset.
  - simpl in H. inversion H; subst. split; [assumption | ]. simpl. tauto.
  - simpl in H. unfold and_then, dict_getitem in H.
    destruct (dict_get "id" es_doc) as [id | ] eqn:Hid; [ | discriminate ].
    destruct (set_add id ids) as [ids1 | ] eqn:Hadd; [ | discriminate ].
    destruct (dict_get "timestamp" es_doc) as [ts | ]; [ | discriminate ].
    destruct (vdict_set id ts tss) as [tss1 | ]; [ | discriminate ].
    destruct (set_add_spec _ _ _ Hset Hadd) as (Hset1 & _ & Hin1).
    destruct (IH _ _ _ _ H Hset1) as (Hset' & Hin').
    split; [assumption | ].
    intros y. rewrite Hin', Hin1. simpl. rewrite Hid. simpl. intuition.
Qed.

Lemma delete_intent_inj index a b :
  delete_intent index a = delete_intent index b -> a = b.
Proof. intros H. now inversion H. Qed.

Lemma get_docs_ok index ids tss gen s s' :
  get_docs iso_utc index ids tss gen s = (Ok tt, s') ->
  exists s1,
    for_each (classify iso_utc index tss) (yields gen) s = (Ok tt, s1) /\
    raises gen = None /\
    stream s' =
      stream s1 ++
      map (delete_intent index)
          (filter (fun id => negb (set_mem id (seen_ids s1))) ids) ++
      [END_DOCS].
Proof.
  unfold get_docs. intros H.
  apply bind_inv in H as [(e & _ & He) | ([] & s1 & H1 & H2)]; [discriminate | ].
  exists s1. split; [assumption | ].
  destruct (raises gen) as [e | ].
  - unfold raise, bind in H2. discriminate.
  - split; [reflexivity | ].
    rewrite (bind_ok _ _ s1 tt s1 eq_refl) in H2.
    destruct (sweep_loop_spec index ids s1) as (s2 & Hsweep & Hst & _ & _).
    rewrite (bind_ok _ _ _ _ _ Hsweep) in H2.
    unfold put, modify in H2. inversion H2; subst. simpl.
    rewrite Hst, <- app_assoc. reflexivity.
Qed.

(** C1.  In a pass whose feed is exhausted, [get_docs] puts on the queue
    the updates of the feed, then one Delete for each id of the snapshot
    that the feed did not yield, then END_DOCS: the deleted ids are
    exactly S minus F, none twice, and nothing else on the queue is a
    Delete. *)
Theorem deletes_are_snapshot_minus_feed
    (server : ElasticServer) (index : value) (es_docs : list dict)
    (gen : generator) (existing_ids : pyset) (existing_timestamps : vdict)
    (s' : pass) :
  read_existing es_docs [] [] = Ok (existing_ids, existing_timestamps) ->
  get_docs iso_utc index existing_ids existing_timestamps gen
    (pass_init server) = (Ok tt, s') ->
  exists updates deleted,
    stream s' = updates ++ map (delete_intent index) deleted ++ [END_DOCS] /\
    Forall (is_update index) updates /\
    NoDup deleted /\
    (forall id,
        In id deleted <->
        In id (snapshot_ids es_docs) /\ ~ In id (feed_ids gen)).
Proof.
  intros Hread Hrun.
  destruct (read_existing_spec _ _ _ _ _ Hread is_set_nil) as (Hset & Hin).
  apply get_docs_ok in Hrun as (s1 & Hloop & _ & Hstream).
  apply feed_loop_spec in Hloop as (Hg & Hseen).
  destruct (Hseen eq_refl is_set_nil) as (Hset1 & Hin1).
  destruct Hg as [(updates & Hup & Hall) _ _ _ _]. simpl in Hup.
  exists updates,
    (filter (fun id => negb (set_mem id (seen_ids s1))) existing_ids).
  split; [rewrite Hstream, Hup; reflexivity | ].
  split; [assumption | ].
  split; [apply NoDup_filter; apply Hset | ].
  intros id. rewrite filter_In, Hin. simpl.
  assert (In id existing_ids -> hashable id = true) as Hhash.
  { destruct Hset as [_ Hh]. rewrite Forall_forall in Hh. apply Hh. }
  rewrite Hin in Hhash. unfold feed_ids.
  split.
  - intros [[[] | Hs] Hm]. split; [assumption | ].
    intros Hf. apply Bool.negb_true_iff in Hm.
    assert (In id (seen_ids s1)) as Hin' by (apply Hin1; auto).
    apply (set_mem_In id (seen_ids s1)) in Hin'; [congruence | auto].
  - intros [Hs Hf]. split; [auto | ].
    apply Bool.negb_true_iff. destruct (set_mem id (seen_ids s1)) eqn:Hm; [ | reflexivity ].
    apply set_mem_In in Hm; [ | auto ].
    apply Hin1 in Hm as [[] | Hm]. contradiction.
Qed.

(** *** Unchanged documents *)

Lemma renamed_id_keeps_timestamp (doc : dict) (doc_id : value) :
  dict_get "timestamp" (dict_set "id" doc_id (dict_remove "_id" doc)) =
  dict_get "timestamp" doc.
Proof.
  rewrite dict_get_set_ne by discriminate.
  apply dict_get_remove_ne. discriminate.
Qed.

(** C2.  A feed document whose version token equals the token the
    snapshot holds for its id is classified unchanged: the classification
    calls the document's [lazy_download] with [doit=False] (and nothing
    else), puts nothing on the queue and schedules no download.  When the
    document comes without a [lazy_download], the call of [None] raises
    TypeError; the queue and the downloads are untouched all the same. *)
Theorem unchanged_document_is_skipped
    (index : value) (existing_timestamps : vdict) (doc : dict)
    (lazy_download : option lazy_download) (s : pass)
    (doc_id ts ts' : value) :
  dict_get "_id" doc = Some doc_id ->
  hashable doc_id = true ->
  dict_get "timestamp" doc = Some ts ->
  vdict_get doc_id existing_timestamps = Some ts' ->
  py_eq ts' ts = true ->
  exists r s',
    classify iso_utc index existing_timestamps (doc, lazy_download) s = (r, s') /\
    stream s' = stream s /\
    _downloads (self s') = _downloads (self s) /\
    match lazy_download with
    | Some f =>
        awaited s' =
          awaited s ++ [{| callee := f; doit := false; timestamp := None |}] /\
        r = match dl_run f false None with
            | Ok _ => Ok tt
            | Raise e => Raise e
            end
    | None =>
        awaited s' = awaited s /\
        r = Raise (TypeError "'NoneType' object is not callable")
    end.
Proof.
  intros Hid Hhash Hts Hsnap Heq.
  unfold classify, lift, dict_pop. rewrite Hid.
  unfold bind at 1. unfold see, bind at 1.
  unfold set_add. rewrite Hhash.
  rewrite renamed_id_keeps_timestamp, Hts.
  unfold vdict_get_default. rewrite Hsnap, Heq.
  destruct lazy_download as [f | ].
  - unfold await_call. simpl.
    destruct (dl_run f false None); eexists; eexists;
      (split; [reflexivity | ]); simpl; auto.
  - unfold raise. eexists; eexists. split; [reflexivity | ]. simpl. auto.
Qed.

(** *** A feed that fails *)

Lemma get_docs_grows index ids tss gen s r s' :
  get_docs iso_utc index ids tss gen s = (r, s') ->
  (exists s1,
      grows index s s1 /\
      self s' = self s1 /\
      (stream s' = stream s1 \/
       exists deleted,
         stream s' = stream s1 ++ map (delete_intent index) deleted ++ [END_DOCS])).
Proof.
  unfold get_docs. intros H.
  apply bind_inv in H as [(e & H1 & ->) | ([] & s1 & H1 & H2)].
  - apply feed_loop_spec in H1 as (Hg & _). exists s'. auto.
  - apply feed_loop_spec in H1 as (Hg & _). exists s1.
    split; [assumption | ].
    destruct (raises gen) as [e | ].
    + unfold raise, bind in H2. inversion H2; subst. auto.
    + rewrite (bind_ok _ _ s1 tt s1 eq_refl) in H2.
      destruct (sweep_loop_spec index ids s1) as (s2 & Hsweep & Hst & _ & Hself).
      rewrite (bind_ok _ _ _ _ _ Hsweep) in H2.
      unfold put, modify in H2. inversion H2; subst. simpl.
      split; [assumption | ]. right. eexists. rewrite Hst, <- app_assoc.
      reflexivity.
Qed.

Lemma get_docs_failing_feed index ids tss gen e s r s' :
  raises gen = Some e ->
  get_docs iso_utc index ids tss gen s = (r, s') ->
  (exists e', r = Raise e') /\
  (forall s1,
      for_each (classify iso_utc index tss) (yields gen) s = (Ok tt, s1) ->
      r = Raise e /\ s' = s1) /\
  grows index s s'.
Proof.
  intros Hfail. unfold get_docs. rewrite Hfail. intros H.
  apply bind_inv in H as [(e' & H1 & ->) | ([] & s1 & H1 & H2)].
  - split; [eauto | ]. split.
    + intros s1 H1'. rewrite H1 in H1'. discriminate.
    + now apply feed_loop_spec in H1 as (Hg & _).
  - unfold raise, bind in H2. inversion H2; subst.
    split; [eauto | ]. split.
    + intros s1' H1'. rewrite H1 in H1'. inversion H1'. auto.
    + now apply feed_loop_spec in H1 as (Hg & _).
Qed.

(** *** [get_docs] returns on a well-behaved feed *)

Lemma classify_returns index tss item s :
  classifiable item ->
  exists s', classify iso_utc index tss item s = (Ok tt, s').
Proof.
  destruct item as [doc lazy_download].
  intros (doc_id & f & Hid & Hhash & Hlazy & r & Hrun).
  simpl in Hid, Hlazy. subst lazy_download.
  unfold classify, lift, dict_pop. rewrite Hid.
  unfold bind at 1. unfold see, bind at 1. unfold set_add. rewrite Hhash.
  set (doc1 := dict_set "id" doc_id (dict_remove "_id" doc)).
  destruct (dict_get "timestamp" doc1) as [ts | ].
  - destruct (py_eq _ ts).
    + unfold await_call. simpl. rewrite Hrun. eauto.
    + match goal with
      | |- context [upsert ?i ?d ?c ?l ?s0] =>
          destruct (upsert_spec i d c l s0) as (s2 & Hup & _)
      end.
      eauto.
  - unfold now, bind at 1.
    match goal with
    | |- context [upsert ?i ?d ?c ?l ?s0] =>
        destruct (upsert_spec i d c l s0) as (s2 & Hup & _)
    end.
    eauto.
Qed.

Lemma get_docs_returns index ids tss gen s :
  Forall classifiable (yields gen) ->
  raises gen = None ->
  exists s', get_docs iso_utc index ids tss gen s = (Ok tt, s').
Proof.
  intros Hall Hnone. unfold get_docs. rewrite Hnone.
  assert (exists s1,
             for_each (classify iso_utc index tss) (yields gen) s = (Ok tt, s1))
    as (s1 & Hloop).
  { revert s. induction Hall as [ | item items Hitem Hitems IH ]; intros s.
    - simpl. unfold ret. eauto.
    - destruct (classify_returns index tss item s Hitem) as (s0 & H0).
      destruct (IH s0) as (s1 & H1).
      exists s1. simpl. rewrite (bind_ok _ _ _ _ _ H0). exact H1. }
  rewrite (bind_ok _ _ _ _ _ Hloop).
  rewrite (bind_ok _ _ s1 tt s1 eq_refl).
  destruct (sweep_loop_spec index ids s1) as (s2 & Hsweep & _).
  rewrite (bind_ok _ _ _ _ _ Hsweep).
  unfold put, modify. eauto.
Qed.

End WithClock.

(** *** The enrichment drain *)

Lemma set_outcome_at (done rest : list download) (d : download) (data : dict) :
  set_outcome (List.length done) data (done ++ d :: rest) =
  done ++ {| coro := coro d; outcome := Ok (Some data) |} :: rest.
Proof.
  induction done as [ | x done IH ]; simpl; [reflexivity | now rewrite IH].
Qed.

Lemma set_outcome_coros (n : nat) (data : dict) (ds : list download) :
  map coro (set_outcome n data ds) = map coro ds.
Proof.
  revert n. induction ds as [ | d ds IH ]; intros [ | n ]; simpl;
    try reflexivity.
  now rewrite IH.
Qed.

Lemma popped_empty (d : download) : outcome d = Ok None -> popped d = d.
Proof. destruct d as [c o]. unfold popped. simpl. now intros ->. Qed.

(** Downloads with an empty result are skipped. *)
Lemma drain_skips index (pre : list download) :
  Forall (fun d => outcome d = Ok None) pre ->
  forall position rest s,
    drain index position (pre ++ rest) s =
    drain index (position + List.length pre) rest s.
Proof.
  induction 1 as [ | d pre Hd Hpre IH ]; intros position rest s; simpl.
  - now rewrite Nat.add_0_r.
  - unfold lift, bind at 1. rewrite Hd. rewrite IH. f_equal. lia.
Qed.

(** One download, by its outcome. *)
Lemma drain_cons index position (d : download) (pending : list download) s :
  drain index position (d :: pending) s =
  match outcome d with
  | Raise e => (Raise e, s)
  | Ok None => drain index (S position) pending s
  | Ok (Some data) =>
      match dict_get "_id" data with
      | None => (Raise (KeyError "_id"), s)
      | Some doc_id =>
          drain index (S position) pending
            {| self :=
                 with_downloads
                   (set_outcome position (dict_remove "_id" data)
                      (_downloads (self s)))
                   (self s);
               stream :=
                 stream s ++
                 [update_intent index doc_id (dict_remove "_id" data)];
               seen_ids := seen_ids s;
               awaited := awaited s;
               clock := clock s |}
      end
  end.
Proof.
  simpl. unfold lift, bind at 1.
  destruct (outcome d) as [[data | ] | e]; try reflexivity.
  unfold dict_pop, bind at 1.
  destruct (dict_get "_id" data); reflexivity.
Qed.

(** The drain over downloads it gets past. *)
Lemma drain_spec index (pending : list download) :
  Forall drainable pending ->
  forall done rest s,
    _downloads (self s) = done ++ pending ++ rest ->
    exists s',
      drain index (List.length done) pending s = (Ok tt, s') /\
      stream s' = stream s ++ flat_map (drained_intent index) pending /\
      _downloads (self s') = done ++ map popped pending ++ rest.
Proof.
  induction 1 as [ | d pending Hd Hpending IH ]; intros done rest s Hds.
  - exists s. simpl. rewrite app_nil_r. auto.
  - rewrite drain_cons.
    assert (List.length (done ++ [d]) = S (List.length done)) as Hlen
        by (rewrite length_app; simpl; lia).
    destruct Hd as [Hnone | (data & doc_id & Hsome & Hid)].
    + rewrite Hnone.
      destruct (IH (done ++ [d]) rest s) as (s' & Hrun & Hst & Hdl).
      { rewrite Hds, <- app_assoc. reflexivity. }
      rewrite Hlen in Hrun. exists s'. split; [exact Hrun | ].
      unfold drained_intent at 1. simpl flat_map. rewrite Hnone. simpl.
      split; [exact Hst | ].
      rewrite Hdl, <- app_assoc. simpl. now rewrite (popped_empty d Hnone).
    + rewrite Hsome, Hid.
      match goal with
      | |- context [drain index _ pending ?s0] =>
          destruct (IH (done ++ [popped d]) rest s0) as (s' & Hrun & Hst & Hdl)
      end.
      { simpl. rewrite Hds. simpl. rewrite set_outcome_at.
        rewrite <- app_assoc. unfold popped. rewrite Hsome. reflexivity. }
      rewrite length_app in Hrun. simpl in Hrun.
      rewrite Nat.add_1_r in Hrun.
      exists s'. split; [exact Hrun | ].
      simpl in Hst. simpl flat_map. unfold drained_intent at 1.
      rewrite Hsome, Hid. rewrite Hst, <- app_assoc. simpl.
      split; [reflexivity | ].
      rewrite Hdl, <- app_assoc. reflexivity.
Qed.

(** A drain that returns got past every download. *)
Lemma drain_ok_drainable index (pending : list download) :
  forall position s s',
    drain index position pending s = (Ok tt, s') -> Forall drainable pending.
Proof.
  induction pending as [ | d pending IH ]; intros position s s' H;
    [constructor | ].
  rewrite drain_cons in H.
  destruct (outcome d) as [[data | ] | e] eqn:Ho; [ | | discriminate ].
  - destruct (dict_get "_id" data) as [doc_id | ] eqn:Hid; [ | discriminate ].
    constructor; [right; eauto | eapply IH; eassumption].
  - constructor; [left; exact Ho | eapply IH; eassumption].
Qed.

(** Whatever the drain does, the tasks of [_downloads] stay the same. *)
Lemma drain_keeps_tasks index (pending : list download) :
  forall position s r s',
    drain index position pending s = (r, s') ->
    map coro (_downloads (self s')) = map coro (_downloads (self s)).
Proof.
  induction pending as [ | d pending IH ]; intros position s r s' H.
  - simpl in H. inversion H; subst. reflexivity.
  - rewrite drain_cons in H.
    destruct (outcome d) as [[data | ] | e].
    + destruct (dict_get "_id" data) as [doc_id | ].
      * apply IH in H. rewrite H. simpl. apply set_outcome_coros.
      * inversion H; subst. reflexivity.
    + eapply IH; eassumption.
    + inversion H; subst. reflexivity.
Qed.

Lemma get_attachments_unfold index s :
  get_attachments index s =
  match drain index 0 (_downloads (self s)) s with
  | (Ok _, s1) =>
      (Ok tt,
       {| self := self s1;
          stream := stream s1 ++ [END_DOWNLOADS];
          seen_ids := seen_ids s1;
          awaited := awaited s1;
          clock := clock s1 |})
  | (Raise e, s1) => (Raise e, s1)
  end.
Proof.
  unfold get_attachments, gets, bind at 1. unfold bind.
  destruct (drain index 0 (_downloads (self s)) s) as [[[] | e] s1]; reflexivity.
Qed.

Lemma get_attachments_keeps_tasks index s r s' :
  get_attachments index s = (r, s') ->
  map coro (_downloads (self s')) = map coro (_downloads (self s)).
Proof.
  rewrite get_attachments_unfold.
  destruct (drain index 0 (_downloads (self s)) s) as [[[] | e] s1] eqn:Hd;
    intros H; inversion H; subst; simpl;
    eapply drain_keeps_tasks; eassumption.
Qed.

Lemma drained_intent_update index d item :
  In item (drained_intent index d) -> is_update index item.
Proof.
  unfold drained_intent.
  destruct (outcome d) as [[data | ] | e]; simpl; try tauto.
  destruct (dict_get "_id" data) as [doc_id | ]; simpl; try tauto.
  intros [<- | []]. unfold is_update. eauto.
Qed.

(** *** The scenario of the spec *)

Lemma deletes_are_snapshot_minus_feed_witness :
  exists updates deleted,
    stream (snd (get_docs Examples.clock_reading Examples.index
                   [VStr "id1"; VStr "id2"]
                   [(VStr "id1", VStr "t0"); (VStr "id2", VStr "t0")]
                   Examples.feed (pass_init init))) =
      updates ++ map (delete_intent Examples.index) deleted ++ [END_DOCS] /\
    Forall (is_update Examples.index) updates /\
    NoDup deleted /\
    (forall id,
        In id deleted <->
        In id (snapshot_ids Examples.snapshot) /\
        ~ In id (feed_ids Examples.feed)).
Proof.
  apply (deletes_are_snapshot_minus_feed Examples.clock_reading init
           Examples.index Examples.snapshot Examples.feed
           [VStr "id1"; VStr "id2"]
           [(VStr "id1", VStr "t0"); (VStr "id2", VStr "t0")]).
  - reflexivity.
  - reflexivity.
Defined.

(** In the scenario, [get_docs] awaits the download of id1 with
    [doit=False], schedules the download of id3, and puts the update of
    id3, the delete of id2 and END_DOCS. *)
Example scenario_get_docs :
  let s' := snd (get_docs Examples.clock_reading Examples.index
                   [VStr "id1"; VStr "id2"]
                   [(VStr "id1", VStr "t0"); (VStr "id2", VStr "t0")]
                   Examples.feed (pass_init init)) in
  stream s' =
    [update_intent Examples.index (VStr "id3")
       [("timestamp", VStr "t1"); ("id", VStr "id3")];
     delete_intent Examples.index (VStr "id2");
     END_DOCS] /\
  map (fun c => (dl_name (callee c), doit c)) (awaited s') = [("id1", false)] /\
  map (fun d => (dl_name (callee (coro d)), doit (coro d)))
      (_downloads (self s')) = [("id3", true)].
Proof. repeat split. Qed.

Lemma unchanged_document_is_skipped_witness :
  exists r s',
    classify Examples.clock_reading Examples.index
      [(VStr "id1", VStr "t0"); (VStr "id2", VStr "t0")]
      ([("_id", VStr "id1"); ("timestamp", VStr "t0")],
       Some (FakeSources._dl "id1"))
      (pass_init init) = (r, s') /\
    stream s' = stream (pass_init init) /\
    _downloads (self s') = _downloads (self (pass_init init)) /\
    awaited s' =
      awaited (pass_init init) ++
      [{| callee := FakeSources._dl "id1"; doit := false; timestamp := None |}] /\
    r = match dl_run (FakeSources._dl "id1") false None with
        | Ok _ => Ok tt
        | Raise e => Raise e
        end.
Proof.
  apply (unchanged_document_is_skipped Examples.clock_reading Examples.index
           [(VStr "id1", VStr "t0"); (VStr "id2", VStr "t0")]
           [("_id", VStr "id1"); ("timestamp", VStr "t0")]
           (Some (FakeSources._dl "id1")) (pass_init init)
           (VStr "id1") (VStr "t0") (VStr "t0"));
    reflexivity.
Defined.

(** An unchanged document yielded without a [lazy_download] stops the
    task: the changed branch tests [lazy_download is not None], the
    unchanged branch does not. *)
Example unchanged_document_without_download :
  get_docs Examples.clock_reading Examples.index
    [VStr "id1"] [(VStr "id1", VStr "t0")]
    {| yields := [([("_id", VStr "id1"); ("timestamp", VStr "t0")], None)];
       raises := None |}
    (pass_init init)
  = (Raise (TypeError "'NoneType' object is not callable"),
     {| self := init; stream := []; seen_ids := [VStr "id1"];
        awaited := []; clock := 0 |}).
Proof. reflexivity. Qed.

(** *** C6: a feed that raises *)

(** Against C6 as stated.  The feed of [failing_feed] raises after its
    first document: the task ends with the exception, END_DOCS is not on the queue, and the writer
    stays blocked even once the drain has put END_DOWNLOADS. *)
Lemma failing_feed_no_end_docs :
  fst Examples.failing_get_docs = Raise (Exception "I fail while syncing") /\
  ~ In END_DOCS (stream (snd Examples.failing_get_docs)) /\
  fst (_bulk init (stream (snd Examples.failing_get_docs) ++ [END_DOWNLOADS]))
    = Pending.
Proof.
  split; [reflexivity | ]. split; [ | reflexivity ].
  simpl. intros [H | []]. discriminate.
Qed.

Lemma async_bulk_failing_feed iso_utc server index gen es_docs sched e :
  raises gen = Some e ->
  exists e', fst (async_bulk iso_utc server index gen es_docs sched) = Raises e'.
Proof.
  intros Hfail. unfold async_bulk.
  destruct (read_existing es_docs [] []) as [[ids tss] | e0];
    [ | simpl; eauto ].
  destruct (get_docs iso_utc index ids tss gen (pass_init server))
    as [r1 s1] eqn:H1.
  destruct (get_docs_failing_feed _ _ _ _ _ _ _ _ _ Hfail H1)
    as ((e1 & ->) & _ & _).
  destruct (get_attachments index _) as [r2 s2].
  destruct (_bulk _ _) as [r3 server3].
  cbn [ending_of].
  destruct (gather_raises (finish sched) [Raised e1; ending_of r2; r3] e1)
    as (e' & -> & _); [now left | ].
  cbn. eauto.
Qed.

(** [FakeSource] with its [fail] flag: the pass raises the exception of
    the source. *)
Example fake_source_fails :
  fst (async_bulk Examples.clock_reading init Examples.index
         (FakeSources.FakeSource true) [] Examples.plain_schedule)
  = Raises (Exception "I fail while syncing").
Proof. reflexivity. Qed.

(** *** C7: a download that raises *)

(** Against C7 as stated.  The third download of
    [server_with_broken_download] fails: the drain ends with its exception; END_DOWNLOADS is not put, and neither is
    the result of the fourth download. *)
Lemma failing_download_no_end_downloads :
  fst Examples.failing_drain = Raise (Exception "download failed") /\
  ~ In END_DOWNLOADS (stream (snd Examples.failing_drain)) /\
  List.length (stream (snd Examples.failing_drain)) = 1.
Proof.
  split; [reflexivity | ]. split; [ | reflexivity ].
  simpl. intros [H | []]. discriminate.
Qed.

Lemma first_stop (ds : list download) :
  Forall drainable ds \/
  exists pre d post e,
    ds = pre ++ d :: post /\ Forall drainable pre /\ stops_drain d e.
Proof.
  induction ds as [ | d ds IH ]; [left; constructor | ].
  destruct (outcome d) as [ [data | ] | e ] eqn:Hd.
  - destruct (dict_get "_id" data) as [doc_id | ] eqn:Hid.
    + destruct IH as [Hall | (pre & x & post & e & -> & Hpre & Hx)].
      * left. constructor; [ | assumption ]. right. eauto.
      * right. exists (d :: pre), x, post, e.
        split; [reflexivity | ]. split; [ | assumption ].
        constructor; [ | assumption ]. right. eauto.
    + right. exists [], d, ds, (KeyError "_id").
      split; [reflexivity | ]. split; [constructor | ]. right. eauto.
  - destruct IH as [Hall | (pre & x & post & e & -> & Hpre & Hx)].
    + left. constructor; [ | assumption ]. now left.
    + right. exists (d :: pre), x, post, e.
      split; [reflexivity | ]. split; [ | assumption ].
      constructor; [ | assumption ]. now left.
  - right. exists [], d, ds, e.
    split; [reflexivity | ]. split; [constructor | ]. now left.
Qed.

Lemma drain_stops index (pre : list download) (d : download)
    (post : list download) (e : exn) :
  Forall drainable pre ->
  stops_drain d e ->
  forall position s s1,
    drain index position pre s = (Ok tt, s1) ->
    drain index position (pre ++ d :: post) s = (Raise e, s1).
Proof.
  intros Hpre Hd.
  induction Hpre as [ | x pre Hx Hpre IH ]; intros position s s1 Hrun.
  - simpl in Hrun. inversion Hrun; subst.
    simpl app. rewrite drain_cons.
    destruct Hd as [-> | (data & -> & -> & ->)]; reflexivity.
  - simpl app. rewrite drain_cons in Hrun |- *.
    destruct (outcome x) as [[data | ] | e0]; [ | auto | discriminate ].
    destruct (dict_get "_id" data); [auto | discriminate].
Qed.

(** C7, amended.  The drain awaits the downloads in order and catches
    nothing.  A download with an empty result is skipped, one whose
    result is a dict holding "_id" gives one update, and END_DOWNLOADS is
    put, after the last download, exactly when every download is of
    these two kinds.  Otherwise the first download that raises when
    awaited, or whose result is a dict without "_id", ends the drain
    with that exception (KeyError("_id") for the latter): the drain has
    put the updates of the downloads before it only, the downloads
    after it are not awaited and END_DOWNLOADS is not put. *)
Theorem failing_download_ends_the_drain (index : value) (s : pass) :
  (Forall drainable (_downloads (self s)) ->
   exists s',
     get_attachments index s = (Ok tt, s') /\
     stream s' =
       stream s ++ flat_map (drained_intent index) (_downloads (self s)) ++
       [END_DOWNLOADS]) /\
  (forall s',
      get_attachments index s = (Ok tt, s') ->
      Forall drainable (_downloads (self s))) /\
  (forall pre d post e,
      _downloads (self s) = pre ++ d :: post ->
      Forall drainable pre ->
      stops_drain d e ->
      exists s',
        get_attachments index s = (Raise e, s') /\
        stream s' = stream s ++ flat_map (drained_intent index) pre /\
        ~ In END_DOWNLOADS (flat_map (drained_intent index) pre) /\
        _downloads (self s') = map popped pre ++ d :: post) /\
  (Forall drainable (_downloads (self s)) \/
   exists pre d post e,
     _downloads (self s) = pre ++ d :: post /\
     Forall drainable pre /\
     stops_drain d e).
Proof.
  split; [ | split; [ | split ] ].
  - intros Hall.
    destruct (drain_spec index _ Hall [] [] s) as (s1 & Hrun & Hst & _).
    { now rewrite app_nil_r. }
    simpl in Hrun. rewrite get_attachments_unfold, Hrun.
    eexists. split; [reflexivity | ]. simpl. now rewrite Hst, <- app_assoc.
  - intros s' Hrun. rewrite get_attachments_unfold in Hrun.
    destruct (drain index 0 (_downloads (self s)) s) as [[[] | e] s1] eqn:Hdrain;
      [ | discriminate ].
    eapply drain_ok_drainable; eassumption.
  - intros pre d post e Hds Hpre Hd.
    destruct (drain_spec index _ Hpre [] (d :: post) s)
      as (s1 & Hrun & Hst & Hdl).
    { exact Hds. }
    simpl in Hrun, Hdl.
    pose proof (drain_stops index pre d post e Hpre Hd _ _ _ Hrun) as Hall.
    rewrite get_attachments_unfold, Hds, Hall.
    exists s1. split; [reflexivity | ]. split; [exact Hst | ].
    split; [ | exact Hdl ].
    intros Hin. apply in_flat_map in Hin as (x & _ & Hx).
    apply drained_intent_update in Hx as (doc_id & doc & Heq). discriminate.
  - apply first_stop.
Qed.

Lemma failing_download_ends_the_drain_witness :
  exists s',
    get_attachments Examples.index
      (pass_init Examples.server_with_broken_download)
    = (Raise (Exception "download failed"), s') /\
    stream s' =
      [] ++ flat_map (drained_intent Examples.index)
              [Examples.scheduled (FakeSources._dl "1");
               Examples.scheduled Examples.empty] /\
    ~ In END_DOWNLOADS
        (flat_map (drained_intent Examples.index)
           [Examples.scheduled (FakeSources._dl "1");
            Examples.scheduled Examples.empty]) /\
    _downloads (self s') =
      map popped [Examples.scheduled (FakeSources._dl "1");
                  Examples.scheduled Examples.empty] ++
      Examples.scheduled Examples.broken ::
      [Examples.scheduled (FakeSources._dl "4")].
Proof.
  apply (proj1 (proj2 (proj2
           (failing_download_ends_the_drain Examples.index
              (pass_init Examples.server_with_broken_download))))
           [Examples.scheduled (FakeSources._dl "1");
            Examples.scheduled Examples.empty]
           (Examples.scheduled Examples.broken)
           [Examples.scheduled (FakeSources._dl "4")]
           (Exception "download failed")).
  - reflexivity.
  - constructor; [ | constructor; [ | constructor ] ].
    + right. eexists; eexists. split; reflexivity.
    + left. reflexivity.
  - left. reflexivity.
Defined.

(** A download that raises nothing stops the drain as well: the task
    drained by [first_drain] gives its dict again, without "_id". *)
Example drained_download_stops_the_drain :
  _downloads (self (snd Examples.first_drain))
  = [popped (Examples.scheduled (FakeSources._dl "1"))] /\
  stops_drain (popped (Examples.scheduled (FakeSources._dl "1")))
    (KeyError "_id") /\
  fst Examples.second_drain = Raise (KeyError "_id") /\
  ~ In END_DOWNLOADS (stream (snd Examples.second_drain)).
Proof.
  split; [reflexivity | ].
  split; [right; eexists; repeat split; reflexivity | ].
  split; [reflexivity | ]. cbn. tauto.
Qed.

(** *** C10: the downloads of earlier passes *)

Lemma _bulk_keeps_downloads (server : ElasticServer) (queue : list value) :
  _downloads (snd (_bulk server queue)) = _downloads server.
Proof.
  unfold _bulk. destruct (bulk_loop _ _ _); simpl;
    now rewrite fold_batch_bulk_downloads.
Qed.

Lemma get_docs_keeps_downloads iso_utc index ids tss gen s r s' :
  get_docs iso_utc index ids tss gen s = (r, s') ->
  exists tasks, _downloads (self s') = _downloads (self s) ++ tasks.
Proof.
  intros H. apply get_docs_grows in H as (s1 & [_ Hd _ _ _] & Hself & _).
  rewrite Hself. exact Hd.
Qed.

Lemma async_bulk_keeps_downloads iso_utc server index gen es_docs sched
    ids tss :
  read_existing es_docs [] [] = Ok (ids, tss) ->
  map coro (_downloads (snd (async_bulk iso_utc server index gen es_docs sched)))
  = map coro
      (_downloads (self (snd (get_docs iso_utc index ids tss gen
                                (pass_init server))))).
Proof.
  intros Hread. unfold async_bulk. rewrite Hread.
  destruct (get_docs iso_utc index ids tss gen (pass_init server))
    as [r1 s1] eqn:H1.
  destruct (get_attachments index _) as [r2 s2] eqn:H2.
  apply get_attachments_keeps_tasks in H2. simpl in H2.
  destruct (_bulk _ _) as [r3 server3] eqn:H3.
  assert (_downloads server3 = _downloads (snd (_bulk
            (with_downloads
               (_downloads (self s2) ++
                skipn (List.length (_downloads server) + drain_sees sched)
                  (_downloads (self s1))) (self s2))
            (interleave (order sched) (stream s1) (stream s2))))) as Hd
      by (now rewrite H3).
  rewrite _bulk_keeps_downloads in Hd. simpl in Hd.
  assert (map coro (_downloads server3) = map coro (_downloads (self s1))) as Hm.
  { rewrite Hd, map_app, H2, <- map_app, firstn_skipn. reflexivity. }
  destruct (gather _); simpl; exact Hm.
Qed.

Lemma first_nonempty (ds : list download) :
  Forall drainable ds ->
  (exists d data, In d ds /\ outcome d = Ok (Some data)) ->
  exists pre d data post,
    ds = pre ++ d :: post /\
    Forall (fun x => outcome x = Ok None) pre /\
    outcome d = Ok (Some data).
Proof.
  induction 1 as [ | x ds Hx Hds IH ]; intros (d & data & Hin & Hd);
    [contradiction | ].
  destruct Hx as [Hnone | (data' & doc_id & Hsome & _)].
  - destruct Hin as [-> | Hin]; [congruence | ].
    destruct IH as (pre & d' & data'' & post & -> & Hpre & Hd'); [eauto | ].
    exists (x :: pre), d', data'', post. repeat split; auto.
  - exists [], x, data', ds. repeat split; auto.
Qed.

(** After a drain that returned, no result holds an ["_id"] any more. *)
Lemma popped_has_no_id (d : download) :
  drainable d ->
  outcome (popped d) = Ok None \/
  exists data, outcome (popped d) = Ok (Some data) /\ dict_get "_id" data = None.
Proof.
  unfold popped. simpl.
  intros [-> | (data & doc_id & -> & _)]; [auto | ].
  right. eexists. split; [reflexivity | apply dict_get_remove_eq].
Qed.

(** C10, amended.  [_downloads] is never cleared: after [async_bulk] the
    list holds the tasks it held before and every task [get_docs]
    scheduled in the pass.  A later drain on the same server awaits those
    tasks again, but a result the earlier drain has put is not put again:
    the earlier drain popped "_id" from the dict the task holds, so the
    later drain stops with KeyError("_id") at the first task with a
    non-empty result, having put nothing. *)
Theorem downloads_outlive_the_pass :
  (forall iso_utc server index gen es_docs sched ids tss,
      read_existing es_docs [] [] = Ok (ids, tss) ->
      map coro
        (_downloads (snd (async_bulk iso_utc server index gen es_docs sched)))
      = map coro
          (_downloads (self (snd (get_docs iso_utc index ids tss gen
                                    (pass_init server))))) /\
      exists tasks,
        _downloads (self (snd (get_docs iso_utc index ids tss gen
                                 (pass_init server))))
        = _downloads server ++ tasks) /\
  (forall index s s1,
      get_attachments index s = (Ok tt, s1) ->
      map coro (_downloads (self s1)) = map coro (_downloads (self s)) /\
      (forall d,
          In d (_downloads (self s1)) ->
          outcome d = Ok None \/
          exists data,
            outcome d = Ok (Some data) /\ dict_get "_id" data = None) /\
      (forall s2 later,
          _downloads (self s2) = _downloads (self s1) ++ later ->
          (exists d data,
              In d (_downloads (self s)) /\ outcome d = Ok (Some data)) ->
          get_attachments index s2 = (Raise (KeyError "_id"), s2))).
Proof.
  split.
  - intros iso_utc server index gen es_docs sched ids tss Hread.
    split; [now apply async_bulk_keeps_downloads | ].
    destruct (get_docs iso_utc index ids tss gen (pass_init server))
      as [r s'] eqn:H.
    apply get_docs_keeps_downloads in H. exact H.
  - intros index s s1 Hrun.
    split; [eapply get_attachments_keeps_tasks; eassumption | ].
    rewrite get_attachments_unfold in Hrun.
    destruct (drain index 0 (_downloads (self s)) s) as [[[] | e] s0] eqn:Hd;
      [ | discriminate ].
    pose proof (drain_ok_drainable _ _ _ _ _ Hd) as Hall.
    destruct (drain_spec index _ Hall [] [] s) as (s0' & Hd' & _ & Hdl).
    { now rewrite app_nil_r. }
    simpl in Hd', Hdl. rewrite Hd in Hd'. inversion Hd'; subst s0'.
    rewrite app_nil_r in Hdl.
    inversion Hrun; subst s1. simpl. rewrite Hdl.
    split.
    + intros d Hin. apply in_map_iff in Hin as (x & <- & Hx).
      apply popped_has_no_id. rewrite Forall_forall in Hall. auto.
    + intros s2 later Hs2 Hsome.
      destruct (first_nonempty _ Hall Hsome)
        as (pre & d & data & post & Hsplit & Hpre & Hdata).
      rewrite get_attachments_unfold, Hs2, Hsplit.
      rewrite map_app, <- app_assoc.
      rewrite drain_skips.
      2:{ rewrite Forall_forall in *. intros x Hx.
          apply in_map_iff in Hx as (y & <- & Hy).
          rewrite (popped_empty y); auto. }
      simpl map. simpl app. rewrite drain_cons.
      unfold popped at 1. simpl outcome. rewrite Hdata.
      now rewrite dict_get_remove_eq.
Qed.

Lemma downloads_outlive_the_pass_witness :
  get_attachments Examples.index
    (pass_init (self (snd Examples.first_drain))) =
  (Raise (KeyError "_id"), pass_init (self (snd Examples.first_drain))).
Proof.
  apply (proj2 (proj2 (proj2 downloads_outlive_the_pass
                         Examples.index
                         (pass_init
                            (with_downloads
                               [Examples.scheduled (FakeSources._dl "1")] init))
                         (snd Examples.first_drain) eq_refl))
           (pass_init (self (snd Examples.first_drain))) []).
  - simpl. reflexivity.
  - exists (Examples.scheduled (FakeSources._dl "1")). eexists.
    split; [left; reflexivity | reflexivity].
Defined.

(** Against C10 as stated.  Two passes of [FakeSource] on one server: the
    first returns; in the second, the drain awaits the task of the first pass again and stops
    with KeyError("_id") without putting anything, and the pass raises. *)
Lemma second_pass_does_not_put_again :
  fst Examples.fake_pass = Returns [] /\
  List.length (_downloads (snd Examples.fake_pass)) = 1 /\
  fst (get_attachments Examples.index (pass_init (snd Examples.fake_pass)))
    = Raise (KeyError "_id") /\
  stream (snd (get_attachments Examples.index
                 (pass_init (snd Examples.fake_pass)))) = [] /\
  fst Examples.second_fake_pass = Raises (KeyError "_id").
Proof. repeat split. Qed.

(** *** C5: the value [async_bulk] returns *)

Lemma async_bulk_returns_empty iso_utc server index gen es_docs sched res :
  fst (async_bulk iso_utc server index gen es_docs sched) = Returns res ->
  res = [].
Proof.
  unfold async_bulk.
  destruct (read_existing es_docs [] []) as [[ids tss] | e]; [ | discriminate ].
  destruct (get_docs _ _ _ _ _ _) as [r1 s1].
  destruct (get_attachments _ _) as [r2 s2].
  destruct (_bulk _ _) as [r3 server3].
  destruct (gather _); simpl; [ | discriminate | discriminate ].
  now intros [= <-].
Qed.

(** C5.  A pass of [FakeSource] on an empty index indexes two documents
    (the document and its download) in one bulk call, and [async_bulk]
    returns the empty dict: the value never holds a count.  Whatever the
    pass, a returned value is the empty dict. *)
Theorem async_bulk_result_is_empty :
  fst Examples.fake_pass = Returns [] /\
  indexed_pages_count (snd Examples.fake_pass) = 2 /\
  List.length (bulk_calls (snd Examples.fake_pass)) = 1 /\
  (forall iso_utc server index gen es_docs sched,
      match fst (async_bulk iso_utc server index gen es_docs sched) with
      | Returns res => res = []
      | Raises _ | NeverReturns => True
      end).
Proof.
  repeat split.
  intros iso_utc server index gen es_docs sched.
  destruct (fst (async_bulk iso_utc server index gen es_docs sched)) eqn:E;
    [ | exact I | exact I ].
  eapply async_bulk_returns_empty. exact E.
Qed.

(** The scenario of the spec does not return at all: the delete of id2
    makes the writer fail. *)
Example scenario_pass_raises :
  fst (async_bulk Examples.clock_reading init Examples.index
         Examples.feed Examples.snapshot Examples.plain_schedule)
  = Raises (KeyError "doc").
Proof. reflexivity. Qed.

End PassFacts.

(* ================================================================== *)
(** ** More on the bulk writer *)
(* ================================================================== *)

Module BulkMoreFacts.

Import Byoei ByoeiMore PyFacts BulkFacts.

(** [append_action] appends the entries of the item, and flushes when the
    batch has reached the threshold. *)
Lemma append_action_entries (T : nat) (b b' : bulker) (doc : value) :
  append_action T b doc = Ok b' ->
  exists header body,
    action_entries doc = Ok [header; body] /\
    (batch b' = batch b ++ [header; body] /\ ops b' = ops b \/
     batch b' = [] /\ ops b' = ops b ++ [batch b ++ [header; body]]).
Proof.
  unfold append_action, action_entries, and_then.
  destruct (getitem doc "_op_type") as [op | ]; [ | discriminate ].
  destruct (getitem doc "_index") as [index | ]; [ | discriminate ].
  destruct (getitem doc "_id") as [id | ]; [ | discriminate ].
  destruct (as_key op) as [name | ]; [ | discriminate ].
  destruct (getitem doc "doc") as [body | ]; [ | discriminate ].
  intros H. eexists; eexists. split; [reflexivity | ].
  destruct (py_eq op (VStr "update"));
    rewrite <- app_assoc in H; simpl in H;
    destruct (Nat.leb _ _); inversion H; subst; simpl; auto.
Qed.

Lemma entries_of_appended (T : nat) (b b' : bulker) (doc : value) :
  append_action T b doc = Ok b' ->
  List.length (entries_of doc) = 2 /\
  List.concat (ops b') ++ batch b' = (List.concat (ops b) ++ batch b) ++ entries_of doc.
Proof.
  intros H. apply append_action_entries in H
    as (header & body & Hentries & [[Hb Ho] | [Hb Ho]]);
    unfold entries_of; rewrite Hentries; (split; [reflexivity | ]);
    rewrite Hb, Ho.
  - now rewrite app_assoc.
  - rewrite concat_app. simpl. rewrite !app_nil_r. now rewrite app_assoc.
Qed.

(** The entries dispatched or still in the batch are those of the
    write-intents read, in the order they were read. *)
Lemma bulk_loop_entries (T : nat) (queue : list value) :
  forall (b b' : bulker) (rest : list value),
    docs_ended b && downloads_ended b = false ->
    bulk_loop T b queue = Exited b' rest ->
    exists pre,
      queue = pre ++ rest /\
      Forall (fun doc => exists entries, action_entries doc = Ok entries)
        (intents pre) /\
      List.concat (ops b') ++ batch b' =
      (List.concat (ops b) ++ batch b) ++ flat_map entries_of (intents pre).
Proof.
  induction queue as [ | doc q IH ]; intros b b' rest Hflags Hloop;
    [discriminate | ].
  simpl in Hloop.
  destruct (bulk_step_cases T b doc Hflags)
    as [(Hm & b1 & Hd & Hw & Hb & Ho & [[Hboth Hstep] | [Hnot Hstep]])
       | (Hm & [(b2 & Happ & Hstep) | (e & Happ & Hstep)])];
    rewrite Hstep in Hloop.
  - inversion Hloop; subst b' rest. exists [doc].
    rewrite (intents_marker _ _ Hm). simpl.
    rewrite app_nil_r, Hb, Ho. repeat split. constructor.
  - destruct (IH b1 b' rest Hnot Hloop) as (pre & Hq & Hall & Hcat).
    exists (doc :: pre). rewrite (intents_marker _ _ Hm).
    rewrite <- Hb, <- Ho. split; [simpl; congruence | auto].
  - pose proof (append_action_spec _ _ _ _ Happ) as (Hd & Hw & _).
    assert (docs_ended b2 && downloads_ended b2 = false) as Hflags2
        by (rewrite Hd, Hw; assumption).
    destruct (IH b2 b' rest Hflags2 Hloop) as (pre & Hq & Hall & Hcat).
    exists (doc :: pre). rewrite (intents_intent _ _ Hm).
    split; [simpl; congruence | ].
    destruct (append_action_entries _ _ _ _ Happ) as (h & bd & Hentries & _).
    split; [constructor; eauto | ].
    apply entries_of_appended in Happ as [_ Happ].
    simpl flat_map. rewrite Hcat, Happ, <- !app_assoc. reflexivity.
  - discriminate.
Qed.

(** X1.  On a run of the bulk writer that completes, the operations of
    the dispatched bulk calls, put end to end, are the metadata and body
    of each write-intent read from the queue, in queue order: no intent is
    lost, repeated or reordered by the batching. *)
Theorem bulk_calls_are_the_intents_in_order
    (server server' : ElasticServer) (queue : list value) :
  _bulk server queue = (Done, server') ->
  exists calls,
    bulk_calls server' = bulk_calls server ++ calls /\
    List.concat calls =
      flat_map entries_of
        (intents (observed queue
                    (bulk_loop (chunk_size server) bulker_init queue))) /\
    Forall (fun doc => exists entries, action_entries doc = Ok entries)
      (intents (observed queue
                  (bulk_loop (chunk_size server) bulker_init queue))).
Proof.
  intros Hrun.
  assert (fst (_bulk server queue) = Done) as Hdone by (now rewrite Hrun).
  apply _bulk_Done in Hdone as (b & rest & Hloop).
  destruct (bulk_loop_entries _ queue bulker_init b rest eq_refl Hloop)
    as (pre & Hq & Hall & Hcat).
  assert (observed queue (bulk_loop (chunk_size server) bulker_init queue) = pre)
    as Hobs by (apply observed_prefix; rewrite Hloop; exact Hq).
  rewrite Hobs. exists (ops (final_flush b)).
  split; [ | split; [ | exact Hall ] ].
  - unfold _bulk in Hrun. simpl in Hrun. rewrite Hloop in Hrun.
    inversion Hrun. now rewrite fold_batch_bulk_calls.
  - simpl in Hcat. rewrite <- Hcat, final_flush_ops, concat_app.
    destruct (batch b); simpl; now rewrite ?app_nil_r.
Qed.

Lemma bulk_calls_are_the_intents_in_order_witness :
  exists calls,
    bulk_calls (snd (_bulk Examples.small_server Examples.five_updates)) =
      bulk_calls Examples.small_server ++ calls /\
    List.concat calls =
      flat_map entries_of
        (intents (observed Examples.five_updates
                    (bulk_loop (chunk_size Examples.small_server) bulker_init
                       Examples.five_updates))) /\
    Forall (fun doc => exists entries, action_entries doc = Ok entries)
      (intents (observed Examples.five_updates
                  (bulk_loop (chunk_size Examples.small_server) bulker_init
                     Examples.five_updates))).
Proof.
  apply (bulk_calls_are_the_intents_in_order Examples.small_server
           (snd (_bulk Examples.small_server Examples.five_updates))
           Examples.five_updates).
  reflexivity.
Defined.

(** *** The counter of indexed pages *)

Lemma fold_batch_bulk_count (calls : list (list value)) (self : ElasticServer) :
  indexed_pages_count (fold_left batch_bulk calls self) =
  indexed_pages_count self + pages calls.
Proof.
  revert self. induction calls as [ | c calls IH ]; intros self; simpl.
  - lia.
  - rewrite IH. simpl. lia.
Qed.

Lemma pages_app (l1 l2 : list (list value)) :
  pages (l1 ++ l2) = pages l1 + pages l2.
Proof. induction l1 as [ | c l1 IH ]; simpl; lia. Qed.

(** Batches hold whole actions: the entries counted so far are twice the
    write-intents read. *)
Lemma bulk_loop_pages (T : nat) (queue : list value) :
  forall (b b' : bulker) (rest : list value) (k : nat),
    docs_ended b && downloads_ended b = false ->
    List.length (batch b) = 2 * k ->
    bulk_loop T b queue = Exited b' rest ->
    exists pre k',
      queue = pre ++ rest /\
      List.length (batch b') = 2 * k' /\
      pages (ops b') + k' = pages (ops b) + k + List.length (intents pre).
Proof.
  induction queue as [ | doc q IH ]; intros b b' rest k Hflags Hlen Hloop;
    [discriminate | ].
  simpl in Hloop.
  destruct (bulk_step_cases T b doc Hflags)
    as [(Hm & b1 & Hd & Hw & Hb & Ho & [[Hboth Hstep] | [Hnot Hstep]])
       | (Hm & [(b2 & Happ & Hstep) | (e & Happ & Hstep)])];
    rewrite Hstep in Hloop.
  - inversion Hloop; subst b' rest. exists [doc], k.
    rewrite (intents_marker _ _ Hm), Hb, Ho. simpl. repeat split; auto; lia.
  - assert (List.length (batch b1) = 2 * k) as Hlen1 by congruence.
    destruct (IH b1 b' rest k Hnot Hlen1 Hloop) as (pre & k' & Hq & Hk' & Hp).
    exists (doc :: pre), k'. rewrite (intents_marker _ _ Hm).
    rewrite <- Ho. split; [simpl; congruence | auto].
  - pose proof (append_action_spec _ _ _ _ Happ) as (Hd & Hw & _).
    assert (docs_ended b2 && downloads_ended b2 = false) as Hflags2
        by (rewrite Hd, Hw; assumption).
    destruct (append_action_entries _ _ _ _ Happ)
      as (h & bd & _ & [[Hb Ho] | [Hb Ho]]).
    + assert (List.length (batch b2) = 2 * S k) as Hlen2.
      { rewrite Hb, length_app, Hlen. simpl. lia. }
      destruct (IH b2 b' rest (S k) Hflags2 Hlen2 Hloop)
        as (pre & k' & Hq & Hk' & Hp).
      exists (doc :: pre), k'. rewrite (intents_intent _ _ Hm).
      split; [simpl; congruence | ]. split; [exact Hk' | ].
      rewrite Ho in Hp. cbn [List.length]. lia.
    + assert (List.length (batch b2) = 2 * 0) as Hlen2 by (now rewrite Hb).
      destruct (IH b2 b' rest 0 Hflags2 Hlen2 Hloop)
        as (pre & k' & Hq & Hk' & Hp).
      exists (doc :: pre), k'. rewrite (intents_intent _ _ Hm).
      split; [simpl; congruence | ]. split; [exact Hk' | ].
      assert (pages [batch b ++ [h; bd]] = S k) as Hone.
      { unfold pages. cbn [fold_right]. rewrite length_app, Hlen.
        cbn [List.length]. replace (2 * k + 2) with (S k * 2) by lia.
        rewrite Nat.div_mul by lia. lia. }
      rewrite Ho, pages_app, Hone in Hp.
      cbn [List.length]. lia.
  - discriminate.
Qed.

(** X2.  On a run that completes, [indexed_pages_count] has grown by
    exactly the number of write-intents read from the queue, whatever the
    flush threshold. *)
Theorem indexed_pages_count_counts_intents
    (server server' : ElasticServer) (queue : list value) :
  _bulk server queue = (Done, server') ->
  indexed_pages_count server' =
  indexed_pages_count server +
  List.length
    (intents (observed queue
                (bulk_loop (chunk_size server) bulker_init queue))).
Proof.
  intros Hrun.
  assert (fst (_bulk server queue) = Done) as Hdone by (now rewrite Hrun).
  apply _bulk_Done in Hdone as (b & rest & Hloop).
  destruct (bulk_loop_pages _ queue bulker_init b rest 0 eq_refl eq_refl Hloop)
    as (pre & k' & Hq & Hk' & Hp).
  assert (observed queue (bulk_loop (chunk_size server) bulker_init queue) = pre)
    as Hobs by (apply observed_prefix; rewrite Hloop; exact Hq).
  rewrite Hobs.
  unfold _bulk in Hrun. simpl in Hrun. rewrite Hloop in Hrun.
  inversion Hrun. rewrite fold_batch_bulk_count. simpl.
  rewrite final_flush_ops, pages_app. simpl in Hp.
  destruct (batch b) as [ | x l ] eqn:Eb.
  - simpl in Hk'. simpl. lia.
  - unfold pages at 2. cbn [fold_right]. rewrite Hk'.
    replace (2 * k') with (k' * 2) by lia.
    rewrite Nat.div_mul by lia. lia.
Qed.

Lemma indexed_pages_count_counts_intents_witness :
  indexed_pages_count (snd (_bulk Examples.small_server Examples.five_updates))
  = indexed_pages_count Examples.small_server +
    List.length
      (intents (observed Examples.five_updates
                  (bulk_loop (chunk_size Examples.small_server) bulker_init
                     Examples.five_updates))).
Proof.
  apply (indexed_pages_count_counts_intents Examples.small_server
           (snd (_bulk Examples.small_server Examples.five_updates))
           Examples.five_updates).
  reflexivity.
Defined.

End BulkMoreFacts.

(* ================================================================== *)
(** ** More on [get_docs] *)
(* ================================================================== *)

Module FeedMoreFacts.

Import Byoei ByoeiMore PyFacts BulkFacts PassFacts.

Local Open Scope task_scope.

Lemma renamed_id_indexable (doc : dict) (doc_id ts : value) :
  dict_get "timestamp" doc = Some ts ->
  indexable doc_id (dict_set "id" doc_id (dict_remove "_id" doc)).
Proof.
  intros Hts. repeat split.
  - apply dict_get_set_eq.
  - rewrite dict_get_set_ne by discriminate. apply dict_get_remove_eq.
  - rewrite renamed_id_keeps_timestamp, Hts. discriminate.
Qed.

Lemma stamped_indexable (doc : dict) (doc_id ts : value) :
  indexable doc_id
    (dict_set "timestamp" ts (dict_set "id" doc_id (dict_remove "_id" doc))).
Proof.
  repeat split.
  - rewrite dict_get_set_ne by discriminate. apply dict_get_set_eq.
  - rewrite !dict_get_set_ne by discriminate. apply dict_get_remove_eq.
  - rewrite dict_get_set_eq. discriminate.
Qed.

Section WithClock.

Variable iso_utc : nat -> string.

(** What one feed item adds to the queue and to the downloads. *)
Lemma classify_adds index tss doc lazy_download s r s' :
  classify iso_utc index tss (doc, lazy_download) s = (r, s') ->
  (stream s' = stream s /\ _downloads (self s') = _downloads (self s)) \/
  (exists doc_id doc' ts,
      r = Ok tt /\
      stream s' = stream s ++ [update_intent index doc_id doc'] /\
      indexable doc_id doc' /\
      dict_get "timestamp" doc' = Some ts /\
      _downloads (self s') =
        _downloads (self s) ++
        match lazy_download with
        | Some f =>
            [create_task {| callee := f; doit := true; timestamp := Some ts |}]
        | None => []
        end).
Proof.
  unfold classify, lift, dict_pop.
  destruct (dict_get "_id" doc) as [doc_id | ] eqn:Hid.
  2:{ unfold bind. intros [= <- <-]. auto. }
  unfold bind at 1. unfold see, bind at 1.
  destruct (set_add doc_id (seen_ids s)) as [seen | e0].
  2:{ intros [= <- <-]. auto. }
  set (doc1 := dict_set "id" doc_id (dict_remove "_id" doc)).
  destruct (dict_get "timestamp" doc1) as [ts | ] eqn:Hts.
  - destruct (py_eq (vdict_get_default doc_id (VStr "") tss) ts).
    + destruct lazy_download as [f | ].
      * unfold await_call. simpl.
        destruct (dl_run f false None); intros [= <- <-]; simpl; auto.
      * unfold raise. intros [= <- <-]. simpl. auto.
    + intros H. right. exists doc_id, doc1, ts.
      unfold doc1 in Hts. rewrite renamed_id_keeps_timestamp in Hts.
      pose proof (renamed_id_indexable doc doc_id ts Hts) as Hidx.
      fold doc1 in Hidx.
      assert (dict_get "timestamp" doc1 = Some ts) as Hts1
          by (unfold doc1; now rewrite renamed_id_keeps_timestamp).
      unfold upsert, dict_get_default in H. rewrite Hts1 in H.
      destruct lazy_download as [f | ]; inversion H; subst; simpl;
        repeat split; auto; apply Hidx || now rewrite app_nil_r.
  - unfold now, bind at 1. intros H. right.
    set (ts := VStr (iso_utc (clock s))).
    exists doc_id, (dict_set "timestamp" ts doc1), ts.
    pose proof (stamped_indexable doc doc_id ts) as Hidx. fold doc1 in Hidx.
    assert (dict_get "timestamp" (dict_set "timestamp" ts doc1) = Some ts)
      as Hts1 by apply dict_get_set_eq.
    unfold upsert, dict_get_default in H. simpl in H. fold ts in H.
    rewrite Hts1 in H.
    destruct lazy_download as [f | ]; inversion H; subst; simpl;
      repeat split; auto; apply Hidx || now rewrite app_nil_r.
Qed.

Lemma classify_puts_proper index tss item s r s' :
  classify iso_utc index tss item s = (r, s') ->
  exists items,
    stream s' = stream s ++ items /\ Forall (proper_update index) items.
Proof.
  destruct item as [doc lazy_download]. intros H.
  apply classify_adds in H
    as [[Hst _] | (doc_id & doc' & ts & _ & Hst & Hidx & _)].
  - exists []. rewrite app_nil_r. auto.
  - exists [update_intent index doc_id doc']. split; [exact Hst | ].
    repeat constructor. exists doc_id, doc'. auto.
Qed.

Lemma feed_loop_puts_proper index tss items :
  forall s r s',
    for_each (classify iso_utc index tss) items s = (r, s') ->
    exists ups,
      stream s' = stream s ++ ups /\ Forall (proper_update index) ups.
Proof.
  induction items as [ | item items IH ]; intros s r s' H.
  - simpl in H. inversion H; subst. exists []. rewrite app_nil_r. auto.
  - simpl in H. apply bind_inv in H as [(e & H1 & ->) | ([] & s1 & H1 & H2)].
    + eapply classify_puts_proper; eassumption.
    + apply classify_puts_proper in H1 as (i1 & Hs1 & F1).
      apply IH in H2 as (i2 & Hs2 & F2).
      exists (i1 ++ i2). rewrite Hs2, Hs1, app_assoc.
      split; [reflexivity | apply Forall_app; auto].
Qed.

(** X3.  Every update intent [get_docs] puts on the queue, however the
    task ends, carries a document whose "id" is the intent's "_id", that
    has no "_id" key left, and that has a "timestamp". *)
Theorem updates_carry_indexable_documents
    (index : value) (ids : pyset) (tss : vdict) (gen : generator)
    (s s' : pass) (r : result unit) :
  get_docs iso_utc index ids tss gen s = (r, s') ->
  exists items,
    stream s' = stream s ++ items /\
    forall doc_id doc,
      In (update_intent index doc_id doc) items -> indexable doc_id doc.
Proof.
  unfold get_docs. intros H.
  assert (forall ups doc_id doc,
             Forall (proper_update index) ups ->
             In (update_intent index doc_id doc) ups -> indexable doc_id doc)
    as Hproper.
  { intros ups doc_id doc Hall Hin. rewrite Forall_forall in Hall.
    destruct (Hall _ Hin) as (id' & doc' & Heq & Hidx).
    inversion Heq; subst. exact Hidx. }
  apply bind_inv in H as [(e & H1 & ->) | ([] & s1 & H1 & H2)].
  - apply feed_loop_puts_proper in H1 as (ups & Hst & Hall).
    exists ups. split; [exact Hst | ]. intros; eapply Hproper; eassumption.
  - apply feed_loop_puts_proper in H1 as (ups & Hst & Hall).
    destruct (raises gen) as [e | ].
    + unfold raise, bind in H2. inversion H2; subst.
      exists ups. split; [exact Hst | ]. intros; eapply Hproper; eassumption.
    + rewrite (bind_ok _ _ s1 tt s1 eq_refl) in H2.
      destruct (sweep_loop_spec index ids s1) as (s2 & Hsweep & Hst2 & _ & _).
      rewrite (bind_ok _ _ _ _ _ Hsweep) in H2.
      unfold put, modify in H2. inversion H2; subst. simpl.
      eexists. split.
      * rewrite Hst2, Hst, <- !app_assoc. reflexivity.
      * intros doc_id doc Hin.
        apply in_app_or in Hin as [Hin | Hin];
          [eapply Hproper; eassumption | ].
        apply in_app_or in Hin as [Hin | [Hin | []]]; [ | discriminate ].
        apply in_map_iff in Hin as (x & Heq & _). discriminate.
Qed.

(** *** A feed with nothing new *)

Lemma classify_unchanged index tss item s :
  unchanged tss item ->
  exists s',
    classify iso_utc index tss item s = (Ok tt, s') /\
    stream s' = stream s /\
    self s' = self s /\
    List.length (awaited s') = S (List.length (awaited s)).
Proof.
  destruct item as [doc lazy_download].
  intros (doc_id & ts & ts' & f & r & Hid & Hhash & Hts & Hsnap & Heq & Hf & Hrun).
  simpl in Hid, Hts, Hf. subst lazy_download.
  unfold classify, lift, dict_pop. rewrite Hid.
  unfold bind at 1. unfold see, bind at 1. unfold set_add. rewrite Hhash.
  rewrite renamed_id_keeps_timestamp, Hts.
  unfold vdict_get_default. rewrite Hsnap, Heq.
  unfold await_call. simpl. rewrite Hrun.
  eexists. split; [reflexivity | ]. simpl.
  repeat split. rewrite length_app. simpl. lia.
Qed.

(** X4.  When every document of the feed carries the timestamp the
    snapshot holds for its id, [get_docs] puts no update and schedules no
    download: it awaits one [lazy_download(doit=False)] per document and
    puts only the deletes of the sweep and END_DOCS. *)
Theorem unchanged_feed_puts_no_update
    (index : value) (ids : pyset) (tss : vdict) (gen : generator) (s : pass) :
  Forall (unchanged tss) (yields gen) ->
  raises gen = None ->
  exists s' deleted,
    get_docs iso_utc index ids tss gen s = (Ok tt, s') /\
    stream s' = stream s ++ map (delete_intent index) deleted ++ [END_DOCS] /\
    self s' = self s /\
    List.length (awaited s') =
      List.length (awaited s) + List.length (yields gen).
Proof.
  intros Hall Hnone. unfold get_docs. rewrite Hnone.
  assert (exists s1,
             for_each (classify iso_utc index tss) (yields gen) s = (Ok tt, s1) /\
             stream s1 = stream s /\ self s1 = self s /\
             List.length (awaited s1) =
               List.length (awaited s) + List.length (yields gen))
    as (s1 & Hloop & Hst & Hself & Hlen).
  { revert s. induction Hall as [ | item items Hitem Hitems IH ]; intros s.
    - exists s. simpl. unfold ret. repeat split. lia.
    - destruct (classify_unchanged index tss item s Hitem)
        as (s0 & H0 & Hst0 & Hself0 & Hlen0).
      destruct (IH s0) as (s1 & H1 & Hst1 & Hself1 & Hlen1).
      exists s1. simpl for_each. rewrite (bind_ok _ _ _ _ _ H0).
      split; [exact H1 | ]. repeat split; try congruence.
      simpl List.length. lia. }
  rewrite (bind_ok _ _ _ _ _ Hloop).
  rewrite (bind_ok _ _ s1 tt s1 eq_refl).
  destruct (sweep_loop_spec index ids s1) as (s2 & Hsweep & Hst2 & _ & Hself2).
  rewrite (bind_ok _ _ _ _ _ Hsweep).
  unfold put, modify. eexists. eexists. split; [reflexivity | ]. simpl.
  rewrite Hst2, Hst, <- app_assoc.
  split; [reflexivity | ]. split; [congruence | ].
  assert (awaited s2 = awaited s1) as Haw.
  { clear - Hsweep. revert s1 Hsweep.
    induction ids as [ | id ids IH ]; intros s1 Hsweep.
    - simpl in Hsweep. now inversion Hsweep.
    - simpl in Hsweep. unfold sweep at 1, gets, bind at 1 2 in Hsweep.
      destruct (set_mem id (seen_ids s1)); simpl in Hsweep.
      + now apply IH in Hsweep.
      + apply IH in Hsweep. exact Hsweep. }
  rewrite Haw. exact Hlen.
Qed.

(** *** New and changed documents *)

(** X5.  A document that is new to the index (no snapshot record for its
    id) and whose timestamp is the empty string is taken for unchanged:
    the default of [existing_timestamps.get(doc_id, "")] equals its
    timestamp, so the download is called off and no update is put. *)
Theorem new_document_with_empty_timestamp_is_skipped
    (index : value) (tss : vdict) (doc : dict) (f : lazy_download)
    (s : pass) (doc_id : value) :
  dict_get "_id" doc = Some doc_id ->
  hashable doc_id = true ->
  dict_get "timestamp" doc = Some (VStr "") ->
  vdict_get doc_id tss = None ->
  exists r s',
    classify iso_utc index tss (doc, Some f) s = (r, s') /\
    stream s' = stream s /\
    _downloads (self s') = _downloads (self s) /\
    awaited s' =
      awaited s ++ [{| callee := f; doit := false; timestamp := None |}].
Proof.
  intros Hid Hhash Hts Hsnap.
  unfold classify, lift, dict_pop. rewrite Hid.
  unfold bind at 1. unfold see, bind at 1. unfold set_add. rewrite Hhash.
  rewrite renamed_id_keeps_timestamp, Hts.
  unfold vdict_get_default. rewrite Hsnap. simpl py_eq. cbv iota.
  unfold await_call. simpl.
  destruct (dl_run f false None); eexists; eexists;
    (split; [reflexivity | ]); simpl; auto.
Qed.

(** X6.  A document whose timestamp differs from the snapshot's, or that
    has no snapshot record and a non-empty timestamp, or that has no
    timestamp at all, is put as exactly one update; a document without a
    timestamp is stamped with the clock.  Its download is scheduled
    exactly when a [lazy_download] came with it, with the timestamp of the
    update. *)
Theorem changed_document_is_updated
    (index : value) (tss : vdict) (doc : dict)
    (lazy_download : option lazy_download) (s : pass) (doc_id : value) :
  dict_get "_id" doc = Some doc_id ->
  hashable doc_id = true ->
  (forall ts,
      dict_get "timestamp" doc = Some ts ->
      py_eq (vdict_get_default doc_id (VStr "") tss) ts = false) ->
  exists s' doc' ts,
    classify iso_utc index tss (doc, lazy_download) s = (Ok tt, s') /\
    stream s' = stream s ++ [update_intent index doc_id doc'] /\
    indexable doc_id doc' /\
    dict_get "timestamp" doc' = Some ts /\
    ts = dict_get_default "timestamp" (VStr (iso_utc (clock s))) doc /\
    _downloads (self s') =
      _downloads (self s) ++
      match lazy_download with
      | Some f =>
          [create_task {| callee := f; doit := true; timestamp := Some ts |}]
      | None => []
      end /\
    awaited s' = awaited s.
Proof.
  intros Hid Hhash Hchanged.
  unfold classify, lift, dict_pop. rewrite Hid.
  unfold bind at 1. unfold see, bind at 1. unfold set_add. rewrite Hhash.
  rewrite renamed_id_keeps_timestamp.
  set (doc1 := dict_set "id" doc_id (dict_remove "_id" doc)).
  destruct (dict_get "timestamp" doc) as [ts0 | ] eqn:Hts.
  - rewrite (Hchanged ts0 eq_refl).
    assert (dict_get "timestamp" doc1 = Some ts0) as Hts1
        by (unfold doc1; now rewrite renamed_id_keeps_timestamp).
    unfold upsert, dict_get_default. rewrite Hts1, Hts.
    destruct lazy_download as [f | ];
      (eexists; exists doc1, ts0);
      (split; [reflexivity | ]); simpl;
      (split; [reflexivity | ]);
      (split; [eapply renamed_id_indexable; eassumption | ]);
      repeat split; auto; now rewrite app_nil_r.
  - unfold now, bind at 1. cbn [clock].
    set (ts := VStr (iso_utc (clock s))).
    assert (dict_get "timestamp" (dict_set "timestamp" ts doc1) = Some ts)
      as Hts1 by apply dict_get_set_eq.
    unfold upsert, dict_get_default. rewrite Hts1, Hts.
    destruct lazy_download as [f | ];
      (eexists; exists (dict_set "timestamp" ts doc1), ts);
      (split; [reflexivity | ]); simpl;
      (split; [reflexivity | ]);
      (split; [apply stamped_indexable | ]);
      repeat split; auto; now rewrite app_nil_r.
Qed.

(** *** Documents [get_docs] cannot classify *)

Lemma feed_loop_returns index tss items :
  Forall classifiable items ->
  forall s,
    exists s',
      for_each (classify iso_utc index tss) items s = (Ok tt, s').
Proof.
  induction 1 as [ | item items Hitem Hitems IH ]; intros s.
  - simpl. unfold ret. eauto.
  - destruct (classify_returns iso_utc index tss item s Hitem) as (s0 & H0).
    destruct (IH s0) as (s1 & H1).
    exists s1. simpl. rewrite (bind_ok _ _ _ _ _ H0). exact H1.
Qed.

(** X7.  A document yielded without an "_id" ends [get_docs] with
    KeyError("_id"): the updates of the documents before it stay on the
    queue, the documents after it are not looked at, and neither the
    deletion sweep nor END_DOCS follows. *)
Theorem document_without_id_ends_get_docs
    (index : value) (ids : pyset) (tss : vdict) (gen : generator) (s : pass)
    (pre post : list (dict * option lazy_download)) (doc : dict)
    (lazy_download : option lazy_download) :
  yields gen = pre ++ (doc, lazy_download) :: post ->
  Forall classifiable pre ->
  dict_get "_id" doc = None ->
  exists s' updates,
    get_docs iso_utc index ids tss gen s = (Raise (KeyError "_id"), s') /\
    for_each (classify iso_utc index tss) pre s = (Ok tt, s') /\
    stream s' = stream s ++ updates /\
    Forall (proper_update index) updates.
Proof.
  intros Hyields Hpre Hid.
  destruct (feed_loop_returns index tss pre Hpre s) as (s1 & Hloop).
  destruct (feed_loop_puts_proper _ _ _ _ _ _ Hloop) as (ups & Hst & Hall).
  exists s1, ups.
  split; [ | auto ].
  unfold get_docs. rewrite Hyields.
  apply bind_raise. rewrite for_each_app.
  rewrite (bind_ok _ _ _ _ _ Hloop). simpl for_each.
  apply bind_raise.
  unfold classify, lift, dict_pop. rewrite Hid. reflexivity.
Qed.

End WithClock.

Lemma updates_carry_indexable_documents_witness :
  exists items,
    stream (snd (get_docs Examples.clock_reading Examples.index
                   MoreExamples.snapshot_ids MoreExamples.snapshot_timestamps
                   Examples.feed (pass_init init))) =
      stream (pass_init init) ++ items /\
    forall doc_id doc,
      In (update_intent Examples.index doc_id doc) items ->
      indexable doc_id doc.
Proof.
  apply (updates_carry_indexable_documents Examples.clock_reading
           Examples.index MoreExamples.snapshot_ids
           MoreExamples.snapshot_timestamps Examples.feed (pass_init init)
           (snd (get_docs Examples.clock_reading Examples.index
                   MoreExamples.snapshot_ids MoreExamples.snapshot_timestamps
                   Examples.feed (pass_init init)))
           (Ok tt)).
  reflexivity.
Defined.

Lemma unchanged_feed_puts_no_update_witness :
  exists s' deleted,
    get_docs Examples.clock_reading Examples.index
      MoreExamples.snapshot_ids MoreExamples.snapshot_timestamps
      MoreExamples.same_feed (pass_init init) = (Ok tt, s') /\
    stream s' =
      stream (pass_init init) ++
      map (delete_intent Examples.index) deleted ++ [END_DOCS] /\
    self s' = self (pass_init init) /\
    List.length (awaited s') =
      List.length (awaited (pass_init init)) +
      List.length (yields MoreExamples.same_feed).
Proof.
  apply (unchanged_feed_puts_no_update Examples.clock_reading Examples.index
           MoreExamples.snapshot_ids MoreExamples.snapshot_timestamps
           MoreExamples.same_feed (pass_init init)).
  - constructor; [ | constructor; [ | constructor ] ].
    + exists (VStr "id1"), (VStr "t0"), (VStr "t0"), (FakeSources._dl "id1"), None.
      repeat split.
    + exists (VStr "id2"), (VStr "t0"), (VStr "t0"), (FakeSources._dl "id2"), None.
      repeat split.
  - reflexivity.
Defined.

Lemma new_document_with_empty_timestamp_is_skipped_witness :
  exists r s',
    classify Examples.clock_reading Examples.index
      MoreExamples.snapshot_timestamps
      (MoreExamples.blank_document, Some (FakeSources._dl "id9"))
      (pass_init init) = (r, s') /\
    stream s' = stream (pass_init init) /\
    _downloads (self s') = _downloads (self (pass_init init)) /\
    awaited s' =
      awaited (pass_init init) ++
      [{| callee := FakeSources._dl "id9"; doit := false; timestamp := None |}].
Proof.
  apply (new_document_with_empty_timestamp_is_skipped Examples.clock_reading
           Examples.index MoreExamples.snapshot_timestamps
           MoreExamples.blank_document (FakeSources._dl "id9")
           (pass_init init) (VStr "id9"));
    reflexivity.
Defined.

Lemma changed_document_is_updated_witness :
  exists s' doc' ts,
    classify Examples.clock_reading Examples.index
      MoreExamples.snapshot_timestamps
      ([("_id", VStr "id1"); ("timestamp", VStr "t1")],
       Some (FakeSources._dl "id1"))
      (pass_init init) = (Ok tt, s') /\
    stream s' =
      stream (pass_init init) ++
      [update_intent Examples.index (VStr "id1") doc'] /\
    indexable (VStr "id1") doc' /\
    dict_get "timestamp" doc' = Some ts /\
    ts = dict_get_default "timestamp"
           (VStr (Examples.clock_reading (clock (pass_init init))))
           [("_id", VStr "id1"); ("timestamp", VStr "t1")] /\
    _downloads (self s') =
      _downloads (self (pass_init init)) ++
      [create_task {| callee := FakeSources._dl "id1"; doit := true;
                      timestamp := Some ts |}] /\
    awaited s' = awaited (pass_init init).
Proof.
  apply (changed_document_is_updated Examples.clock_reading Examples.index
           MoreExamples.snapshot_timestamps
           [("_id", VStr "id1"); ("timestamp", VStr "t1")]
           (Some (FakeSources._dl "id1")) (pass_init init) (VStr "id1")).
  - reflexivity.
  - reflexivity.
  - intros ts [= <-]. reflexivity.
Defined.

Lemma document_without_id_ends_get_docs_witness :
  exists s' updates,
    get_docs Examples.clock_reading Examples.index [] []
      MoreExamples.nameless_feed (pass_init init)
    = (Raise (KeyError "_id"), s') /\
    for_each (classify Examples.clock_reading Examples.index [])
      [([("_id", VStr "1")], Some (FakeSources._dl "1"))] (pass_init init)
    = (Ok tt, s') /\
    stream s' = stream (pass_init init) ++ updates /\
    Forall (proper_update Examples.index) updates.
Proof.
  apply (document_without_id_ends_get_docs Examples.clock_reading
           Examples.index [] [] MoreExamples.nameless_feed (pass_init init)
           [([("_id", VStr "1")], Some (FakeSources._dl "1"))]
           [([("_id", VStr "3")], Some (FakeSources._dl "3"))]
           [("title", VStr "no id")] None).
  - reflexivity.
  - constructor; [ | constructor ].
    exists (VStr "1"), (FakeSources._dl "1"). repeat split. exists None.
    reflexivity.
  - reflexivity.
Defined.

End FeedMoreFacts.

(* ================================================================== *)
(** ** More on [async_bulk] *)
(* ================================================================== *)

Module PassMoreFacts.

Import Byoei ByoeiMore PyFacts BulkFacts PassFacts FeedMoreFacts.

Local Open Scope task_scope.

(** *** The queue of a pass *)

Lemma interleave_split order :
  forall xs1 x xs2 ys,
    exists q1 q2,
      interleave order (xs1 ++ x :: xs2) ys = q1 ++ x :: q2 /\
      forall item, In item q1 -> In item xs1 \/ In item ys.
Proof.
  induction order as [ | [ | ] order IH ]; intros xs1 x xs2 ys; simpl.
  - exists xs1, (xs2 ++ ys). split; [now rewrite <- app_assoc | auto].
  - destruct xs1 as [ | a xs1 ]; simpl.
    + exists [], (interleave order xs2 ys). split; [reflexivity | ].
      intros item [].
    + destruct (IH xs1 x xs2 ys) as (q1 & q2 & Hq & Hin).
      exists (a :: q1), q2. split; [simpl; now rewrite Hq | ].
      intros item [-> | H]; [left; now left | ].
      destruct (Hin _ H); [left; now right | now right].
  - destruct ys as [ | y ys ].
    + exists xs1, xs2. split; [reflexivity | auto].
    + destruct (IH xs1 x xs2 ys) as (q1 & q2 & Hq & Hin).
      exists (y :: q1), q2. split; [simpl; now rewrite Hq | ].
      intros item [-> | H]; [right; now left | ].
      destruct (Hin _ H); [now left | right; now right].
Qed.

Lemma interleave_keeps order :
  forall xs ys item,
    In item xs \/ In item ys -> In item (interleave order xs ys).
Proof.
  induction order as [ | [ | ] order IH ]; intros xs ys item H; simpl.
  - apply in_or_app. exact H.
  - destruct xs as [ | x xs ].
    + destruct H as [[] | H]. exact H.
    + simpl in H. destruct H as [[Heq | H] | H].
      * left. exact Heq.
      * right. apply IH. auto.
      * right. apply IH. auto.
  - destruct ys as [ | y ys ].
    + destruct H as [H | []]. exact H.
    + simpl in H. destruct H as [H | [Heq | H]].
      * right. apply IH. auto.
      * left. exact Heq.
      * right. apply IH. auto.
Qed.

Lemma interleave_Forall (P : value -> Prop) order xs ys :
  Forall P xs -> Forall P ys -> Forall P (interleave order xs ys).
Proof.
  intros Hx Hy. rewrite Forall_forall in *. intros item Hin.
  apply interleave_In in Hin as [H | H]; auto.
Qed.

(** Whatever the drain does, it puts updates only. *)
Lemma drain_puts_updates index (pending : list download) :
  forall position s r s',
    drain index position pending s = (r, s') ->
    exists items,
      stream s' = stream s ++ items /\ Forall (is_update index) items.
Proof.
  induction pending as [ | d pending IH ]; intros position s r s' H.
  - simpl in H. inversion H; subst. exists []. rewrite app_nil_r. auto.
  - rewrite drain_cons in H.
    destruct (outcome d) as [[data | ] | e].
    + destruct (dict_get "_id" data) as [doc_id | ].
      * apply IH in H as (items & Hst & Hall). simpl in Hst.
        exists (update_intent index doc_id (dict_remove "_id" data) :: items).
        rewrite Hst, <- app_assoc. split; [reflexivity | ].
        constructor; [unfold is_update; eauto | assumption].
      * inversion H; subst. exists []. rewrite app_nil_r. auto.
    + eapply IH; eassumption.
    + inversion H; subst. exists []. rewrite app_nil_r. auto.
Qed.

Lemma get_attachments_puts index s r s' :
  get_attachments index s = (r, s') ->
  exists items,
    stream s' = stream s ++ items /\
    Forall (fun item => is_update index item \/ item = END_DOWNLOADS) items.
Proof.
  rewrite get_attachments_unfold.
  destruct (drain index 0 (_downloads (self s)) s) as [[[] | e] s1] eqn:Hd;
    intros H; inversion H; subst; simpl;
    apply drain_puts_updates in Hd as (items & Hst & Hall).
  - exists (items ++ [END_DOWNLOADS]). rewrite Hst, app_assoc.
    split; [reflexivity | ]. apply Forall_app. split.
    + eapply Forall_impl; [ | exact Hall ]. intros a Ha. left. exact Ha.
    + constructor; [right; reflexivity | constructor].
  - exists items. split; [exact Hst | ].
    eapply Forall_impl; [ | exact Hall ]. intros a Ha. left. exact Ha.
Qed.

(** The writer cannot get past a delete it reads before END_DOCS. *)
Lemma bulk_loop_stops_at_delete (T : nat) (index doc_id : value)
    (q1 q2 : list value) :
  ~ In END_DOCS q1 ->
  forall b b' rest,
    docs_ended b = false ->
    bulk_loop T b (q1 ++ delete_intent index doc_id :: q2) <> Exited b' rest.
Proof.
  induction q1 as [ | doc q1 IH ]; intros Hnot b b' rest Hd.
  - simpl. unfold bulk_step. simpl. rewrite Hd. simpl. discriminate.
  - assert (docs_ended b && downloads_ended b = false) as Hflags
        by (rewrite Hd; reflexivity).
    assert (py_eq doc END_DOCS = false) as Hdoc.
    { destruct (py_eq doc END_DOCS) eqn:E; [ | reflexivity ].
      apply py_eq_END_DOCS in E. exfalso. apply Hnot. now left. }
    assert (~ In END_DOCS q1) as Hnot' by (intros H; apply Hnot; now right).
    simpl app. simpl bulk_loop.
    destruct (bulk_step_cases T b doc Hflags)
      as [(Hm & b1 & Hd1 & Hw & _ & _ & [[Hboth Hstep] | [_ Hstep]])
         | (Hm & [(b2 & Happ & Hstep) | (e & Happ & Hstep)])];
      rewrite Hstep.
    + rewrite Hd1, Hdoc, Hd in Hboth. discriminate.
    + apply IH; [assumption | ]. now rewrite Hd1, Hdoc, Hd.
    + apply append_action_spec in Happ as (Hd2 & _).
      apply IH; [assumption | congruence].
    + discriminate.
Qed.

Section WithClock.

Variable iso_utc : nat -> string.

(** The queue [get_docs] leaves when it returns. *)
Lemma get_docs_queue server index es_docs gen ids tss s' :
  read_existing es_docs [] [] = Ok (ids, tss) ->
  get_docs iso_utc index ids tss gen (pass_init server) = (Ok tt, s') ->
  exists updates deleted,
    stream s' = updates ++ map (delete_intent index) deleted ++ [END_DOCS] /\
    Forall (is_update index) updates /\
    (forall id,
        In id deleted <->
        In id (snapshot_ids es_docs) /\ ~ In id (feed_ids gen)) /\
    exists tasks, _downloads (self s') = _downloads server ++ tasks.
Proof.
  intros Hread Hrun.
  destruct (read_existing_spec _ _ _ _ _ Hread is_set_nil) as (Hset & Hin).
  pose proof (get_docs_keeps_downloads _ _ _ _ _ _ _ _ Hrun) as Htasks.
  apply get_docs_ok in Hrun as (s1 & Hloop & _ & Hstream).
  apply feed_loop_spec in Hloop as (Hg & Hseen).
  destruct (Hseen eq_refl is_set_nil) as (Hset1 & Hin1).
  destruct Hg as [(updates & Hup & Hall) _ _ _ _]. simpl in Hup.
  exists updates, (filter (fun id => negb (set_mem id (seen_ids s1))) ids).
  split; [rewrite Hstream, Hup; reflexivity | ].
  split; [assumption | ].
  split; [ | exact Htasks ].
  intros id. rewrite filter_In, Hin. simpl.
  assert (In id ids -> hashable id = true) as Hhash.
  { destruct Hset as [_ Hh]. rewrite Forall_forall in Hh. apply Hh. }
  rewrite Hin in Hhash. unfold feed_ids.
  split.
  - intros [[[] | Hs] Hm]. split; [assumption | ].
    intros Hf. apply Bool.negb_true_iff in Hm.
    assert (In id (seen_ids s1)) as Hin' by (apply Hin1; auto).
    apply (set_mem_In id (seen_ids s1)) in Hin'; [congruence | auto].
  - intros [Hs Hf]. split; [auto | ].
    apply Bool.negb_true_iff.
    destruct (set_mem id (seen_ids s1)) eqn:Hm; [ | reflexivity ].
    apply set_mem_In in Hm; [ | auto ].
    apply Hin1 in Hm as [[] | Hm]. contradiction.
Qed.

(** X8.  A pass that has something to delete never returns: when the
    snapshot holds an id the feed does not yield, the delete [get_docs]
    puts reaches the writer before END_DOCS and kills it (or another task
    has failed already), so [async_bulk] raises or waits for ever. *)
Theorem pass_with_a_deletion_does_not_return
    (server : ElasticServer) (index : value) (gen : generator)
    (es_docs : list dict) (sched : schedule) (doc_id : value) :
  In doc_id (snapshot_ids es_docs) ->
  ~ In doc_id (feed_ids gen) ->
  forall res,
    fst (async_bulk iso_utc server index gen es_docs sched) <> Returns res.
Proof.
  intros Hsnap Hfeed res. unfold async_bulk.
  destruct (read_existing es_docs [] []) as [[ids tss] | e] eqn:Hread;
    [ | discriminate ].
  destruct (get_docs iso_utc index ids tss gen (pass_init server))
    as [r1 s1] eqn:H1.
  destruct (get_attachments index _) as [r2 s2] eqn:H2.
  destruct (_bulk _ _) as [r3 server3] eqn:H3.
  destruct (gather _) eqn:Hg; simpl; try discriminate.
  exfalso. apply gather_Done in Hg as (Hr1 & _ & Hr3). subst r3.
  destruct r1 as [[] | e1]; [ | discriminate ].
  destruct (get_docs_queue _ _ _ _ _ _ _ Hread H1)
    as (updates & deleted & Hst & Hall & Hdel & _).
  assert (In doc_id deleted) as Hin by (apply Hdel; auto).
  apply in_split in Hin as (d1 & d2 & ->).
  apply get_attachments_puts in H2 as (items & Hst2 & Hitems).
  simpl in Hst2.
  rewrite map_app in Hst. simpl in Hst.
  rewrite <- app_assoc in Hst. simpl in Hst. rewrite app_assoc in Hst.
  rewrite Hst in H3.
  destruct (interleave_split (order sched)
              (updates ++ map (delete_intent index) d1)
              (delete_intent index doc_id)
              (map (delete_intent index) d2 ++ [END_DOCS]) (stream s2))
    as (q1 & q2 & Hq & Hq1).
  rewrite Hq in H3.
  assert (fst (_bulk
                 (with_downloads
                    (_downloads (self s2) ++
                     skipn (List.length (_downloads server) + drain_sees sched)
                       (_downloads (self s1))) (self s2))
                 (q1 ++ delete_intent index doc_id :: q2)) = Done) as Hdone
      by (now rewrite H3).
  apply _bulk_Done in Hdone as (b & rest & Hloop).
  revert Hloop. apply bulk_loop_stops_at_delete; [ | reflexivity ].
  intros Hend. apply Hq1 in Hend as [Hend | Hend].
  - apply in_app_or in Hend as [Hend | Hend].
    + rewrite Forall_forall in Hall.
      apply (is_update_not_END_DOCS index END_DOCS); auto.
    + apply in_map_iff in Hend as (x & Heq & _). discriminate.
  - rewrite Hst2 in Hend. rewrite Forall_forall in Hitems.
    destruct (Hitems _ Hend) as [Hup | Heq]; [ | discriminate ].
    apply (is_update_not_END_DOCS index END_DOCS); auto.
Qed.

(** *** A pass that returns *)

Lemma classify_tasks index tss item s r s' :
  well_behaved item ->
  classify iso_utc index tss item s = (r, s') ->
  exists tasks,
    _downloads (self s') = _downloads (self s) ++ tasks /\
    Forall drainable tasks.
Proof.
  destruct item as [doc lazy_download]. intros [_ Hdl] H.
  apply classify_adds in H
    as [[_ Hsame] | (doc_id & doc' & ts & _ & _ & _ & _ & Hd)].
  - exists []. rewrite app_nil_r. auto.
  - eexists. split; [exact Hd | ].
    destruct lazy_download as [f | ]; [ | constructor ].
    constructor; [ | constructor ]. apply Hdl. reflexivity.
Qed.

Lemma feed_loop_tasks index tss items :
  Forall well_behaved items ->
  forall s r s',
    for_each (classify iso_utc index tss) items s = (r, s') ->
    exists tasks,
      _downloads (self s') = _downloads (self s) ++ tasks /\
      Forall drainable tasks.
Proof.
  induction 1 as [ | item items Hitem Hitems IH ]; intros s r s' H.
  - simpl in H. inversion H; subst. exists []. rewrite app_nil_r. auto.
  - simpl in H. apply bind_inv in H as [(e & H1 & ->) | ([] & s1 & H1 & H2)].
    + eapply classify_tasks; eassumption.
    + apply (classify_tasks _ _ _ _ _ _ Hitem) in H1 as (t1 & Hd1 & F1).
      apply IH in H2 as (t2 & Hd2 & F2).
      exists (t1 ++ t2). rewrite Hd2, Hd1, app_assoc.
      split; [reflexivity | apply Forall_app; auto].
Qed.

Lemma well_behaved_classifiable items :
  Forall well_behaved items -> Forall classifiable items.
Proof. apply Forall_impl. intros item [H _]. exact H. Qed.

Lemma Forall_firstn_drainable n (ds : list download) :
  Forall drainable ds -> Forall drainable (firstn n ds).
Proof.
  intros H. rewrite Forall_forall in *. intros d Hd. apply H.
  rewrite <- (firstn_skipn n ds). apply in_or_app. now left.
Qed.

(** X9.  A pass returns, with the empty dict, for every schedule, when
    the snapshot can be read, nothing has to be deleted (every id of
    the snapshot is yielded by the feed), the feed ends without an
    exception, each of its documents has a hashable "_id" and comes
    with a [lazy_download] whose [doit=False] call returns and whose
    [doit=True] call returns [None] or a dict holding "_id", and every
    download already on the server holds [None] or a dict holding
    "_id".  No [client.bulk] call fails: [batch_bulk] is modelled with
    calls that succeed. *)
Theorem well_behaved_pass_returns
    (server : ElasticServer) (index : value) (gen : generator)
    (es_docs : list dict) (sched : schedule) (ids : pyset) (tss : vdict) :
  read_existing es_docs [] [] = Ok (ids, tss) ->
  Forall well_behaved (yields gen) ->
  raises gen = None ->
  (forall id, In id (snapshot_ids es_docs) -> In id (feed_ids gen)) ->
  Forall drainable (_downloads server) ->
  fst (async_bulk iso_utc server index gen es_docs sched) = Returns [].
Proof.
  intros Hread Hfeed Hnone Hcover Hold. unfold async_bulk. rewrite Hread.
  destruct (get_docs_returns iso_utc index ids tss gen (pass_init server)
              (well_behaved_classifiable _ Hfeed) Hnone) as (s1 & H1).
  rewrite H1.
  destruct (get_docs_queue _ _ _ _ _ _ _ Hread H1)
    as (updates & deleted & Hst & Hall & Hdel & _).
  assert (deleted = []) as ->.
  { destruct deleted as [ | id deleted ]; [reflexivity | ].
    exfalso. destruct (proj1 (Hdel id) (or_introl eq_refl)) as [Hs Hf].
    apply Hf, Hcover, Hs. }
  simpl in Hst.
  assert (Forall drainable (_downloads (self s1))) as Hdrainable.
  { pose proof H1 as H1'. apply get_docs_ok in H1' as (s0 & Hloop & _ & _).
    pose proof (feed_loop_tasks _ _ _ Hfeed _ _ _ Hloop) as (tasks & Hd & Ht).
    simpl in Hd.
    assert (self s1 = self s0) as Hself.
    { unfold get_docs in H1. rewrite (bind_ok _ _ _ _ _ Hloop) in H1.
      rewrite Hnone in H1. rewrite (bind_ok _ _ s0 tt s0 eq_refl) in H1.
      destruct (sweep_loop_spec index ids s0) as (s2 & Hsweep & _ & _ & Hs2).
      rewrite (bind_ok _ _ _ _ _ Hsweep) in H1.
      unfold put, modify in H1. inversion H1; subst. simpl. exact Hs2. }
    rewrite Hself, Hd. apply Forall_app. auto. }
  set (visible := List.length (_downloads server) + drain_sees sched).
  pose proof (Forall_firstn_drainable visible _ Hdrainable) as Hvisible.
  destruct (drain_spec index _ Hvisible [] []
              (pass_init
                 (with_downloads (firstn visible (_downloads (self s1)))
                    (self s1))))
    as (s2' & Hdrain & Hst2 & _).
  { simpl. now rewrite app_nil_r. }
  simpl in Hdrain, Hst2.
  rewrite get_attachments_unfold. simpl _downloads. rewrite Hdrain.
  match goal with
  | |- context [_bulk ?srv ?q] =>
      pose proof (_bulk_completes srv q) as Hcomplete;
      destruct (_bulk srv q) as [r3 server3]
  end.
  simpl in Hcomplete.
  rewrite Hcomplete;
    [cbn [ending_of]; rewrite gather_all_Done; reflexivity | | | ].
  - apply interleave_Forall.
    + rewrite Hst. apply Forall_app. split.
      * eapply Forall_impl; [ | exact Hall ].
        intros a (doc_id & doc & ->). right. eauto.
      * constructor; [left; reflexivity | constructor].
    + simpl. rewrite Hst2. apply Forall_app. split.
      * rewrite Forall_forall. intros a Ha.
        apply in_flat_map in Ha as (d & _ & Ha).
        apply drained_intent_update in Ha as (doc_id & doc & ->).
        right. eauto.
      * constructor; [left; reflexivity | constructor].
  - apply interleave_keeps. left. rewrite Hst. apply in_or_app.
    right. now left.
  - apply interleave_keeps. right. simpl. apply in_or_app. right. now left.
Qed.

End WithClock.

Lemma pass_with_a_deletion_does_not_return_witness :
  In (VStr "id2") (Byoei.snapshot_ids Examples.snapshot) /\
  fst (async_bulk Examples.clock_reading init Examples.index Examples.feed
         Examples.snapshot Examples.plain_schedule) <> Returns [].
Proof.
  split; [simpl; auto | ].
  apply (pass_with_a_deletion_does_not_return Examples.clock_reading init
           Examples.index Examples.feed Examples.snapshot
           Examples.plain_schedule (VStr "id2")).
  - simpl. auto.
  - simpl. intros [H | [H | []]]; discriminate.
Defined.

Lemma well_behaved_pass_returns_witness :
  fst (async_bulk Examples.clock_reading init Examples.index
         (FakeSources.FakeSource false) [] Examples.plain_schedule)
  = Returns [].
Proof.
  apply (well_behaved_pass_returns Examples.clock_reading init Examples.index
           (FakeSources.FakeSource false) [] Examples.plain_schedule [] []).
  - reflexivity.
  - constructor; [ | constructor ]. split.
    + exists (VStr "1"), (FakeSources._dl "1"). repeat split.
      exists None. reflexivity.
    + intros f ts [= <-]. right. eexists; eexists. split; reflexivity.
  - reflexivity.
  - simpl. tauto.
  - constructor.
Defined.

(** *** The snapshot *)

Lemma vdict_get_set_raw (k k' v : value) (d : vdict) :
  hashable k = true -> hashable k' = true ->
  vdict_get k (vdict_set_raw k' v d) =
  if py_eq k k' then Some v else vdict_get k d.
Proof.
  intros Hk Hk'. induction d as [ | [k0 v0] d IH ]; simpl; [reflexivity | ].
  destruct (py_eq k' k0) eqn:E0; simpl.
  - apply py_eq_hashable in E0; [ | assumption ]. subst k0.
    destruct (py_eq k k'); reflexivity.
  - rewrite IH. destruct (py_eq k k0) eqn:E1; [ | reflexivity ].
    destruct (py_eq k k') eqn:E2; [ | reflexivity ].
    apply py_eq_hashable in E1; [ | assumption ].
    apply py_eq_hashable in E2; [ | assumption ].
    subst k0 k'. rewrite py_eq_refl_hashable in E0 by assumption.
    discriminate.
Qed.

Lemma read_existing_timestamps es_docs :
  forall ids0 tss0 ids tss,
    read_existing es_docs ids0 tss0 = Ok (ids, tss) ->
    forall id,
      hashable id = true ->
      vdict_get id tss =
      match last_timestamp id es_docs with
      | Some ts => Some ts
      | None => vdict_get id tss0
      end.
Proof.
  induction es_docs as [ | es_doc rest IH ]; intros ids0 tss0 ids tss H id Hid.
  - simpl in H. inversion H; subst. reflexivity.
  - simpl in H. unfold and_then, dict_getitem in H.
    destruct (dict_get "id" es_doc) as [id0 | ] eqn:Hid0; [ | discriminate ].
    unfold set_add in H.
    destruct (hashable id0) eqn:Hh0; [ | discriminate ].
    destruct (dict_get "timestamp" es_doc) as [ts0 | ] eqn:Hts0;
      [ | discriminate ].
    unfold vdict_set in H. rewrite Hh0 in H.
    rewrite (IH _ _ _ _ H id Hid). simpl. rewrite Hid0.
    destruct (last_timestamp id rest); [reflexivity | ].
    rewrite vdict_get_set_raw by assumption.
    destruct (py_eq id id0); [now rewrite Hts0 | reflexivity].
Qed.

(** X10.  The snapshot [async_bulk] builds holds each scanned id once,
    and maps it to the timestamp of the last scanned record with that
    id: a later record of the scan overrides an earlier one. *)
Theorem snapshot_keeps_last_timestamp
    (es_docs : list dict) (ids : pyset) (tss : vdict) :
  read_existing es_docs [] [] = Ok (ids, tss) ->
  NoDup ids /\
  (forall id, In id ids <-> In id (snapshot_ids es_docs)) /\
  (forall id,
      hashable id = true -> vdict_get id tss = last_timestamp id es_docs).
Proof.
  intros H.
  destruct (read_existing_spec _ _ _ _ _ H is_set_nil) as ([Hnd _] & Hin).
  split; [exact Hnd | ]. split.
  - intros id. rewrite Hin. simpl. tauto.
  - intros id Hid. rewrite (read_existing_timestamps _ _ _ _ _ H id Hid).
    simpl. destruct (last_timestamp id es_docs); reflexivity.
Qed.

Lemma snapshot_keeps_last_timestamp_witness :
  NoDup [VStr "id1"; VStr "id2"] /\
  (forall id,
      In id [VStr "id1"; VStr "id2"] <->
      In id (snapshot_ids MoreExamples.rescanned)) /\
  (forall id,
      hashable id = true ->
      vdict_get id [(VStr "id1", VStr "t1"); (VStr "id2", VStr "t0")] =
      last_timestamp id MoreExamples.rescanned).
Proof.
  apply (snapshot_keeps_last_timestamp MoreExamples.rescanned
           [VStr "id1"; VStr "id2"]
           [(VStr "id1", VStr "t1"); (VStr "id2", VStr "t0")]).
  reflexivity.
Defined.

Lemma read_existing_app (pre rest : list dict) :
  forall ids tss,
    read_existing (pre ++ rest) ids tss =
    and_then (read_existing pre ids tss)
      (fun r => read_existing rest (fst r) (snd r)).
Proof.
  induction pre as [ | es_doc pre IH ]; intros ids tss; simpl;
    [reflexivity | ].
  unfold and_then.
  destruct (dict_getitem "id" es_doc); [ | reflexivity ].
  destruct (set_add _ _); [ | reflexivity ].
  destruct (dict_getitem "timestamp" es_doc); [ | reflexivity ].
  destruct (vdict_set _ _ _); [ | reflexivity ].
  apply IH.
Qed.

(** X11.  A scanned record that has an id but no "timestamp" makes the
    pass fail with KeyError("timestamp") while the snapshot is read:
    no task is started, nothing is put or written, and the server is
    left as it was. *)
Theorem record_without_timestamp_fails_the_pass
    (iso_utc : nat -> string) (server : ElasticServer) (index : value)
    (gen : generator) (sched : schedule)
    (pre post : list dict) (es_doc : dict) (ids : pyset) (tss : vdict)
    (id : value) :
  read_existing pre [] [] = Ok (ids, tss) ->
  dict_get "id" es_doc = Some id ->
  hashable id = true ->
  dict_get "timestamp" es_doc = None ->
  async_bulk iso_utc server index gen (pre ++ es_doc :: post) sched =
  (Raises (KeyError "timestamp"), server).
Proof.
  intros Hpre Hid Hhash Hts. unfold async_bulk.
  rewrite read_existing_app, Hpre. simpl.
  unfold and_then, dict_getitem, set_add. rewrite Hid, Hhash, Hts.
  reflexivity.
Qed.

Lemma record_without_timestamp_fails_the_pass_witness :
  async_bulk Examples.clock_reading init Examples.index Examples.feed
    MoreExamples.unstamped_scan Examples.plain_schedule =
  (Raises (KeyError "timestamp"), init).
Proof.
  apply (record_without_timestamp_fails_the_pass Examples.clock_reading init
           Examples.index Examples.feed Examples.plain_schedule
           [[("id", VStr "id1"); ("timestamp", VStr "t0")]] []
           [("id", VStr "id2")]
           [VStr "id1"] [(VStr "id1", VStr "t0")] (VStr "id2"));
    reflexivity.
Defined.

(** *** [prepare_index] *)

Lemma index_docs_numbers (index : string) (docs : list value) :
  forall doc_id,
    index_docs index doc_id docs =
    map (fun p : nat * value => index_document index (fst p) (snd p))
        (combine (seq doc_id (List.length docs)) docs).
Proof.
  induction docs as [ | doc docs IH ]; intros doc_id; simpl.
  - reflexivity.
  - now rewrite IH.
Qed.

(** X12.  [prepare_index] leaves an existing index alone unless
    [delete_first] is set: it makes no call after [indices.exists].
    Otherwise it deletes the index when it exists, creates it, and
    indexes the documents in order under the ids 1, 2, ..., n.  The
    [mapping] argument has no effect on the calls. *)
Theorem prepare_index_calls
    (index : string) (docs : list value) (mapping : option value) :
  (forall any_docs,
      prepare_index true index any_docs mapping false =
      [indices_exists index]) /\
  (forall exists_ delete_first,
      exists_ && negb delete_first = false ->
      prepare_index exists_ index (Some docs) mapping delete_first =
      indices_exists index ::
      (if exists_ then [indices_delete index] else []) ++
      indices_create index ::
      map (fun p : nat * value => index_document index (fst p) (snd p))
          (combine (seq 1 (List.length docs)) docs)) /\
  (forall exists_ delete_first any_docs other_mapping,
      prepare_index exists_ index any_docs mapping delete_first =
      prepare_index exists_ index any_docs other_mapping delete_first).
Proof.
  split; [reflexivity | ]. split; [ | reflexivity ].
  intros exists_ delete_first H. unfold prepare_index. rewrite H.
  now rewrite index_docs_numbers.
Qed.

Lemma prepare_index_calls_witness :
  prepare_index false "search-idx"
    (Some [VDict [("title", VStr "a")]; VDict [("title", VStr "b")]])
    None false =
  indices_exists "search-idx" ::
  [] ++
  indices_create "search-idx" ::
  map (fun p : nat * value =>
         index_document "search-idx" (fst p) (snd p))
      (combine (seq 1 2)
         [VDict [("title", VStr "a")]; VDict [("title", VStr "b")]]).
Proof.
  apply (proj1 (proj2 (prepare_index_calls "search-idx"
                         [VDict [("title", VStr "a")];
                          VDict [("title", VStr "b")]] None))
           false false).
  reflexivity.
Defined.

End PassMoreFacts.

(* ================================================================== *)
(** ** A feed that raises *)
(* ================================================================== *)

Module FailingFeedFacts.

Import Byoei ByoeiMore PyFacts BulkFacts PassFacts FeedMoreFacts PassMoreFacts.

Local Open Scope task_scope.

Lemma _bulk_does_not_raise (server : ElasticServer) (queue : list value)
    (e : exn) :
  Forall update_or_marker queue ->
  fst (_bulk server queue) <> Raised e.
Proof.
  intros Hq. unfold _bulk.
  destruct (bulk_loop _ _ queue) as [b rest | b | e' b rest] eqn:Hloop;
    cbn [fst]; try discriminate.
  exfalso. eapply bulk_loop_no_throw; eassumption.
Qed.

Lemma failing_feed_alone (iso_utc : nat -> string)
    (server : ElasticServer) (index : value) (gen : generator)
    (es_docs : list dict) (sched : schedule) (ids : pyset) (tss : vdict)
    (e : exn) :
  raises gen = Some e ->
  read_existing es_docs [] [] = Ok (ids, tss) ->
  Forall well_behaved (yields gen) ->
  Forall drainable (_downloads server) ->
  fst (async_bulk iso_utc server index gen es_docs sched) = Raises e.
Proof.
  intros Hfail Hread Hwb Hold.
  unfold async_bulk. rewrite Hread.
  destruct (feed_loop_returns iso_utc index tss (yields gen)
              (well_behaved_classifiable _ Hwb) (pass_init server))
    as (s1 & Hloop).
  destruct (get_docs iso_utc index ids tss gen (pass_init server))
    as [r1 s1'] eqn:H1.
  destruct (get_docs_failing_feed _ _ _ _ _ _ _ _ _ Hfail H1)
    as (_ & Hfeed1 & [(ups & Hst1 & Hups) _ _ _ _]).
  destruct (Hfeed1 s1 Hloop) as [-> ->].
  destruct (feed_loop_tasks iso_utc _ _ _ Hwb _ _ _ Hloop)
    as (tasks & Hd & Ht).
  simpl in Hd.
  assert (Forall drainable (_downloads (self s1))) as Hdrainable.
  { rewrite Hd. apply Forall_app. auto. }
  set (visible := List.length (_downloads server) + drain_sees sched).
  pose proof (Forall_firstn_drainable visible _ Hdrainable) as Hvisible.
  destruct (drain_spec index _ Hvisible [] []
              (pass_init
                 (with_downloads (firstn visible (_downloads (self s1)))
                    (self s1))))
    as (s2' & Hdrain & Hst2 & _).
  { simpl. now rewrite app_nil_r. }
  simpl in Hdrain, Hst2.
  rewrite get_attachments_unfold. simpl _downloads. rewrite Hdrain.
  match goal with
  | |- context [_bulk ?srv ?q] =>
      pose proof (fun e' => _bulk_does_not_raise srv q e') as Hwriter;
      destruct (_bulk srv q) as [r3 server3]
  end.
  cbn [ending_of fst] in *.
  destruct (gather_raises (finish sched) [Raised e; Done; r3] e)
    as (e' & Hg & Hin); [now left | ].
  rewrite Hg. cbn [fst].
  destruct Hin as [Heq | [Heq | [Heq | []]]]; try discriminate.
  - now inversion Heq.
  - exfalso. apply (Hwriter e'); [ | exact Heq ].
    apply interleave_Forall.
    + simpl in Hst1. rewrite Hst1.
      eapply Forall_impl; [ | exact Hups ].
      intros a (doc_id & doc & ->). right. eauto.
    + simpl. rewrite Hst2. apply Forall_app. split.
      * rewrite Forall_forall. intros a Ha.
        apply in_flat_map in Ha as (d & _ & Ha).
        apply drained_intent_update in Ha as (doc_id & doc & ->).
        right. eauto.
      * constructor; [ | constructor ]. left. reflexivity.
Qed.

(** C6, amended.  When the feed raises mid-iteration, [get_docs] ends
    with an exception (the feed's own when the documents before it were
    classified without error); it has put only the updates of those
    documents: no Delete and no END_DOCS.  So the bulk writer of the pass
    never reaches its final flush, whatever the drain puts, and
    [async_bulk] does not return a result: [asyncio.gather] raises the
    exception of the task that fails first.  That exception is the
    feed's own, under every schedule, when no other task fails: the
    snapshot is read, the documents yielded before the failure are
    classified without error, and every download the drain awaits
    returns [None] or a dict holding "_id". *)
Theorem failing_feed_ends_the_task
    (iso_utc : nat -> string) (index : value) (existing_ids : pyset)
    (existing_timestamps : vdict) (gen : generator) (e : exn) (s : pass) :
  raises gen = Some e ->
  exists r s' updates,
    get_docs iso_utc index existing_ids existing_timestamps gen s = (r, s') /\
    (exists e', r = Raise e') /\
    (forall s1,
        for_each (classify iso_utc index existing_timestamps) (yields gen) s
          = (Ok tt, s1) ->
        r = Raise e) /\
    stream s' = stream s ++ updates /\
    Forall (is_update index) updates /\
    (stream s = [] ->
     forall server drained order,
       ~ In END_DOCS drained ->
       fst (_bulk server (interleave order (stream s') drained)) <> Done) /\
    (forall server es_docs sched,
        exists e',
          fst (async_bulk iso_utc server index gen es_docs sched) = Raises e') /\
    (forall server es_docs sched ids tss,
        read_existing es_docs [] [] = Ok (ids, tss) ->
        Forall well_behaved (yields gen) ->
        Forall drainable (_downloads server) ->
        fst (async_bulk iso_utc server index gen es_docs sched) = Raises e).
Proof.
  intros Hfail.
  destruct (get_docs iso_utc index existing_ids existing_timestamps gen s)
    as [r s'] eqn:Hrun.
  destruct (get_docs_failing_feed _ _ _ _ _ _ _ _ _ Hfail Hrun)
    as (Hr & Hfeed & [(updates & Hst & Hall) _ _ _ _]).
  exists r, s', updates.
  split; [reflexivity | ]. split; [exact Hr | ].
  split; [intros s1 H1; apply (Hfeed s1 H1) | ].
  split; [exact Hst | ]. split; [exact Hall | ].
  split; [ | split ].
  - intros Hempty server drained order Hdrained Hdone.
    apply done_reads_both_markers in Hdone as [Hdocs _].
    apply interleave_In in Hdocs.
    destruct Hdocs as [Hin | Hin]; [ | contradiction ].
    rewrite Hst, Hempty in Hin. simpl in Hin.
    rewrite Forall_forall in Hall.
    apply (is_update_not_END_DOCS index END_DOCS); auto.
  - intros server es_docs sched. eapply async_bulk_failing_feed; eassumption.
  - intros server es_docs sched ids tss Hread Hwb Hold.
    eapply failing_feed_alone; eassumption.
Qed.

Lemma failing_feed_ends_the_task_witness :
  exists r s' updates,
    get_docs Examples.clock_reading Examples.index [] []
      Examples.failing_feed (pass_init init) = (r, s') /\
    (exists e', r = Raise e') /\
    (forall s1,
        for_each (classify Examples.clock_reading Examples.index [])
          (yields Examples.failing_feed) (pass_init init) = (Ok tt, s1) ->
        r = Raise (Exception "I fail while syncing")) /\
    stream s' = stream (pass_init init) ++ updates /\
    Forall (is_update Examples.index) updates /\
    (stream (pass_init init) = [] ->
     forall server drained order,
       ~ In END_DOCS drained ->
       fst (_bulk server (interleave order (stream s') drained)) <> Done) /\
    (forall server es_docs sched,
        exists e',
          fst (async_bulk Examples.clock_reading server Examples.index
                 Examples.failing_feed es_docs sched) = Raises e') /\
    (forall server es_docs sched ids tss,
        read_existing es_docs [] [] = Ok (ids, tss) ->
        Forall well_behaved (yields Examples.failing_feed) ->
        Forall drainable (_downloads server) ->
        fst (async_bulk Examples.clock_reading server Examples.index
               Examples.failing_feed es_docs sched)
        = Raises (Exception "I fail while syncing")).
Proof.
  apply (failing_feed_ends_the_task Examples.clock_reading Examples.index
           [] [] Examples.failing_feed (Exception "I fail while syncing")
           (pass_init init)).
  reflexivity.
Defined.

(** The feed of [failing_feed] is well behaved up to its failure: on a
    fresh server the pass raises the exception of the feed under every
    schedule. *)
Example failing_feed_reaches_the_caller (sched : schedule) :
  fst (async_bulk Examples.clock_reading init Examples.index
         Examples.failing_feed [] sched)
  = Raises (Exception "I fail while syncing").
Proof.
  apply (failing_feed_alone Examples.clock_reading init Examples.index
           Examples.failing_feed [] sched [] []).
  - reflexivity.
  - reflexivity.
  - constructor; [ | constructor ]. split.
    + exists (VStr "1"), (FakeSources._dl "1").
      repeat split; try reflexivity. eexists. reflexivity.
    + intros f ts [= <-]. right. do 2 eexists. split; reflexivity.
  - constructor.
Qed.

(** On the server a first pass leaves, whose download has been drained,
    the drain fails too: when it fails before the feed does, the caller
    gets KeyError("_id"), not the exception of the feed. *)
Example drain_failure_reaches_the_caller_first :
  fst (async_bulk Examples.clock_reading (snd Examples.fake_pass)
         Examples.index Examples.failing_feed []
         {| drain_sees := 1; order := []; finish := [1] |})
  = Raises (KeyError "_id") /\
  fst (async_bulk Examples.clock_reading (snd Examples.fake_pass)
         Examples.index Examples.failing_feed []
         {| drain_sees := 1; order := []; finish := [0] |})
  = Raises (Exception "I fail while syncing").
Proof. split; reflexivity. Qed.

End FailingFeedFacts.

(* ================================================================== *)
(** ** More on [_DeepChainMap] *)
(* ================================================================== *)

Module ChainMoreFacts.

Import ManagementClient ManagementClientFacts.

Lemma chain_getitem_In (maps : list dict) (k : string) (v : value) :
  chain_getitem maps k = Ok v ->
  exists m, In m maps /\ dict_get k m = Some v.
Proof.
  induction maps as [ | m maps IH ]; simpl; [discriminate | ].
  destruct (dict_get k m) as [w | ] eqn:E.
  - intros [= <-]. exists m. auto.
  - intros H. destruct (IH H) as (m' & Hin & Hget). eauto.
Qed.

Lemma deep_values_In (maps : list dict) (k : string) (dv : dict) :
  In dv (deep_values maps k) ->
  exists m, In m maps /\ dict_get k m = Some (VDict dv).
Proof.
  induction maps as [ | m maps IH ]; simpl; [tauto | ].
  destruct (dict_get k m) as [ [ | b | s | l | d ] | ] eqn:E; simpl;
    try tauto.
  - intros [<- | H]; [eauto | ].
    destruct (IH H) as (m' & Hin & Hget). eauto.
  - intros H. destruct (IH H) as (m' & Hin & Hget). eauto.
Qed.

Lemma comprehension_entry entry ks d k v :
  comprehension entry ks = Some (Ok d) ->
  dict_get k d = Some v ->
  In k ks /\ entry k = Some (Ok v).
Proof.
  intros Hc Hget.
  assert (In k ks) as Hin.
  { rewrite <- (comprehension_keys _ _ _ Hc).
    eapply dict_get_In_keys; eassumption. }
  split; [exact Hin | ].
  destruct (comprehension_get _ _ _ Hc k Hin) as (w & Hw & Hget').
  congruence.
Qed.

(** Every value of the merged dict that is not a dict sits at the same
    path in one of the underlying mappings. *)
Lemma to_dict_invents_nothing (fuel : nat) :
  forall (maps : list dict) (desired : dict) (path : list string) (v : value),
    to_dict_fuel fuel maps = Some (Ok desired) ->
    path <> [] ->
    is_mapping v = false ->
    get_path (VDict desired) path = Some v ->
    exists m, In m maps /\ get_path (VDict m) path = Some v.
Proof.
  induction fuel as [ | fuel IH ]; intros maps desired path v Hd Hne Hv Hp;
    [discriminate | ].
  destruct path as [ | k path ]; [congruence | ]. simpl in Hp.
  destruct (dict_get k desired) as [x | ] eqn:Hx; [ | discriminate ].
  rewrite to_dict_fuel_S in Hd.
  destruct (comprehension_entry _ _ _ _ _ Hd Hx) as (_ & Hentry).
  unfold deep_getitem in Hentry.
  destruct (chain_getitem maps k) as [w | e] eqn:Hw; [ | discriminate ].
  destruct w as [ | b | s | l | dw ];
    try (inversion Hentry; subst x;
         apply get_path_leaf in Hp as [-> ->]; [ | reflexivity ];
         apply chain_getitem_In in Hw as (m & Hin & Hget);
         exists m; split; [exact Hin | ]; simpl; now rewrite Hget).
  case_to_dict Hentry. inversion Hentry; subst x.
  destruct path as [ | k' path' ].
  - simpl in Hp. inversion Hp; subst v. discriminate.
  - destruct (IH _ _ (k' :: path') v Hrec ltac:(discriminate) Hv Hp)
      as (dv & Hin & Hget).
    apply deep_values_In in Hin as (m & Hm & Hk).
    exists m. split; [exact Hm | ].
    change (get_path (VDict m) (k :: k' :: path'))
      with (match dict_get k m with
            | Some w => get_path w (k' :: path')
            | None => None
            end).
    now rewrite Hk.
Qed.

(** X13.  The mappings [ensure_content_index_mappings] decides to put
    for an index that has some invent nothing: every value of the
    result that is not a dict is the value the existing mappings or the
    new mappings hold at the same path. *)
Theorem desired_mappings_invent_nothing
    (index_info existing mappings desired : dict) :
  dict_get "mappings" index_info = Some (VDict existing) ->
  existing <> [] ->
  desired_mappings index_info mappings = Some (Ok desired) ->
  forall path v,
    path <> [] ->
    is_mapping v = false ->
    get_path (VDict desired) path = Some v ->
    get_path (VDict existing) path = Some v \/
    get_path (VDict mappings) path = Some v.
Proof.
  intros Hinfo Hne Hd path v Hp Hv Hget.
  unfold desired_mappings, dict_get_default in Hd. rewrite Hinfo in Hd.
  destruct existing as [ | kv existing ]; [congruence | ].
  simpl truthy in Hd. cbv iota in Hd. unfold to_dict in Hd.
  destruct (to_dict_invents_nothing _ _ _ _ _ Hd Hp Hv Hget)
    as (m & [<- | [<- | []]] & Hm); auto.
Qed.

Lemma desired_mappings_invent_nothing_witness :
  get_path (VDict Examples.existing_mappings) ["properties"; "title"; "type"]
  = Some (VStr "text") \/
  get_path (VDict Examples.new_mappings) ["properties"; "title"; "type"]
  = Some (VStr "text").
Proof.
  apply (desired_mappings_invent_nothing
           [("mappings", VDict Examples.existing_mappings)]
           Examples.existing_mappings Examples.new_mappings
           [("dynamic", VBool true);
            ("dynamic_templates", VList []);
            ("properties",
             VDict [("title",
                     VDict [("type", VStr "text"); ("index", VBool true)]);
                    ("body", VStr "x");
                    ("meta", VDict [("a", VDict [("b", VStr "c")])]);
                    ("id", VDict [("type", VStr "keyword")])])]).
  - reflexivity.
  - discriminate.
  - reflexivity.
  - discriminate.
  - reflexivity.
  - reflexivity.
Defined.

(** *** The result is a dict *)

Lemma update_keys_NoDup (ks d : list string) :
  NoDup d -> NoDup (update_keys d ks).
Proof.
  revert d. induction ks as [ | k ks IH ]; intros d Hd; simpl; [exact Hd | ].
  apply IH. destruct (existsb (String.eqb k) d) eqn:E; [exact Hd | ].
  apply NoDup_app; [exact Hd | repeat constructor; simpl; tauto | ].
  intros x Hx [<- | []].
  apply existsb_eqb_In in Hx. congruence.
Qed.

Lemma chain_iter_NoDup (maps : list dict) : NoDup (chain_iter maps).
Proof.
  unfold chain_iter. generalize (rev maps) as l.
  assert (forall l d, NoDup d ->
            NoDup (fold_left (fun d m => update_keys d (keys m)) l d)) as H.
  { induction l as [ | m l IH ]; intros d Hd; simpl; [exact Hd | ].
    apply IH. now apply update_keys_NoDup. }
  intros l. apply H. constructor.
Qed.

Lemma comprehension_Forall entry ks d (P : value -> Prop) :
  comprehension entry ks = Some (Ok d) ->
  (forall k v, In k ks -> entry k = Some (Ok v) -> P v) ->
  Forall (fun kv => P (snd kv)) d.
Proof.
  revert d. induction ks as [ | k ks IH ]; intros d; simpl.
  - intros [= <-] _. constructor.
  - destruct (entry k) as [ [v | e] | ] eqn:E; try discriminate.
    destruct (comprehension entry ks) as [ [d0 | e] | ]; try discriminate.
    intros [= <-] H. constructor.
    + simpl. apply (H k v); auto.
    + apply IH; [reflexivity | ]. intros k' v' Hin. apply H. now right.
Qed.

Lemma to_dict_well_formed (fuel : nat) :
  forall (maps : list dict) (desired : dict),
    Forall (fun m => well_formed (VDict m)) maps ->
    to_dict_fuel fuel maps = Some (Ok desired) ->
    well_formed (VDict desired).
Proof.
  induction fuel as [ | fuel IH ]; intros maps desired Hwf Hd;
    [discriminate | ].
  rewrite to_dict_fuel_S in Hd. apply well_formed_dict. split.
  - rewrite (comprehension_keys _ _ _ Hd). apply chain_iter_NoDup.
  - apply (comprehension_Forall _ _ _ well_formed Hd).
    intros k v _ Hentry. unfold deep_getitem in Hentry.
    destruct (chain_getitem maps k) as [w | e] eqn:Hw; [ | discriminate ].
    assert (well_formed w) as Hww.
    { apply chain_getitem_In in Hw as (m & Hin & Hget).
      rewrite Forall_forall in Hwf.
      eapply well_formed_get; [apply Hwf; exact Hin | exact Hget]. }
    destruct w as [ | b | s | l | dw ];
      try (inversion Hentry; subst v; exact Hww).
    case_to_dict Hentry. inversion Hentry; subst v.
    refine (IH _ _ _ Hrec).
    rewrite Forall_forall. intros dv Hdv.
    apply deep_values_In in Hdv as (m & Hin & Hget).
    rewrite Forall_forall in Hwf.
    eapply well_formed_get; [apply Hwf; exact Hin | exact Hget].
Qed.

(** *** Merging again changes nothing *)

Lemma update_keys_app (a b d : list string) :
  update_keys d (a ++ b) = update_keys (update_keys d a) b.
Proof.
  revert d. induction a as [ | k a IH ]; intros d; simpl; [reflexivity | ].
  apply IH.
Qed.

Lemma update_keys_present (ks d : list string) :
  (forall k, In k ks -> In k d) -> update_keys d ks = d.
Proof.
  induction ks as [ | k ks IH ]; intros H; simpl; [reflexivity | ].
  assert (existsb (String.eqb k) d = true) as ->
      by (apply existsb_eqb_In; apply H; now left).
  apply IH. intros k' Hk'. apply H. now right.
Qed.

Lemma update_keys_extends (ks d : list string) :
  NoDup d ->
  exists extra, update_keys d ks = d ++ extra /\ NoDup (d ++ extra).
Proof.
  revert d. induction ks as [ | k ks IH ]; intros d Hd; simpl.
  - exists []. rewrite app_nil_r. auto.
  - destruct (existsb (String.eqb k) d) eqn:E; [apply IH; exact Hd | ].
    destruct (IH (d ++ [k])) as (extra & Heq & Hnd).
    { apply NoDup_app; [exact Hd | repeat constructor; simpl; tauto | ].
      intros x Hx [<- | []]. apply existsb_eqb_In in Hx. congruence. }
    exists (k :: extra). rewrite Heq, <- app_assoc. simpl.
    split; [reflexivity | ]. rewrite <- app_assoc in Hnd. exact Hnd.
Qed.

Lemma update_keys_absorb (ks d : list string) :
  NoDup d -> update_keys d (update_keys d ks) = update_keys d ks.
Proof.
  intros Hd. destruct (update_keys_extends ks d Hd) as (extra & -> & Hnd).
  rewrite update_keys_app, (update_keys_present d d) by auto.
  now apply update_keys_fresh.
Qed.

Lemma chain_iter_pair (m n : dict) :
  NoDup (keys n) -> chain_iter [m; n] = update_keys (keys n) (keys m).
Proof.
  intros Hn. unfold chain_iter. simpl.
  now rewrite (update_keys_fresh (keys n) []).
Qed.

(** A chain over twice the same well-formed dict gives the dict back. *)
Lemma to_dict_twice (fuel : nat) :
  forall d d' : dict,
    well_formed (VDict d) ->
    to_dict_fuel fuel [d; d] = Some (Ok d') -> d' = d.
Proof.
  induction fuel as [ | fuel IH ]; intros d d' Hwf; [discriminate | ].
  rewrite to_dict_fuel_S.
  pose proof Hwf as Hwf'. apply well_formed_dict in Hwf' as [Hnd Hall].
  rewrite (chain_iter_pair _ _ Hnd), update_keys_present by auto.
  intros Hc. apply (comprehension_copy _ _ _ Hc). intros k v v' Hin Hentry.
  pose proof (dict_get_NoDup _ _ _ Hnd Hin) as Hget.
  unfold deep_getitem in Hentry. simpl in Hentry. rewrite Hget in Hentry.
  destruct v as [ | b | s | l | dv ]; try (now inversion Hentry).
  case_to_dict Hentry. inversion Hentry; subst. f_equal.
  eapply IH; [ | eassumption ].
  eapply well_formed_get; eassumption.
Qed.

Lemma In_dict_get (k : string) (v : value) (d : dict) :
  dict_get k d = Some v -> In (k, v) d.
Proof.
  induction d as [ | [k' w] d IH ]; simpl; [discriminate | ].
  destruct (String.eqb k k') eqn:E.
  - apply String.eqb_eq in E. subst k'. intros [= <-]. now left.
  - intros H. right. auto.
Qed.

Lemma merge_again (fuel : nat) :
  forall (fuel' : nat) (E N D D' : dict),
    well_formed (VDict E) ->
    well_formed (VDict N) ->
    to_dict_fuel fuel [E; N] = Some (Ok D) ->
    to_dict_fuel fuel' [D; N] = Some (Ok D') ->
    D' = D.
Proof.
  induction fuel as [ | fuel IH ]; intros fuel' E N D D' HE HN Hd Hd';
    [discriminate | ].
  destruct fuel' as [ | fuel' ]; [discriminate | ].
  assert (well_formed (VDict D)) as HD.
  { eapply to_dict_well_formed; [ | exact Hd ].
    constructor; [exact HE | constructor; [exact HN | constructor]]. }
  pose proof HN as HN'. apply well_formed_dict in HN' as [HNnd _].
  pose proof HD as HD'. apply well_formed_dict in HD' as [HDnd _].
  rewrite to_dict_fuel_S in Hd, Hd'.
  assert (chain_iter [D; N] = keys D) as Hkeys.
  { rewrite (chain_iter_pair _ _ HNnd), (comprehension_keys _ _ _ Hd).
    rewrite (chain_iter_pair _ _ HNnd). now apply update_keys_absorb. }
  rewrite Hkeys in Hd'.
  apply (comprehension_copy _ _ _ Hd'). intros k v v' Hin Hentry'.
  pose proof (dict_get_NoDup _ _ _ HDnd Hin) as HgetD.
  destruct (comprehension_entry _ _ _ _ _ Hd HgetD) as (_ & Hentry).
  unfold deep_getitem in Hentry'. simpl in Hentry'. rewrite HgetD in Hentry'.
  destruct v as [ | b | s | l | dv ]; try (now inversion Hentry').
  unfold deep_getitem in Hentry. simpl in Hentry.
  destruct (dict_get k E) as [ [ | b | s | l | e' ] | ] eqn:HkE;
    try discriminate.
  - (* both sides may hold a dict under the key *)
    assert (well_formed (VDict e')) as He'
        by (exact (well_formed_get k E _ HE HkE)).
    destruct (dict_get k N) as [ [ | b | s | l | n' ] | ] eqn:HkN;
      case_to_dict Hentry; inversion Hentry; subst d';
      case_to_dict Hentry'; inversion Hentry'; subst v'; f_equal;
      try (apply to_dict_copy in Hrec; [subst dv | exact He'];
           apply (to_dict_copy _ _ _ He' Hrec0)).
    exact (IH _ e' n' _ _ He' (well_formed_get k N _ HN HkN) Hrec Hrec0).
  - (* only the new mappings have the key *)
    destruct (dict_get k N) as [ [ | b | s | l | n' ] | ] eqn:HkN;
      try discriminate.
    assert (well_formed (VDict n')) as Hn'
        by (exact (well_formed_get k N _ HN HkN)).
    case_to_dict Hentry; inversion Hentry; subst d'.
    case_to_dict Hentry'; inversion Hentry'; subst v'; f_equal.
    apply to_dict_copy in Hrec; [subst dv | exact Hn'].
    exact (to_dict_twice _ _ _ Hn' Hrec0).
Qed.

(** X14.  The merge is idempotent: once the mappings computed for an
    index are in place, asking for the same new mappings again computes
    the very same mappings. *)
Theorem desired_mappings_idempotent
    (index_info existing mappings desired : dict) :
  dict_get "mappings" index_info = Some (VDict existing) ->
  existing <> [] ->
  well_formed (VDict existing) ->
  well_formed (VDict mappings) ->
  desired_mappings index_info mappings = Some (Ok desired) ->
  desired_mappings [("mappings", VDict desired)] mappings = Some (Ok desired).
Proof.
  intros Hinfo Hne HE HN Hd.
  unfold desired_mappings, dict_get_default in Hd. rewrite Hinfo in Hd.
  destruct existing as [ | [k0 v0] existing ]; [congruence | ].
  simpl truthy in Hd. cbv iota in Hd. unfold to_dict in Hd.
  assert (In k0 (keys desired)) as Hk0.
  { apply (to_dict_keys _ _ _ k0 Hd). exists ((k0, v0) :: existing).
    split; [now left | now left]. }
  destruct desired as [ | kv desired ]; [contradiction | ].
  unfold desired_mappings, dict_get_default. simpl dict_get.
  simpl truthy. cbv iota.
  destruct (to_dict_total [kv :: desired; mappings]) as (D' & HD').
  rewrite HD'. unfold to_dict in HD'.
  now rewrite (merge_again _ _ _ _ _ _ HE HN Hd HD').
Qed.

Lemma desired_mappings_idempotent_witness :
  desired_mappings
    [("mappings",
      VDict [("dynamic", VBool true);
             ("dynamic_templates", VList []);
             ("properties",
              VDict [("title",
                      VDict [("type", VStr "text"); ("index", VBool true)]);
                     ("body", VStr "x");
                     ("meta", VDict [("a", VDict [("b", VStr "c")])]);
                     ("id", VDict [("type", VStr "keyword")])])])]
    Examples.new_mappings =
  Some (Ok [("dynamic", VBool true);
            ("dynamic_templates", VList []);
            ("properties",
             VDict [("title",
                     VDict [("type", VStr "text"); ("index", VBool true)]);
                    ("body", VStr "x");
                    ("meta", VDict [("a", VDict [("b", VStr "c")])]);
                    ("id", VDict [("type", VStr "keyword")])])]).
Proof.
  apply (desired_mappings_idempotent
           [("mappings", VDict Examples.existing_mappings)]
           Examples.existing_mappings Examples.new_mappings).
  - reflexivity.
  - discriminate.
  - simpl. repeat split; repeat constructor; simpl; intuition discriminate.
  - simpl. repeat split; repeat constructor; simpl; intuition discriminate.
  - reflexivity.
Defined.

(** *** The view under a key *)

(** X15.  As the docstring of [_DeepChainMap] says, the view under a key
    groups the mappings found before the first value that is not a
    mapping: the underlying mappings that come after such a value are
    never consulted for that key, whatever they hold. *)
Theorem view_stops_at_first_non_mapping
    (pre post : list dict) (m : dict) (k : string) (v : value) :
  dict_get k m = Some v ->
  is_mapping v = false ->
  deep_values (pre ++ m :: post) k = deep_values (pre ++ [m]) k /\
  deep_getitem (pre ++ m :: post) k = deep_getitem (pre ++ [m]) k.
Proof.
  intros Hk Hv.
  assert (deep_values (pre ++ m :: post) k = deep_values (pre ++ [m]) k)
    as Hvalues.
  { induction pre as [ | p pre IH ]; simpl.
    - rewrite Hk. destruct v; try reflexivity. discriminate.
    - destruct (dict_get k p) as [ [ | b | s | l | d ] | ]; try reflexivity.
      + now rewrite IH.
      + exact IH. }
  split; [exact Hvalues | ].
  unfold deep_getitem. rewrite Hvalues.
  assert (chain_getitem (pre ++ m :: post) k = chain_getitem (pre ++ [m]) k)
    as ->; [ | reflexivity ].
  induction pre as [ | p pre IH ]; simpl.
  - now rewrite Hk.
  - destruct (dict_get k p); [reflexivity | ].
    apply IH.
    clear - Hk Hv. induction pre as [ | q pre IH ]; simpl.
    + rewrite Hk. destruct v; try reflexivity. discriminate.
    + destruct (dict_get k q) as [ [ | b | s | l | d ] | ]; try reflexivity.
      * now rewrite IH.
      * exact IH.
Qed.

Lemma view_stops_at_first_non_mapping_witness :
  deep_values
    ([[("a", VDict [("x", VStr "1")])]; [("a", VDict [("y", VStr "2")])]] ++
     [("a", VStr "s")] :: [[("a", VDict [("z", VStr "3")])]]) "a"
  = deep_values
      ([[("a", VDict [("x", VStr "1")])]; [("a", VDict [("y", VStr "2")])]] ++
       [[("a", VStr "s")]]) "a" /\
  deep_getitem
    ([[("a", VDict [("x", VStr "1")])]; [("a", VDict [("y", VStr "2")])]] ++
     [("a", VStr "s")] :: [[("a", VDict [("z", VStr "3")])]]) "a"
  = deep_getitem
      ([[("a", VDict [("x", VStr "1")])]; [("a", VDict [("y", VStr "2")])]] ++
       [[("a", VStr "s")]]) "a".
Proof.
  apply (view_stops_at_first_non_mapping
           [[("a", VDict [("x", VStr "1")])]; [("a", VDict [("y", VStr "2")])]]
           [[("a", VDict [("z", VStr "3")])]]
           [("a", VStr "s")] "a" (VStr "s")); reflexivity.
Defined.

(** *** The arguments of [put_mapping] *)

Lemma dict_get_not_key (k : string) (d : dict) :
  ~ In k (keys d) -> dict_get k d = None.
Proof.
  intros H. destruct (dict_get k d) as [v | ] eqn:E; [ | reflexivity ].
  exfalso. apply H. eapply dict_get_In_keys; eassumption.
Qed.

(** X16.  For an index that has mappings, [put_mapping] is called with
    the [dynamic] setting of the existing mappings whenever they have
    one, whatever the new mappings ask for; with [False] when neither
    side has one. *)
Theorem put_mapping_keeps_existing_dynamic
    (index_info existing mappings : dict) :
  dict_get "mappings" index_info = Some (VDict existing) ->
  existing <> [] ->
  exists desired,
    desired_mappings index_info mappings = Some (Ok desired) /\
    (forall v,
        dict_get "dynamic" existing = Some v ->
        is_mapping v = false ->
        dynamic (put_mapping_call desired) = v) /\
    (dict_get "dynamic" existing = None ->
     dict_get "dynamic" mappings = None ->
     dynamic (put_mapping_call desired) = VBool false).
Proof.
  intros Hinfo Hne.
  destruct (to_dict_total [existing; mappings]) as [desired Hd].
  exists desired.
  assert (desired_mappings index_info mappings = Some (Ok desired)) as Hdm.
  { unfold desired_mappings, dict_get_default. rewrite Hinfo.
    destruct existing; [congruence | exact Hd]. }
  split; [exact Hdm | ]. unfold to_dict in Hd. split.
  - intros v Hv Hleaf.
    pose proof (first_map_kept _ existing [mappings] desired ["dynamic"] v Hd
                  ltac:(discriminate)) as Hkept.
    simpl in Hkept. rewrite Hv in Hkept. specialize (Hkept eq_refl).
    unfold put_mapping_call, dict_get_default. simpl.
    destruct (dict_get "dynamic" desired) as [w | ];
      destruct v; try discriminate; congruence.
  - intros He Hn. unfold put_mapping_call, dict_get_default. simpl.
    rewrite dict_get_not_key; [reflexivity | ].
    rewrite (to_dict_keys _ _ _ "dynamic" Hd).
    intros (m & [<- | [<- | []]] & Hk);
      apply In_keys_dict_get in Hk as [w Hw]; congruence.
Qed.

Lemma put_mapping_keeps_existing_dynamic_witness :
  exists desired,
    desired_mappings [("mappings", VDict Examples.existing_mappings)]
      Examples.new_mappings = Some (Ok desired) /\
    (forall v,
        dict_get "dynamic" Examples.existing_mappings = Some v ->
        is_mapping v = false ->
        dynamic (put_mapping_call desired) = v) /\
    (dict_get "dynamic" Examples.existing_mappings = None ->
     dict_get "dynamic" Examples.new_mappings = None ->
     dynamic (put_mapping_call desired) = VBool false).
Proof.
  apply (put_mapping_keeps_existing_dynamic
           [("mappings", VDict Examples.existing_mappings)]
           Examples.existing_mappings Examples.new_mappings).
  - reflexivity.
  - discriminate.
Defined.

End ChainMoreFacts.

(* ================================================================== *)
(** ** Facts about the management client *)
(* ================================================================== *)

Module ClientMoreFacts.

Import ManagementClient ManagementClientMore PyFacts ManagementClientFacts.

(** *** [ensure_content_index_settings] *)

(** X17.  Outside serverless, for an index without analysis settings,
    [ensure_content_index_settings] returns normally whatever fails; it
    always asks to close the index, asks for the settings update only
    if the close succeeded, and asks to reopen the index only if both
    the close and the settings update succeeded: a failed settings
    update leaves the index closed. *)
Theorem index_reopened_only_after_settings_update
    (settings : value) (fails : request -> bool)
    (index_name : string) (index : value) :
  has_analysis index = Gives false ->
  exists sent,
    ensure_content_index_settings false settings fails index_name index
      = Gives sent /\
    In (indices_close index_name) sent /\
    (In (indices_put_settings index_name settings) sent <->
       fails (indices_close index_name) = false) /\
    (In (indices_open index_name) sent <->
       fails (indices_close index_name) = false /\
       fails (indices_put_settings index_name settings) = false).
Proof.
  intros Hno. unfold ensure_content_index_settings.
  rewrite Hno. cbn [then_ negb send].
  eexists. split; [reflexivity | ].
  destruct (fails (indices_close index_name)) eqn:Hc;
    destruct (fails (indices_put_settings index_name settings)) eqn:Hp;
    cbn [In];
    repeat split; intros;
      repeat match goal with
             | H : _ \/ _ |- _ => destruct H
             | H : _ /\ _ |- _ => destruct H
             end;
      try discriminate; try contradiction; auto.
Qed.

Lemma index_reopened_only_after_settings_update_witness :
  exists sent,
    ensure_content_index_settings false (VDict [])
      (fun r => match r with indices_put_settings _ _ => true | _ => false end)
      "search-idx" (VDict []) = Gives sent /\
    In (indices_close "search-idx") sent /\
    (In (indices_put_settings "search-idx" (VDict [])) sent <-> false = false) /\
    (In (indices_open "search-idx") sent <-> false = false /\ true = false).
Proof.
  apply (index_reopened_only_after_settings_update (VDict [])
           (fun r => match r with indices_put_settings _ _ => true | _ => false end)
           "search-idx" (VDict [])).
  reflexivity.
Defined.

(** X18.  An index whose settings hold anything under index.analysis is
    left alone, in both modes: no request is sent. *)
Theorem existing_analysis_sends_nothing
    (serverless : bool) (settings : value) (fails : request -> bool)
    (index_name : string) (index : dict) (analysis : value) :
  get_path (VDict index) ["settings"; "index"; "analysis"] = Some analysis ->
  ensure_content_index_settings serverless settings fails index_name
    (VDict index) = Gives [].
Proof.
  cbn [get_path]. intros H.
  unfold ensure_content_index_settings, has_analysis, mapping_get,
    dict_get_default.
  destruct (dict_get "settings" index) as [ [ | | | | s ] | ];
    try discriminate.
  cbn [then_].
  destruct (dict_get "index" s) as [ [ | | | | i ] | ]; try discriminate.
  cbn [then_ contains]. unfold dict_mem.
  destruct (dict_get "analysis" i); [reflexivity | discriminate].
Qed.

Lemma existing_analysis_sends_nothing_witness :
  ensure_content_index_settings true (VDict []) (fun _ => false) "search-idx"
    (VDict [("settings", VDict [("index", VDict [("analysis", VDict [])])])])
  = Gives [].
Proof.
  apply (existing_analysis_sends_nothing true (VDict []) (fun _ => false)
           "search-idx" _ (VDict [])).
  reflexivity.
Defined.

(** X19.  An index description with no "settings", with settings that
    have no "index", or with index settings that have no "analysis",
    gets the settings: the first request is the PUT with reopen=true in
    serverless mode, and the close of the index otherwise. *)
Theorem missing_analysis_is_added
    (serverless : bool) (settings : value) (fails : request -> bool)
    (index_name : string) (index : dict) :
  lacks_analysis index ->
  exists rest,
    ensure_content_index_settings serverless settings fails index_name
      (VDict index)
    = Gives
        ((if serverless then
            perform_request "PUT"
              ("/" ++ index_name ++ "/_settings?reopen=true")
              settings json_headers
          else indices_close index_name) :: rest).
Proof.
  intros H.
  assert (Hno : has_analysis (VDict index) = Gives false).
  { unfold has_analysis, mapping_get, dict_get_default.
    destruct H as [ -> | (s & -> & [ Hi | (i & Hi & Ha) ]) ];
      cbn [then_]; [reflexivity | | ]; rewrite Hi; cbn [contains].
    - reflexivity.
    - unfold dict_mem. now rewrite Ha. }
  unfold ensure_content_index_settings. rewrite Hno. cbn [then_ negb].
  destruct serverless; cbn [send]; eexists; reflexivity.
Qed.

Lemma missing_analysis_is_added_witness :
  exists rest,
    ensure_content_index_settings true (VDict []) (fun _ => false) "search-idx"
      (VDict [("settings", VDict [("number_of_shards", VStr "1")])])
    = Gives
        (perform_request "PUT" "/search-idx/_settings?reopen=true"
           (VDict []) json_headers :: rest).
Proof.
  apply (missing_analysis_is_added true (VDict []) (fun _ => false)
           "search-idx"
           [("settings", VDict [("number_of_shards", VStr "1")])]).
  right. eexists. split; [reflexivity | ]. left. reflexivity.
Defined.

(** *** [list_indices] *)

Lemma collect_counts_counted name stats count rest acc :
  get_path stats docs_count_path = Some count ->
  collect_counts ((name, stats) :: rest) acc
  = collect_counts rest (dict_set name (VDict [("docs_count", count)]) acc).
Proof.
  unfold docs_count_path. cbn [get_path]. intros H.
  destruct stats as [ | | | | s ]; try discriminate.
  destruct (dict_get "primaries" s) as [ [ | | | | p ] | ] eqn:Hp;
    try discriminate.
  destruct (dict_get "docs" p) as [ [ | | | | d ] | ] eqn:Hd;
    try discriminate.
  destruct (dict_get "count" d) as [ c | ] eqn:Hc; try discriminate.
  injection H as <-.
  cbn [collect_counts]. unfold lookup, Byoei.getitem, dict_getitem.
  rewrite Hp. cbn [then_]. rewrite Hd. cbn [then_]. rewrite Hc.
  reflexivity.
Qed.

Lemma collect_counts_uncounted name stats rest acc :
  get_path stats docs_count_path = None ->
  exists e, collect_counts ((name, stats) :: rest) acc = Throws (PyError e).
Proof.
  unfold docs_count_path. cbn [get_path collect_counts]. intros H.
  unfold lookup, Byoei.getitem, dict_getitem.
  destruct stats as [ | | | | s ]; try (eexists; reflexivity).
  destruct (dict_get "primaries" s) as [ p | ];
    [ | eexists; reflexivity ].
  cbn [then_].
  destruct p as [ | | | | p ]; try (eexists; reflexivity).
  destruct (dict_get "docs" p) as [ d | ]; [ | eexists; reflexivity ].
  cbn [then_].
  destruct d as [ | | | | d ]; try (eexists; reflexivity).
  destruct (dict_get "count" d) as [ c | ];
    [ discriminate | eexists; reflexivity ].
Qed.

Lemma dict_set_fresh (k : string) (v : value) (d : dict) :
  ~ In k (keys d) -> dict_set k v d = d ++ [(k, v)].
Proof.
  induction d as [ | [k' w] d IH ]; cbn [dict_set keys map fst In app];
    intros H; [reflexivity | ].
  destruct (String.eqb k k') eqn:E.
  - apply String.eqb_eq in E. subst k'. exfalso. apply H. now left.
  - rewrite IH; [reflexivity | ]. intros Hin. apply H. now right.
Qed.

Lemma collect_counts_all (entries : dict) :
  forall acc : dict,
    NoDup (keys acc ++ keys entries) ->
    (forall name stats,
        In (name, stats) entries -> get_path stats docs_count_path <> None) ->
    exists added : dict,
      collect_counts entries acc = Gives (acc ++ added) /\
      keys added = keys entries /\
      forall name stats,
        In (name, stats) entries ->
        exists count,
          get_path stats docs_count_path = Some count /\
          In (name, VDict [("docs_count", count)]) added.
Proof.
  induction entries as [ | [n st] rest IH ]; intros acc Hnd Hall.
  - exists []. rewrite app_nil_r. cbn. repeat split. intros ? ? [].
  - destruct (get_path st docs_count_path) as [ c | ] eqn:Hc;
      [ | exfalso; apply (Hall n st); [now left | assumption] ].
    rewrite (collect_counts_counted _ _ _ _ _ Hc).
    assert (Hfresh : ~ In n (keys acc)).
    { intros Hin. unfold keys in Hnd. cbn [map fst] in Hnd.
      apply NoDup_remove_2 in Hnd. apply Hnd. apply in_or_app. now left. }
    rewrite (dict_set_fresh _ _ _ Hfresh).
    destruct (IH (acc ++ [(n, VDict [("docs_count", c)])]))
      as (added & Hrun & Hkeys & Hin).
    + unfold keys in *. rewrite map_app. cbn [map fst] in *.
      rewrite <- app_assoc. exact Hnd.
    + intros name stats H. apply (Hall name stats). now right.
    + exists ((n, VDict [("docs_count", c)]) :: added).
      rewrite Hrun, <- app_assoc. split; [reflexivity | ].
      split; [unfold keys in *; cbn [map fst]; now rewrite Hkeys | ].
      intros name stats [Heq | H].
      * inversion Heq; subst. exists c. split; [assumption | now left].
      * destruct (Hin name stats H) as (count & Hcount & Hadded).
        exists count. split; [assumption | now right].
Qed.

(** X20.  When the statistics of every index hold primaries.docs.count,
    [list_indices] returns one entry per index of the answer, in the
    order of the answer, and the entry of an index is
    [{"docs_count": count}] with the count of its primaries. *)
Theorem list_indices_counts_every_index (response entries : dict) :
  dict_get "indices" response = Some (VDict entries) ->
  NoDup (keys entries) ->
  (forall name stats,
      In (name, stats) entries -> get_path stats docs_count_path <> None) ->
  exists indices,
    list_indices (Gives (VDict response)) = Gives indices /\
    keys indices = keys entries /\
    forall name stats,
      dict_get name entries = Some stats ->
      exists count,
        get_path stats docs_count_path = Some count /\
        dict_get name indices = Some (VDict [("docs_count", count)]).
Proof.
  intros Hresp Hnd Hall.
  destruct (collect_counts_all entries [] Hnd Hall)
    as (indices & Hrun & Hkeys & Hin).
  exists indices.
  unfold list_indices, lookup, Byoei.getitem, dict_getitem.
  cbn [then_]. rewrite Hresp. cbn [then_ items]. rewrite Hrun.
  split; [reflexivity | ]. split; [assumption | ].
  intros name stats Hget.
  destruct (Hin name stats (ChainMoreFacts.In_dict_get _ _ _ Hget))
    as (count & Hcount & Hadded).
  exists count. split; [assumption | ].
  apply dict_get_NoDup; [ | assumption ].
  now rewrite Hkeys.
Qed.

Lemma list_indices_counts_every_index_witness :
  exists indices,
    list_indices (Gives (VDict MoreExamples.stats_answer)) = Gives indices /\
    keys indices = keys MoreExamples.stats_indices /\
    forall name stats,
      dict_get name MoreExamples.stats_indices = Some stats ->
      exists count,
        get_path stats docs_count_path = Some count /\
        dict_get name indices = Some (VDict [("docs_count", count)]).
Proof.
  apply (list_indices_counts_every_index
           MoreExamples.stats_answer MoreExamples.stats_indices).
  - reflexivity.
  - repeat constructor; cbn; intuition discriminate.
  - intros name stats [H | [H | []]]; inversion H; subst; discriminate.
Defined.

Lemma collect_counts_fails (entries : dict) :
  forall (acc : dict) name stats,
    In (name, stats) entries ->
    get_path stats docs_count_path = None ->
    exists e, collect_counts entries acc = Throws (PyError e).
Proof.
  induction entries as [ | [n st] rest IH ]; intros acc name stats Hin Hnone;
    [destruct Hin | ].
  destruct (get_path st docs_count_path) as [ c | ] eqn:Hc.
  - rewrite (collect_counts_counted _ _ _ _ _ Hc).
    destruct Hin as [Heq | Hin]; [inversion Heq; subst; congruence | ].
    exact (IH _ name stats Hin Hnone).
  - exact (collect_counts_uncounted n st rest acc Hc).
Qed.

(** X21.  If the statistics of one index of the answer lack
    primaries.docs.count, [list_indices] raises and lists nothing, even
    the indices whose count is there. *)
Theorem list_indices_fails_without_a_count
    (response entries : dict) (name : string) (stats : value) :
  dict_get "indices" response = Some (VDict entries) ->
  In (name, stats) entries ->
  get_path stats docs_count_path = None ->
  exists e, list_indices (Gives (VDict response)) = Throws (PyError e).
Proof.
  intros Hresp Hin Hnone.
  destruct (collect_counts_fails entries [] name stats Hin Hnone) as [e He].
  exists e.
  unfold list_indices, lookup, Byoei.getitem, dict_getitem.
  cbn [then_]. rewrite Hresp. cbn [then_ items]. exact He.
Qed.

Lemma list_indices_fails_without_a_count_witness :
  exists e,
    list_indices
      (Gives
         (VDict
            [("indices",
              VDict (MoreExamples.stats_indices
                       ++ [("search-new", VDict [("primaries", VDict [])])]))]))
    = Throws (PyError e).
Proof.
  apply (list_indices_fails_without_a_count
           [("indices",
             VDict (MoreExamples.stats_indices
                      ++ [("search-new", VDict [("primaries", VDict [])])]))]
           (MoreExamples.stats_indices
              ++ [("search-new", VDict [("primaries", VDict [])])])
           "search-new" (VDict [("primaries", VDict [])])).
  - reflexivity.
  - cbn. tauto.
  - reflexivity.
Defined.

(** *** [list_indices_serverless] *)

Lemma collect_names_get (entries : list (string * value)) (name : string) :
  forall acc : dict,
    dict_get name
      (fold_left
         (fun indices entry => dict_set (fst entry) (VDict []) indices)
         entries acc)
    = if dict_mem name entries then Some (VDict []) else dict_get name acc.
Proof.
  induction entries as [ | [k v] rest IH ]; intros acc; [reflexivity | ].
  cbn [fold_left fst]. rewrite IH.
  unfold dict_mem. cbn [dict_get].
  destruct (String.eqb name k) eqn:E.
  - apply String.eqb_eq in E. subst k. rewrite dict_get_set_eq.
    now destruct (dict_get name rest).
  - apply String.eqb_neq in E. now rewrite dict_get_set_ne.
Qed.

(** X22.  [list_indices_serverless] maps exactly the names of the answer
    of [indices.get] to empty dicts; when the request ends with an
    [ApiError] it raises nothing and returns the empty dict. *)
Theorem serverless_listing_names_or_nothing :
  (forall entries : dict,
      exists indices,
        list_indices_serverless (Gives (VDict entries)) = Gives indices /\
        forall name,
          dict_get name indices
          = if dict_mem name entries then Some (VDict []) else None) /\
  (forall e,
      is_api_error e = true ->
      list_indices_serverless (Throws (EsError e)) = Gives []).
Proof.
  split.
  - intros entries. eexists. split; [reflexivity | ].
    intros name. unfold collect_names. now rewrite collect_names_get.
  - intros e He. cbn [list_indices_serverless]. now rewrite He.
Qed.

Lemma serverless_listing_names_or_nothing_witness :
  list_indices_serverless (Throws (EsError (OtherApiError 403))) = Gives [].
Proof.
  apply (proj2 serverless_listing_names_or_nothing). reflexivity.
Defined.

(** *** [yield_existing_documents_metadata] *)

Section WithTimestampField.

Variable TIMESTAMP_FIELD : string.

Lemma metadata_hit (doc : value) (source : dict) (hit_id : value) :
  is_hit doc source hit_id ->
  metadata TIMESTAMP_FIELD doc
  = Gives (dict_get_default "id" hit_id source,
           dict_get_default TIMESTAMP_FIELD VNone source).
Proof.
  intros (h & -> & Hs & Hi).
  unfold metadata, lookup, Byoei.getitem, dict_getitem.
  rewrite Hs. cbn [then_]. rewrite Hi. reflexivity.
Qed.

(** X23.  For an index that exists, the scan yields one pair per hit, in
    the order of the hits and without raising: the "id" of the source,
    or the "_id" of the hit when the source has none, and the timestamp
    field of the source, or [None] when the source has none. *)
Theorem scan_yields_one_pair_per_hit (hits : list value) :
  Forall (fun doc => exists source hit_id, is_hit doc source hit_id) hits ->
  exists pairs,
    yield_existing_documents_metadata TIMESTAMP_FIELD true hits
    = (pairs, None) /\
    Forall2
      (fun doc yielded =>
         forall source hit_id,
           is_hit doc source hit_id ->
           yielded = (dict_get_default "id" hit_id source,
                      dict_get_default TIMESTAMP_FIELD VNone source))
      hits pairs.
Proof.
  unfold yield_existing_documents_metadata. cbn [negb].
  induction 1 as [ | doc rest (source & hit_id & Hhit) _ (pairs & Hrun & Hall) ].
  - exists []. split; [reflexivity | constructor].
  - exists ((dict_get_default "id" hit_id source,
             dict_get_default TIMESTAMP_FIELD VNone source) :: pairs).
    cbn [scan]. rewrite (metadata_hit _ _ _ Hhit), Hrun.
    split; [reflexivity | ].
    constructor; [ | assumption ].
    intros source' hit_id' (h' & Hdoc' & Hs' & Hi').
    destruct Hhit as (h & Hdoc & Hs & Hi).
    subst doc. injection Hdoc' as <-.
    rewrite Hs in Hs'. rewrite Hi in Hi'.
    injection Hs' as <-. injection Hi' as <-. reflexivity.
Qed.

(** X24.  The "_id" of a hit is read before the source is asked for its
    "id": a hit without "_id" ends the scan with [KeyError("_id")] after
    the pairs of the hits before it, even if its source has an "id". *)
Theorem hit_without_id_ends_the_scan
    (before after : list value) (h source : dict) :
  Forall (fun doc => exists source hit_id, is_hit doc source hit_id) before ->
  dict_get "_source" h = Some (VDict source) ->
  dict_get "_id" h = None ->
  exists pairs,
    yield_existing_documents_metadata TIMESTAMP_FIELD true
      (before ++ VDict h :: after)
    = (pairs, Some (PyError (KeyError "_id"))) /\
    List.length pairs = List.length before.
Proof.
  intros Hbefore Hs Hi.
  unfold yield_existing_documents_metadata. cbn [negb].
  induction Hbefore
    as [ | doc rest (source' & hit_id & Hhit) _ (pairs & Hrun & Hlen) ].
  - exists []. cbn [app scan].
    unfold metadata, lookup, Byoei.getitem, dict_getitem.
    rewrite Hs. cbn [then_]. rewrite Hi. split; reflexivity.
  - eexists (_ :: pairs).
    cbn [app scan]. rewrite (metadata_hit _ _ _ Hhit), Hrun.
    split; [reflexivity | ]. cbn [List.length]. now rewrite Hlen.
Qed.

End WithTimestampField.

Lemma scan_yields_one_pair_per_hit_witness :
  exists pairs,
    yield_existing_documents_metadata "_timestamp" true MoreExamples.hits
    = (pairs, None) /\
    Forall2
      (fun doc yielded =>
         forall source hit_id,
           is_hit doc source hit_id ->
           yielded = (dict_get_default "id" hit_id source,
                      dict_get_default "_timestamp" VNone source))
      MoreExamples.hits pairs.
Proof.
  apply (scan_yields_one_pair_per_hit "_timestamp" MoreExamples.hits).
  repeat constructor.
  - do 2 eexists. eexists. repeat split; reflexivity.
  - do 2 eexists. eexists. repeat split; reflexivity.
Defined.

Lemma hit_without_id_ends_the_scan_witness :
  exists pairs,
    yield_existing_documents_metadata "_timestamp" true
      (MoreExamples.hits
         ++ VDict [("_source", VDict [("id", VStr "c")])] :: MoreExamples.hits)
    = (pairs, Some (PyError (KeyError "_id"))) /\
    List.length pairs = List.length MoreExamples.hits.
Proof.
  apply (hit_without_id_ends_the_scan "_timestamp"
           MoreExamples.hits MoreExamples.hits
           [("_source", VDict [("id", VStr "c")])] [("id", VStr "c")]).
  - repeat constructor.
    + do 2 eexists. eexists. repeat split; reflexivity.
    + do 2 eexists. eexists. repeat split; reflexivity.
  - reflexivity.
  - reflexivity.
Defined.

End ClientMoreFacts.

(* ================================================================== *)
(** ** Facts about the configuration wrapper of the agent *)
(* ================================================================== *)

Module AgentConfigFacts.

Import ManagementClient AgentConfig PyFacts ManagementClientFacts.

Lemma dict_update_get_In (other : dict) (k : string) (v : value) :
  forall d : dict,
    dict_get k (dict_update d other) = Some v ->
    dict_get k d = Some v \/ In (k, v) other.
Proof.
  unfold dict_update.
  induction other as [ | [k' v'] other IH ]; intros d H; [now left | ].
  cbn [fold_left fst snd] in H.
  destruct (IH _ H) as [Hset | Hin]; [ | right; now right ].
  destruct (String.eqb k k') eqn:E.
  - apply String.eqb_eq in E. subst k'.
    rewrite dict_get_set_eq in Hset. injection Hset as ->. right. now left.
  - apply String.eqb_neq in E. rewrite dict_get_set_ne in Hset by assumption.
    now left.
Qed.

Lemma dict_update_get (other : dict) (k : string) :
  NoDup (keys other) ->
  forall d : dict,
    dict_get k (dict_update d other)
    = match dict_get k other with
      | Some v => Some v
      | None => dict_get k d
      end.
Proof.
  unfold dict_update.
  induction other as [ | [k' v'] other IH ]; intros Hnd d; [reflexivity | ].
  unfold keys in Hnd. cbn [map fst] in Hnd.
  inversion Hnd as [ | ? ? Hfresh Hnd' ]; subst.
  cbn [fold_left fst snd dict_get]. rewrite (IH Hnd').
  destruct (String.eqb k k') eqn:E.
  - apply String.eqb_eq in E. subst k'.
    rewrite (ChainMoreFacts.dict_get_not_key _ _ Hfresh).
    apply dict_get_set_eq.
  - apply String.eqb_neq in E. now rewrite dict_get_set_ne.
Qed.

Section WithUtils.

Variable nested_get_from_dict : dict -> list string -> result value.

(** X25.  With the defaults of [__init__], [config_changed] can only
    return if the stored specific configuration has a "service" entry
    that holds a "log_level": the default "service" entry has none,
    since the display of the defaults writes "service" twice and the
    second value replaces the one with the log level. *)
Theorem config_changed_needs_stored_log_level
    (self : ConnectorsAgentConfigurationWrapper) (new_config : dict)
    (changed : bool) :
  _default_config self = _default_config init ->
  config_changed nested_get_from_dict self new_config = Ok changed ->
  exists service log_level,
    In ("service", service) (specific_config self) /\
    Byoei.getitem service "log_level" = Ok log_level.
Proof.
  intros Hdef. unfold config_changed, dict_getitem.
  destruct (dict_get "service"
              (dict_update (_default_config self) (specific_config self)))
    as [ service | ] eqn:Hservice; cbn [and_then]; [ | discriminate ].
  destruct (Byoei.getitem service "log_level") as [ log_level | e ] eqn:Hlevel;
    cbn [and_then]; [ | discriminate ].
  intros _.
  apply dict_update_get_In in Hservice as [Hdefault | Hin].
  - rewrite Hdef in Hdefault. cbn in Hdefault.
    injection Hdefault as <-. discriminate.
  - exists service, log_level. split; assumption.
Qed.

(** X26.  On a wrapper fresh from [__init__], [try_update] raises
    [KeyError("log_level")] whatever the check-in holds, before
    [nested_get_from_dict] is called, and stores nothing: the wrapper is
    as it was, so the next check-in fails the same way. *)
Theorem fresh_wrapper_never_updates
    (log_level : value) (es_creds : option dict) :
  try_update nested_get_from_dict init log_level es_creds
  = (Raise (KeyError "log_level"), init).
Proof.
  reflexivity.
Qed.

(** X27.  Once a log level and credentials are stored, a check-in that
    carries no credentials is reported as a change, whatever its log
    level: [try_update] returns [True], keeps the stored credentials and
    replaces the stored "service" entry by the log level received. *)
Theorem check_in_without_credentials_is_a_change
    (self : ConnectorsAgentConfigurationWrapper)
    (service stored_level new_level log_level : value) (creds : dict) :
  NoDup (keys (specific_config self)) ->
  dict_get "service" (specific_config self) = Some service ->
  Byoei.getitem service "log_level" = Ok stored_level ->
  dict_get "elasticsearch" (specific_config self) = Some (VDict creds) ->
  nested_get_from_dict (assumed_configuration log_level None)
    ["service"; "log_level"] = Ok new_level ->
  exists self',
    try_update nested_get_from_dict self log_level None = (Ok true, self') /\
    dict_get "elasticsearch" (specific_config self') = Some (VDict creds) /\
    dict_get "service" (specific_config self')
    = Some (VDict [("log_level", log_level)]).
Proof.
  intros Hnd Hservice Hlevel Hes Hnew.
  assert (Hchanged :
            config_changed nested_get_from_dict self
              (assumed_configuration log_level None) = Ok true).
  { unfold config_changed, dict_getitem.
    rewrite !(dict_update_get _ _ Hnd), Hservice, Hes.
    cbn [and_then]. rewrite Hlevel. cbn [and_then].
    rewrite Hnew. cbn [and_then].
    destruct (negb (py_eq stored_level new_level)); reflexivity. }
  unfold try_update. rewrite Hchanged.
  eexists. split; [reflexivity | ].
  cbn [specific_config assumed_configuration dict_set String.eqb Ascii.eqb
       Bool.eqb dict_update fold_left fst snd].
  split.
  - rewrite dict_get_set_ne by discriminate. assumption.
  - apply dict_get_set_eq.
Qed.

End WithUtils.

Lemma config_changed_needs_stored_log_level_witness :
  exists service log_level,
    In ("service", service) (specific_config configured) /\
    Byoei.getitem service "log_level" = Ok log_level.
Proof.
  apply (config_changed_needs_stored_log_level example_nested_get configured
           (assumed_configuration (VStr "DEBUG") None) true).
  - reflexivity.
  - reflexivity.
Defined.

Lemma check_in_without_credentials_is_a_change_witness :
  exists self',
    try_update example_nested_get configured (VStr "INFO") None
    = (Ok true, self') /\
    dict_get "elasticsearch" (specific_config self')
    = Some (VDict [("host", VStr "http://localhost:9200");
                   ("api_key", VStr "secret")]) /\
    dict_get "service" (specific_config self')
    = Some (VDict [("log_level", VStr "INFO")]).
Proof.
  apply (check_in_without_credentials_is_a_change example_nested_get configured
           (VDict [("log_level", VStr "INFO")]) (VStr "INFO") (VStr "INFO")
           (VStr "INFO")
           [("host", VStr "http://localhost:9200"); ("api_key", VStr "secret")]).
  - repeat constructor; cbn; intuition discriminate.
  - reflexivity.
  - reflexivity.
  - reflexivity.
  - reflexivity.
Defined.

End AgentConfigFacts.
